(** * Execution contexts, package installation and shared terminals

    A shallow embedding of the execution-context engine of the code editor
    API: [Api1/src/config/dynamicLanguages.ts],
    [Api1/src/services/sessionFreeExecutionService.ts] (which also carries
    [EnhancedCodeExecutionService]) and
    [Api1/src/services/sharedTerminalService.ts].

    The first half of the file holds the embedding, the second half the
    properties proved about it. *)

From Stdlib Require Import ZArith NArith QArith List String Ascii Bool Lia.
From Stdlib Require Import DecimalString Permutation Sorted.
Import ListNotations.
Local Open Scope string_scope.
Local Open Scope Z_scope.

(* ===================================================================== *)
(** ** JavaScript values used by the services *)
(* ===================================================================== *)

Module Js.

(** [Map<string, V>]: entries in insertion order, one entry per key. *)
Section JsMap.
Context {V : Type}.

Definition map := list (string * V).

Fixpoint get (m : map) (k : string) : option V :=
  match m with
  | [] => None
  | (k', v) :: r => if String.eqb k' k then Some v else get r k
  end.

Definition has (m : map) (k : string) : bool :=
  match get m k with Some _ => true | None => false end.

(** [m.set(k, v)] keeps the position of an existing key and appends a
    new one. *)
Fixpoint set (m : map) (k : string) (v : V) : map :=
  match m with
  | [] => [(k, v)]
  | (k', v') :: r =>
      if String.eqb k' k then (k, v) :: r else (k', v') :: set r k v
  end.

Fixpoint delete (m : map) (k : string) : map :=
  match m with
  | [] => []
  | (k', v) :: r =>
      if String.eqb k' k then delete r k else (k', v) :: delete r k
  end.

(** No key occurs twice, which [set] and [delete] maintain. *)
Fixpoint uniqueKeys (m : map) : bool :=
  match m with
  | [] => true
  | (k, _) :: r => negb (has r k) && uniqueKeys r
  end.

Definition keys (m : map) : list string := List.map fst m.
Definition values (m : map) : list V := List.map snd m.
Definition size (m : map) : nat := List.length m.
End JsMap.
Arguments map : clear implicits.

(** [Set<string>], in insertion order. *)
Definition set_t := list string.

Fixpoint set_has (s : set_t) (x : string) : bool :=
  match s with
  | [] => false
  | y :: r => String.eqb y x || set_has r x
  end.

Definition set_add (s : set_t) (x : string) : set_t :=
  if set_has s x then s else (s ++ [x])%list.

(** [parts.join(sep)] *)
Fixpoint join (sep : string) (parts : list string) : string :=
  match parts with
  | [] => EmptyString
  | [p] => p
  | p :: r => p ++ sep ++ join sep r
  end.

(** [s.replace(/c/g, by)] for a one-character pattern. *)
Fixpoint replaceAll (c : ascii) (by_ : string) (s : string) : string :=
  match s with
  | EmptyString => EmptyString
  | String a r =>
      if Ascii.eqb a c then by_ ++ replaceAll c by_ r
      else String a (replaceAll c by_ r)
  end.

(** [s.replace(pat, by)] for a string pattern: the first occurrence only. *)
Fixpoint replaceFirst (pat by_ : string) (s : string) : string :=
  if String.prefix pat s
  then by_ ++ String.substring (String.length pat)
                               (String.length s - String.length pat)%nat s
  else match s with
       | EmptyString => EmptyString
       | String a r => String a (replaceFirst pat by_ r)
       end.

(** [s.split(c)] for a one-character separator. *)
Fixpoint split (c : ascii) (s : string) : list string :=
  match s with
  | EmptyString => [EmptyString]
  | String a r =>
      if Ascii.eqb a c then EmptyString :: split c r
      else match split c r with
           | [] => [String a EmptyString]
           | h :: t => String a h :: t
           end
  end.

Definition is_space (a : ascii) : bool :=
  let n := nat_of_ascii a in
  (Nat.eqb n 32 || (Nat.leb 9 n && Nat.leb n 13))%bool.

Fixpoint trimStart (s : string) : string :=
  match s with
  | EmptyString => EmptyString
  | String a r => if is_space a then trimStart r else s
  end.

Fixpoint rev_string (acc s : string) : string :=
  match s with
  | EmptyString => acc
  | String a r => rev_string (String a acc) r
  end.

(** [s.trim()] over the ASCII white space. *)
Definition trim (s : string) : string :=
  rev_string EmptyString (trimStart (rev_string EmptyString (trimStart s))).

(** A string as a condition: only the empty string is falsy. *)
Definition truthy (s : string) : bool :=
  match s with EmptyString => false | _ => true end.

(** [x || dflt] for a possibly undefined string. *)
Definition or_else (x : option string) (dflt : string) : string :=
  match x with
  | Some s => if truthy s then s else dflt
  | None => dflt
  end.

(** [s.toLowerCase()] over ASCII letters. *)
Definition lower (a : ascii) : ascii :=
  let n := nat_of_ascii a in
  if (Nat.leb 65 n && Nat.leb n 90)%bool then ascii_of_nat (n + 32) else a.

Fixpoint toLowerCase (s : string) : string :=
  match s with
  | EmptyString => EmptyString
  | String a r => String (lower a) (toLowerCase r)
  end.

(** The double quote and the backslash, which a literal cannot hold. *)
Definition dq_char : ascii := ascii_of_nat 34.
Definition dq : string := String dq_char EmptyString.
Definition sq_char : ascii := ascii_of_nat 39.
Definition sq : string := String sq_char EmptyString.
Definition backslash : string := String (ascii_of_nat 92) EmptyString.
Definition newline_char : ascii := ascii_of_nat 10.

(** Decimal rendering of an integer, as in a template literal. *)
Definition show (z : Z) : string :=
  DecimalString.NilZero.string_of_int (Z.to_int z).

End Js.

(* ===================================================================== *)
(** ** [config/dynamicLanguages.ts] *)
(* ===================================================================== *)

Module Lang.

Inductive Cost := low | medium | high.

Record LanguageTier := {
  name : string;
  cost : Cost;
  memoryLimit : string;
  cpuLimit : Q;
  executionTimeout : Z;
  concurrentLimit : Z;
  baseImage : string;
  setupCommands : list string;
  fileExtension : string;
  executeCommand : string -> list string;
  packageInstallCommand : option (list string);
  commonPackages : option (list string);
  active : option bool;
  packagesRequiringBuildTools : option (list string);
  buildToolsInstallCommand : option (list string)
}.

Definition python : LanguageTier := {|
  name := "Python";
  cost := low;
  memoryLimit := "512m";
  cpuLimit := 1%Q;
  executionTimeout := 30000;
  concurrentLimit := 20;
  baseImage := "leviathan-python-optimized";
  setupCommands :=
    [ "apt-get update && apt-get install -y --no-install-recommends gcc libc6-dev build-essential && rm -rf /var/lib/apt/lists/*";
      "pip install --no-cache-dir pip --upgrade";
      "pip install --no-cache-dir requests urllib3 numpy pandas matplotlib seaborn plotly scikit-learn" ];
  fileExtension := ".py";
  executeCommand := fun fileName => ["python"; "-u"; fileName];
  packageInstallCommand := Some ["pip"; "install"; "--no-cache-dir"];
  commonPackages :=
    Some ["requests"; "numpy"; "pandas"; "matplotlib"; "seaborn"; "plotly";
          "scikit-learn"; "flask"; "django"; "fastapi"];
  active := Some true;
  packagesRequiringBuildTools :=
    Some ["numpy"; "pandas"; "scipy"; "matplotlib"; "pillow"; "psycopg2";
          "lxml"; "scikit-learn"];
  buildToolsInstallCommand :=
    Some ["apt-get"; "update"; "&&"; "apt-get"; "install"; "-y";
          "--no-install-recommends"; "build-essential"; "&&"; "rm"; "-rf";
          "/var/lib/apt/lists/*"]
|}.

Definition javascript : LanguageTier := {|
  name := "JavaScript (Node.js)";
  cost := low;
  memoryLimit := "512m";
  cpuLimit := 1%Q;
  executionTimeout := 30000;
  concurrentLimit := 20;
  baseImage := "leviathan-node-optimized";
  setupCommands :=
    [ "apt-get update && apt-get install -y --no-install-recommends python3 make g++ && rm -rf /var/lib/apt/lists/*";
      "npm install -g npm@latest" ];
  fileExtension := ".js";
  executeCommand := fun fileName => ["node"; fileName];
  packageInstallCommand := Some ["npm"; "install"; "--no-save"];
  commonPackages :=
    Some ["lodash"; "axios"; "express"; "socket.io"; "moment"; "uuid";
          "fs-extra"; "chalk"];
  active := Some true;
  packagesRequiringBuildTools := None;
  buildToolsInstallCommand := None
|}.

Definition go : LanguageTier := {|
  name := "Go";
  cost := low;
  memoryLimit := "200m";
  cpuLimit := (1 # 2)%Q;
  executionTimeout := 8000;
  concurrentLimit := 25;
  baseImage := "leviathan-go-optimized";
  setupCommands := ["apk add --no-cache git"];
  fileExtension := ".go";
  executeCommand := fun fileName => ["go"; "run"; fileName];
  packageInstallCommand := Some ["go"; "get"];
  commonPackages := Some [];
  active := Some true;
  packagesRequiringBuildTools := None;
  buildToolsInstallCommand := None
|}.

Definition cpp : LanguageTier := {|
  name := "C++";
  cost := medium;
  memoryLimit := "300m";
  cpuLimit := 1%Q;
  executionTimeout := 20000;
  concurrentLimit := 12;
  baseImage := "leviathan-cpp-optimized";
  setupCommands :=
    [ "apt-get update && apt-get install -y --no-install-recommends && rm -rf /var/lib/apt/lists/*" ];
  fileExtension := ".cpp";
  executeCommand := fun fileName =>
    ["sh"; "-c"; "g++ -std=c++17 " ++ fileName ++ " -o output && ./output"];
  packageInstallCommand := Some [];
  commonPackages := Some [];
  active := Some true;
  packagesRequiringBuildTools := None;
  buildToolsInstallCommand := None
|}.

Definition java : LanguageTier := {|
  name := "Java";
  cost := medium;
  memoryLimit := "512m";
  cpuLimit := 1%Q;
  executionTimeout := 15000;
  concurrentLimit := 10;
  baseImage := "leviathan-java-optimized";
  setupCommands :=
    [ "apt-get update && apt-get install -y --no-install-recommends && rm -rf /var/lib/apt/lists/*" ];
  fileExtension := ".java";
  executeCommand := fun fileName =>
    ["sh"; "-c";
     "javac " ++ fileName ++ " && java "
       ++ Js.replaceFirst ".java" EmptyString fileName];
  packageInstallCommand := Some [];
  commonPackages := Some [];
  active := Some true;
  packagesRequiringBuildTools := None;
  buildToolsInstallCommand := None
|}.

(** The own properties of the [languageTiers] object, in source order. *)
Definition ownTiers : Js.map LanguageTier :=
  [ ("python", python); ("javascript", javascript); ("go", go);
    ("cpp", cpp); ("java", java) ].

(** [languageTiers] is a plain object literal, so a bracket lookup also
    finds the members every object inherits from [Object.prototype].
    Those are functions or objects: truthy, and without any of the
    [LanguageTier] fields. *)
Definition objectPrototypeMembers : list string :=
  [ "constructor"; "__proto__"; "hasOwnProperty"; "isPrototypeOf";
    "propertyIsEnumerable"; "toLocaleString"; "toString"; "valueOf";
    "__defineGetter__"; "__defineSetter__"; "__lookupGetter__";
    "__lookupSetter__" ].

Inductive Lookup :=
| Own (t : LanguageTier)
| Inherited
| Undefined.

(** [languageTiers[language]] *)
Definition languageTiers (language : string) : Lookup :=
  match Js.get ownTiers language with
  | Some t => Own t
  | None =>
      if Js.set_has objectPrototypeMembers language then Inherited
      else Undefined
  end.

(** [!languageConfig] *)
Definition falsy (l : Lookup) : bool :=
  match l with Undefined => true | _ => false end.

(** The fields read through a looked-up value; an inherited member has
    none of them, and an array (even an empty one) is truthy. *)
Definition lk_setupCommands (l : Lookup) : option (list string) :=
  match l with Own t => Some (setupCommands t) | _ => None end.

Definition lk_packageInstallCommand (l : Lookup) : option (list string) :=
  match l with Own t => packageInstallCommand t | _ => None end.

Definition lk_executeCommand (l : Lookup)
  : option (string -> list string) :=
  match l with Own t => Some (executeCommand t) | _ => None end.

End Lang.

(* ===================================================================== *)
(** ** The container runtime the services call

    [DynamicDockerService], the clock and Node's [path] module are not part
    of the sources at hand; the services are embedded over any
    implementation of them.  A call may change the outside world [W] and
    either resolves with a value or rejects with an error message. *)
(* ===================================================================== *)

Module Docker.

Inductive Outcome (A : Type) :=
| Resolved (a : A)
| Rejected (message : string).
Arguments Resolved {A} a.
Arguments Rejected {A} message.

(** Modelled from the spec: what [executeCommand] of the absent
    [DynamicDockerService] resolves with.  The spec gives [exec] the result
    [{stdout, stderr, exitCode}]; the services read the fields [output],
    [error] and [executionTime] of it, and never the exit status
    [exitCode]. *)
Record ExecResult := {
  output : option string;
  error : option string;
  executionTime : Z;
  exitCode : Z
}.

Record ContainerConfig := {
  cfg_language : string;
  cfg_isPersistent : bool;
  cfg_roomId : option string;
  cfg_customPackages : option (list string)
}.

Class Runtime (W : Type) := {
  executeCommand : string -> string -> W -> Outcome ExecResult * W;
  createDynamicContainer : ContainerConfig -> W -> Outcome string * W;
  destroyContainer : string -> W -> Outcome unit * W;
  (** [Date.now()] and [new Date()] *)
  dateNow : W -> Z * W;
  (** [path.join], [path.dirname], [path.basename] *)
  path_join : string -> string -> string;
  path_dirname : string -> string;
  path_basename : string -> string;
  (** the text an inherited [Object.prototype] member prints as *)
  showInherited : string -> string
}.

(** The calls a service makes on the container runtime, in order. *)
Inductive Call :=
| CallExecute (containerId command : string)
| CallCreate (config : ContainerConfig)
| CallDestroy (containerId : string).

Definition isCreate (c : Call) : bool :=
  match c with CallCreate _ => true | _ => false end.

Definition isDestroy (c : Call) : bool :=
  match c with CallDestroy _ => true | _ => false end.

Definition isResolved {A} (o : Outcome A) : bool :=
  match o with Resolved _ => true | Rejected _ => false end.

(** A logged call, with whether it resolved. *)
Definition Logged : Type := Call * bool.

(** How many containers were asked for. *)
Definition creations (log : list Logged) : nat :=
  List.length (filter (fun c => isCreate (fst c)) log).

(** How many times [command] was run, in any container. *)
Definition commandsRun (command : string) (log : list Logged) : nat :=
  List.length
    (filter (fun c => match fst c with
                      | CallExecute _ cmd => String.eqb cmd command
                      | _ => false
                      end) log).

(** A call that is neither a container creation nor a destruction. *)
Definition plainCall (c : Logged) : Prop :=
  isCreate (fst c) = false /\ isDestroy (fst c) = false.

End Docker.

(* ===================================================================== *)
(** ** A state and exception monad for the [async] methods *)
(* ===================================================================== *)

Module Async.
Import Docker.

Section Monad.
Context {S : Type}.

Definition M (A : Type) : Type := S -> Outcome A * S.

Definition ret {A} (a : A) : M A := fun st => (Resolved a, st).

Definition throw {A} (message : string) : M A :=
  fun st => (Rejected message, st).

Definition bind {A B} (c : M A) (k : A -> M B) : M B :=
  fun st =>
    match c st with
    | (Resolved a, st') => k a st'
    | (Rejected e, st') => (Rejected e, st')
    end.

(** [try { c } catch (error) { handler(error.message) }]: what [c] did
    to the state before it threw stays done. *)
Definition tryCatch {A} (c : M A) (handler : string -> M A) : M A :=
  fun st =>
    match c st with
    | (Resolved a, st') => (Resolved a, st')
    | (Rejected e, st') => handler e st'
    end.

Definition gets {A} (f : S -> A) : M A :=
  fun st => (Resolved (f st), st).

Definition modify (f : S -> S) : M unit :=
  fun st => (Resolved tt, f st).

(** [for (const x of xs) { body(x) }] *)
Fixpoint forEach {A} (xs : list A) (body : A -> M unit) : M unit :=
  match xs with
  | [] => ret tt
  | x :: r => bind (body x) (fun _ => forEach r body)
  end.
End Monad.
Arguments M : clear implicits.

Declare Scope async_scope.
Delimit Scope async_scope with async.
Notation "x <- c ;; k" := (bind c (fun x => k))
  (at level 61, c at next level, right associativity) : async_scope.
Notation "c ;;; k" := (bind c (fun _ => k))
  (at level 61, right associativity) : async_scope.

End Async.

(* ===================================================================== *)
(** ** [services/sessionFreeExecutionService.ts]:
       [SessionFreeExecutionService] *)
(* ===================================================================== *)

Module SessionFree.
Import Docker Async.
Local Open Scope async_scope.

Record SessionFreeExecutionRequest := {
  req_code : string;
  req_language : string;
  req_fileName : option string;
  req_input : option string;
  req_packages : option (list string);
  req_userId : option string;
  req_timeout : option Z
}.

Record SessionFreeExecutionResult := {
  res_output : string;
  res_error : string;
  res_executionTime : Z;
  res_exitCode : Z;
  res_files : option (list string);
  res_contextId : string
}.

(** The result of [executeCodeInContext], which lacks [executionTime]
    and [contextId]. *)
Record PartialResult := {
  pr_output : string;
  pr_error : string;
  pr_exitCode : Z;
  pr_files : list string
}.

Record PersistentExecutionContext := {
  contextId : string;
  containerId : string;
  language : string;
  workingDir : string;
  installedPackages : Js.set_t;
  userId : string;
  lastUsed : Z;
  createdAt : Z
}.

(** Context objects live in a store and are referred to by address: the
    registry and the caller of [getOrCreatePersistentContext] hold the
    same object, and [installPackages] and [executeCode] mutate it in
    place. *)
Definition ref := nat.

Definition noContext : PersistentExecutionContext := {|
  contextId := EmptyString; containerId := EmptyString;
  language := EmptyString; workingDir := EmptyString;
  installedPackages := []; userId := EmptyString;
  lastUsed := 0; createdAt := 0
|}.

Record State (W : Type) := {
  world : W;
  persistentContexts : Js.map ref;
  store : list PersistentExecutionContext;
  calls : list Logged
}.
Arguments world {W} _.
Arguments persistentContexts {W} _.
Arguments store {W} _.
Arguments calls {W} _.

(** [[...template, packageName].join(' ')] *)
Definition installCommand (template : list string) (packageName : string)
  : string :=
  Js.join " " (template ++ [packageName])%list.

Definition CONTEXT_TIMEOUT : Z := 30 * 60 * 1000.
Definition MAX_CONTEXTS_PER_USER : nat := 5.

(** Addresses are only ever produced by [alloc]. *)
Definition deref (h : list PersistentExecutionContext) (r : ref)
  : PersistentExecutionContext := nth r h noContext.

Fixpoint update {A} (h : list A) (r : nat) (f : A -> A) : list A :=
  match h, r with
  | [], _ => []
  | x :: t, O => f x :: t
  | x :: t, S r' => x :: update t r' f
  end.

Section Service.
Context {W : Type} `{RT : Runtime W}.

Definition M (A : Type) : Type := Async.M (State W) A.

(** *** Calls on the runtime, each recorded in [calls] *)

Definition record_call (c : Logged) (w : W) (st : State W) : State W :=
  {| world := w;
     persistentContexts := persistentContexts st;
     store := store st;
     calls := (calls st ++ [c])%list |}.

Definition dockerExecute (cid command : string) : M ExecResult :=
  fun st =>
    let '(r, w) := executeCommand cid command (world st) in
    (r, record_call (CallExecute cid command, isResolved r) w st).

Definition dockerCreate (config : ContainerConfig) : M string :=
  fun st =>
    let '(r, w) := createDynamicContainer config (world st) in
    (r, record_call (CallCreate config, isResolved r) w st).

Definition dockerDestroy (cid : string) : M unit :=
  fun st =>
    let '(r, w) := destroyContainer cid (world st) in
    (r, record_call (CallDestroy cid, isResolved r) w st).

Definition now : M Z :=
  fun st =>
    let '(t, w) := dateNow (world st) in
    (Resolved t,
     {| world := w;
        persistentContexts := persistentContexts st;
        store := store st;
        calls := calls st |}).

(** *** The registry and the object store *)

Definition contextsGet (key : string) : M (option ref) :=
  gets (fun st => Js.get (persistentContexts st) key).

Definition contextsSet (key : string) (r : ref) : M unit :=
  modify (fun st =>
    {| world := world st;
       persistentContexts := Js.set (persistentContexts st) key r;
       store := store st;
       calls := calls st |}).

Definition contextsDelete (key : string) : M unit :=
  modify (fun st =>
    {| world := world st;
       persistentContexts := Js.delete (persistentContexts st) key;
       store := store st;
       calls := calls st |}).

Definition read (r : ref) : M PersistentExecutionContext :=
  gets (fun st => deref (store st) r).

Definition alloc (c : PersistentExecutionContext) : M ref :=
  fun st =>
    (Resolved (List.length (store st)),
     {| world := world st;
        persistentContexts := persistentContexts st;
        store := (store st ++ [c])%list;
        calls := calls st |}).

Definition mutate (r : ref)
    (f : PersistentExecutionContext -> PersistentExecutionContext)
  : M unit :=
  modify (fun st =>
    {| world := world st;
       persistentContexts := persistentContexts st;
       store := update (store st) r f;
       calls := calls st |}).

Definition set_lastUsed (t : Z) (c : PersistentExecutionContext) :=
  {| contextId := contextId c; containerId := containerId c;
     language := language c; workingDir := workingDir c;
     installedPackages := installedPackages c; userId := userId c;
     lastUsed := t; createdAt := createdAt c |}.

Definition add_installed (p : string) (c : PersistentExecutionContext) :=
  {| contextId := contextId c; containerId := containerId c;
     language := language c; workingDir := workingDir c;
     installedPackages := Js.set_add (installedPackages c) p;
     userId := userId c;
     lastUsed := lastUsed c; createdAt := createdAt c |}.

(** *** [enforceUserContextLimit] *)

(** [Array.prototype.sort] is stable; the comparator orders by
    [lastUsed.getTime()], ascending. *)
Fixpoint insertByLastUsed (h : list PersistentExecutionContext)
    (e : string * ref) (l : list (string * ref)) : list (string * ref) :=
  match l with
  | [] => [e]
  | e' :: r =>
      if lastUsed (deref h (snd e)) <=? lastUsed (deref h (snd e'))
      then e :: e' :: r
      else e' :: insertByLastUsed h e r
  end.

Fixpoint sortByLastUsed (h : list PersistentExecutionContext)
    (l : list (string * ref)) : list (string * ref) :=
  match l with
  | [] => []
  | e :: r => insertByLastUsed h e (sortByLastUsed h r)
  end.

Definition ownedBy (h : list PersistentExecutionContext) (u : string)
    (e : string * ref) : bool :=
  String.eqb (userId (deref h (snd e))) u.

(** The [while (userContexts.length >= MAX) { ...shift()... }] loop. *)
Fixpoint evictWhileOver (userContexts : list (string * ref)) : M unit :=
  match userContexts with
  | [] => ret tt
  | (key, r) :: rest =>
      if Nat.leb MAX_CONTEXTS_PER_USER (List.length userContexts)
      then
        context <- read r ;;
        tryCatch (dockerDestroy (containerId context))
                 (fun _ => ret tt) ;;;
        contextsDelete key ;;;
        evictWhileOver rest
      else ret tt
  end.

Definition enforceUserContextLimit (u : string) : M unit :=
  userContexts <- gets (fun st =>
    sortByLastUsed (store st)
      (filter (ownedBy (store st) u) (persistentContexts st))) ;;
  evictWhileOver userContexts.

(** *** [getOrCreatePersistentContext] *)

Definition contextKey (u language_ : string) : string :=
  u ++ ":" ++ language_.

Definition probe : string := "echo " ++ Js.dq ++ "alive" ++ Js.dq.

Definition runSetupCommands (cid : string) (l : Lang.Lookup) : M unit :=
  match Lang.lk_setupCommands l with
  | Some (c :: cs) =>
      forEach (c :: cs) (fun command =>
        tryCatch (dockerExecute cid command ;;; ret tt)
                 (fun _ => ret tt))
  | _ => ret tt
  end.

(** The language check and the creation of a context, the last stage of
    [getOrCreatePersistentContext]. *)
Definition newPersistentContext (u language_ : string) : M ref :=
  let languageConfig := Lang.languageTiers language_ in
  if Lang.falsy languageConfig
  then throw ("Unsupported language: " ++ language_)
  else
    t <- now ;;
    let contextId_ := u ++ "-" ++ language_ ++ "-" ++ Js.show t in
    let workingDir_ := "/app/workspace/" ++ contextId_ in
    cid <- dockerCreate {| cfg_language := language_;
                           cfg_isPersistent := true;
                           cfg_roomId := Some contextId_;
                           cfg_customPackages := None |} ;;
    runSetupCommands cid languageConfig ;;;
    tUsed <- now ;;
    tCreated <- now ;;
    r <- alloc {| contextId := contextId_;
                  containerId := cid;
                  language := language_;
                  workingDir := workingDir_;
                  installedPackages := [];
                  userId := u;
                  lastUsed := tUsed;
                  createdAt := tCreated |} ;;
    contextsSet (contextKey u language_) r ;;;
    ret r.

(** The body of [getOrCreatePersistentContext] past the reuse of a live
    context: the quota first, then the language check and the creation. *)
Definition createPersistentContext (u language_ : string) : M ref :=
  enforceUserContextLimit u ;;;
  newPersistentContext u language_.

Definition getOrCreatePersistentContext (u language_ : string) : M ref :=
  let key := contextKey u language_ in
  found <- contextsGet key ;;
  reused <-
    match found with
    | Some r =>
        context <- read r ;;
        tryCatch (dockerExecute (containerId context) probe ;;;
                  ret (Some r))
                 (fun _ => contextsDelete key ;;; ret None)
    | None => ret None
    end ;;
  match reused with
  | Some r => ret r
  | None => createPersistentContext u language_
  end.

(** *** [installPackages] *)

(** The [for] loop of [installPackages]. *)
Definition installLoop (context : ref) (cid : string)
    (template names : list string) : M unit :=
  forEach names (fun packageName =>
    tryCatch
      (dockerExecute cid (installCommand template packageName) ;;;
       mutate context (add_installed packageName))
      (fun _ => throw ("Failed to install package: " ++ packageName))).

Definition installPackages (context : ref) (packages : list string)
  : M unit :=
  c <- read context ;;
  let languageConfig := Lang.languageTiers (language c) in
  match Lang.lk_packageInstallCommand languageConfig with
  | None =>
      throw ("Package installation not supported for " ++ language c)
  | Some template =>
      let newPackages :=
        filter (fun pkg => negb (Js.set_has (installedPackages c) pkg))
               packages in
      match newPackages with
      | [] => ret tt
      | _ => installLoop context (containerId c) template newPackages
      end
  end.

(** *** [writeCodeToContainer], [getCreatedFiles], [generateFileName] *)

Definition writeCodeToContainer (cid filePath code : string) : M unit :=
  let dirPath := path_dirname filePath in
  dockerExecute cid ("mkdir -p " ++ Js.dq ++ dirPath ++ Js.dq) ;;;
  let escapedCode :=
    Js.replaceAll Js.sq_char
      (Js.sq ++ Js.dq ++ Js.sq ++ Js.dq ++ Js.sq) code in
  dockerExecute cid
    ("echo " ++ Js.sq ++ escapedCode ++ Js.sq ++ " > "
       ++ Js.dq ++ filePath ++ Js.dq) ;;;
  ret tt.

Definition getCreatedFiles (cid workingDir_ : string) : M (list string) :=
  tryCatch
    (result <- dockerExecute cid
       ("find " ++ Js.dq ++ workingDir_ ++ Js.dq
          ++ " -type f 2>/dev/null || echo " ++ Js.dq ++ Js.dq) ;;
     match output result with
     | Some o =>
         if Js.truthy o
         then ret (List.map (fun line => path_basename (Js.trim line))
                     (filter (fun line => Js.truthy (Js.trim line))
                             (Js.split Js.newline_char o)))
         else ret []
     | None => ret []
     end)
    (fun _ => ret []).

Definition extensions : Js.map string :=
  [ ("python", "py"); ("javascript", "js"); ("java", "java");
    ("cpp", "cpp"); ("go", "go"); ("rust", "rs"); ("php", "php");
    ("ruby", "rb") ].

Definition generateFileName (language_ : string) : M string :=
  let key := Js.toLowerCase language_ in
  let ext :=
    match Js.get extensions key with
    | Some e => Js.or_else (Some e) "txt"
    | None =>
        if Js.set_has Lang.objectPrototypeMembers key
        then showInherited key
        else "txt"
    end in
  t <- now ;;
  ret ("code_" ++ Js.show t ++ "." ++ ext).

(** *** [executeCodeInContext] *)

Definition executeCodeInContext (context : ref)
    (request : SessionFreeExecutionRequest) : M PartialResult :=
  c <- read context ;;
  let languageConfig := Lang.languageTiers (language c) in
  if Lang.falsy languageConfig
  then throw ("Language configuration not found: " ++ language c)
  else
    fileName <-
      match req_fileName request with
      | Some f => if Js.truthy f then ret f
                  else generateFileName (language c)
      | None => generateFileName (language c)
      end ;;
    let fullPath := path_join (workingDir c) fileName in
    writeCodeToContainer (containerId c) fullPath (req_code request) ;;;
    match Lang.lk_executeCommand languageConfig with
    | None => throw "languageConfig.executeCommand is not a function"
    | Some executeCommand_ =>
        let finalCommand := Js.join " " (executeCommand_ fileName) in
        let finalCommand :=
          match req_input request with
          | Some i =>
              if Js.truthy i
              then "echo " ++ Js.dq
                     ++ Js.replaceAll Js.dq_char
                          (Js.backslash ++ Js.dq) i
                     ++ Js.dq ++ " | " ++ finalCommand
              else finalCommand
          | None => finalCommand
          end in
        let fullCommand :=
          "cd " ++ Js.dq ++ workingDir c ++ Js.dq ++ " && "
            ++ finalCommand in
        result <- dockerExecute (containerId c) fullCommand ;;
        files <- getCreatedFiles (containerId c) (workingDir c) ;;
        ret {| pr_output := Js.or_else (output result) EmptyString;
               pr_error := Js.or_else (error result) EmptyString;
               pr_exitCode := 0;
               pr_files := files |}
    end.

(** *** [executeCode] *)

Definition executeCode (request : SessionFreeExecutionRequest)
  : M SessionFreeExecutionResult :=
  startTime <- now ;;
  let u := Js.or_else (req_userId request) "anonymous" in
  tryCatch
    (context <- getOrCreatePersistentContext u (req_language request) ;;
     match req_packages request with
     | Some (p :: ps) => installPackages context (p :: ps)
     | _ => ret tt
     end ;;;
     result <- executeCodeInContext context request ;;
     tUsed <- now ;;
     mutate context (set_lastUsed tUsed) ;;;
     tEnd <- now ;;
     c <- read context ;;
     ret {| res_output := pr_output result;
            res_error := pr_error result;
            res_executionTime := tEnd - startTime;
            res_exitCode := pr_exitCode result;
            res_files := Some (pr_files result);
            res_contextId := contextId c |})
    (fun message =>
       tEnd <- now ;;
       ret {| res_output := EmptyString;
              res_error := "Execution failed: " ++ message;
              res_executionTime := tEnd - startTime;
              res_exitCode := 1;
              res_files := None;
              res_contextId := "error" |}).

(** *** [cleanupInactiveContexts], [cleanupContext] *)

Definition cleanupInactiveContexts : M unit :=
  t <- now ;;
  contextsToRemove <- gets (fun st =>
    Js.keys (filter (fun e =>
               CONTEXT_TIMEOUT <? t - lastUsed (deref (store st) (snd e)))
             (persistentContexts st))) ;;
  forEach contextsToRemove (fun key =>
    found <- contextsGet key ;;
    match found with
    | Some r =>
        context <- read r ;;
        tryCatch (dockerDestroy (containerId context))
                 (fun _ => ret tt) ;;;
        contextsDelete key
    | None => ret tt
    end).

Definition cleanupContext (u language_ : string) : M bool :=
  let key := contextKey u language_ in
  found <- contextsGet key ;;
  match found with
  | None => ret false
  | Some r =>
      context <- read r ;;
      tryCatch (dockerDestroy (containerId context) ;;;
                contextsDelete key ;;;
                ret true)
               (fun _ => ret false)
  end.

End Service.

(** The state of a freshly constructed service. *)
Definition initial {W} (w : W) : State W :=
  {| world := w; persistentContexts := []; store := []; calls := [] |}.

(** The registry entries of one owner. *)
Definition owned {W} (st : State W) (u : string) : list (string * ref) :=
  filter (ownedBy (store st) u) (persistentContexts st).

(** No owner holds more than the cap. *)
Definition withinCap {W} (st : State W) : Prop :=
  forall u, (List.length (owned st u) <= MAX_CONTEXTS_PER_USER)%nat.

(** Between [st] and [st'] the registry did not change, no context was
    allocated and no context changed hands. *)
Definition sameOwners {W} (st st' : State W) : Prop :=
  persistentContexts st' = persistentContexts st
  /\ List.length (store st') = List.length (store st)
  /\ forall r, userId (deref (store st') r) = userId (deref (store st) r).

Definition keepsOwners {W A} (c : Async.M (State W) A) : Prop :=
  forall st res st', c st = (res, st') -> sameOwners st st'.

(** [a] was used no later than [b]. *)
Definition olderEq (h : list PersistentExecutionContext)
    (a b : string * ref) : Prop :=
  lastUsed (deref h (snd a)) <= lastUsed (deref h (snd b)).

(** The context after the packages [done] have been recorded in it. *)
Definition recorded (done : list string) (c : PersistentExecutionContext)
  : PersistentExecutionContext :=
  fold_left (fun c p => add_installed p c) done c.

(** The log entry of an install command. *)
Definition installed (ok : bool) (cid : string) (template : list string)
    (p : string) : Logged :=
  (CallExecute cid (installCommand template p), ok).

(** What every state of the service satisfies: the registry has one
    entry per key and refers to allocated objects only. *)
Definition wellFormed {W} (st : State W) : bool :=
  Js.uniqueKeys (persistentContexts st)
  && forallb (fun e => Nat.ltb (snd e) (List.length (store st)))
             (persistentContexts st).

(** The invariant of the service. *)
Definition invariant {W} (st : State W) : Prop :=
  wellFormed st = true /\ withinCap st.

(** A computation that keeps the invariant, however it ends. *)
Definition preserves {W A} (c : Async.M (State W) A) : Prop :=
  forall st res st', invariant st -> c st = (res, st') -> invariant st'.

End SessionFree.

(* ===================================================================== *)
(** ** [services/sessionFreeExecutionService.ts]:
       [EnhancedCodeExecutionService] *)
(* ===================================================================== *)

Module Enhanced.
Import Docker Async.
Local Open Scope async_scope.

Record CodeExecutionResult := {
  res_output : option string;
  res_error : option string;
  res_executionTime : Z;
  res_exitCode : Z
}.

Record State (W : Type) := {
  world : W;
  calls : list Logged
}.
Arguments world {W} _.
Arguments calls {W} _.

Section Service.
Context {W : Type} `{RT : Runtime W}.

Definition dockerExecute (cid command : string)
  : M (State W) ExecResult :=
  fun st =>
    let '(r, w) := executeCommand cid command (world st) in
    (r, {| world := w;
           calls := (calls st
                       ++ [(CallExecute cid command, isResolved r)])%list |}).

(** [executeCodeInContainer]; the [timeout] argument is not used by
    the body. *)
Definition executeCodeInContainer (cid language_ fileName : string)
    (input : option string) (timeout : option Z)
  : M (State W) CodeExecutionResult :=
  let languageConfig := Lang.languageTiers language_ in
  if Lang.falsy languageConfig
  then throw ("Language configuration not found: " ++ language_)
  else
    match Lang.lk_executeCommand languageConfig with
    | None => throw "languageConfig.executeCommand is not a function"
    | Some executeCommand_ =>
        let executeCmd := Js.join " " (executeCommand_ fileName) in
        let fullCommand :=
          match input with
          | Some i =>
              if Js.truthy i
              then "echo " ++ Js.sq ++ i ++ Js.sq ++ " | " ++ executeCmd
              else executeCmd
          | None => executeCmd
          end in
        result <- dockerExecute cid fullCommand ;;
        ret {| res_output := output result;
               res_error := error result;
               res_executionTime := executionTime result;
               res_exitCode :=
                 match error result with
                 | Some e => if Js.truthy e then 1 else 0
                 | None => 0
                 end |}
    end.
End Service.

End Enhanced.

(* ===================================================================== *)
(** ** [services/sharedTerminalService.ts]: [SharedTerminalService] *)
(* ===================================================================== *)

Module Terminal.
Import Docker Async.
Local Open Scope async_scope.

(** *** [sanitizeOutput]

    The regular expressions have no [u] flag, so they work on the UTF-16
    code units of the string, and [length] and [substring] count code
    units: a string is the list of its code units here. *)

Definition jsstring := list N.

Definition of_ascii (s : string) : jsstring :=
  List.map N_of_ascii (list_ascii_of_string s).

Definition MAX_OUTPUT_SIZE : Z := 50000.

(** ['\n[Output truncated...]\n'] *)
Definition truncationMarker : jsstring :=
  (10%N :: of_ascii "[Output truncated...]" ++ [10%N])%list.

(** The class [[0-9;]]. *)
Definition isParam (c : N) : bool :=
  ((48 <=? c) && (c <=? 57) || (c =? 59))%N.

Fixpoint skipParams (s : jsstring) : jsstring :=
  match s with
  | [] => []
  | c :: r => if isParam c then skipParams r else s
  end.

(** A match of [/\x1b\[[0-9;]*m/] anchored at the head of [s]: what
    follows the match.  The greedy star needs no backtracking, because
    [m] is not in the class. *)
Definition matchAnsi (s : jsstring) : option jsstring :=
  match s with
  | 27%N :: 91%N :: r =>
      match skipParams r with
      | 109%N :: r' => Some r'
      | _ => None
      end
  | _ => None
  end.

(** [.replace(/\x1b\[[0-9;]*m/g, '')], scanning left to right; [skip]
    counts the code units of the current match still to be dropped. *)
Fixpoint stripAnsiFrom (skip : nat) (s : jsstring) : jsstring :=
  match s with
  | [] => []
  | c :: r =>
      match skip with
      | S k => stripAnsiFrom k r
      | O =>
          match matchAnsi s with
          | Some rest =>
              stripAnsiFrom (List.length r - List.length rest) r
          | None => c :: stripAnsiFrom 0 r
          end
      end
  end.

Definition stripAnsi (s : jsstring) : jsstring := stripAnsiFrom 0 s.

(** The class [[\x00-\x08\x0B\x0C\x0E-\x1F\x7F]]. *)
Definition isStrippedControl (c : N) : bool :=
  ((c <=? 8) || (c =? 11) || (c =? 12)
   || ((14 <=? c) && (c <=? 31)) || (c =? 127))%N.

Definition stripControl (s : jsstring) : jsstring :=
  filter (fun c => negb (isStrippedControl c)) s.

Definition sanitizeOutput (output : jsstring) : jsstring :=
  let sanitized := stripControl (stripAnsi output) in
  if MAX_OUTPUT_SIZE <? Z.of_nat (List.length sanitized)
  then (firstn (Z.to_nat MAX_OUTPUT_SIZE) sanitized
          ++ truncationMarker)%list
  else sanitized.

(** The [data] handler of an attached stream broadcasts the sanitized
    chunk to the room unless it is empty. *)
Definition broadcastOf (chunk : jsstring) : option jsstring :=
  match sanitizeOutput chunk with
  | [] => None
  | o => Some o
  end.

(** An ASCII control character: below the space, or DEL. *)
Definition isControl (c : N) : bool := ((c <? 32) || (c =? 127))%N.

(** Newline, tab and carriage return. *)
Definition isKeptControl (c : N) : bool :=
  ((c =? 10) || (c =? 9) || (c =? 13))%N.

(** *** Sessions and rooms *)

(** [session.execInstance], with the [stream] the handler stores in it
    once the exec has started. *)
Record ExecInstance := {
  exec_id : string;
  exec_stream : option string
}.

Record TerminalSession := {
  id : string;
  containerId : string;
  roomId : string;
  userId : string;
  container : string;
  execInstance : option ExecInstance;
  isActive : bool;
  startTime : Z
}.

(** Session objects are shared between [userSessions] and the
    [activeSessions] of their room, so both hold addresses into one
    store; rooms are objects too. *)
Definition ref := nat.

Record RoomTerminal := {
  rt_roomId : string;
  rt_containerId : string;
  rt_container : string;
  activeSessions : Js.map ref;
  createdAt : Z;
  lastActivity : Z
}.

(** The Docker engine client ([dockerode]), the clock and [uuidv4]. *)
Class Engine (W : Type) := {
  containerExec : string -> W -> Outcome string * W;
  execStart : string -> W -> Outcome string * W;
  streamWritable : string -> W -> bool;
  streamWrite : string -> string -> W -> Outcome unit * W;
  streamEnd : string -> W -> Outcome unit * W;
  containerStop : string -> W -> Outcome unit * W;
  containerRemove : string -> W -> Outcome unit * W;
  newDate : W -> Z * W;
  uuidv4 : W -> string * W
}.

Inductive EngineCall :=
| CallStop (container_ : string)
| CallRemove (container_ : string)
| CallEnd (stream : string)
| CallWrite (stream input : string)
| CallExec (container_ : string)
| CallStart (exec : string).

(** [socket.emit('terminal-error', ...)] *)
Record Emitted := {
  em_socket : string;
  em_message : string;
  em_details : option string
}.

Record State (W : Type) := {
  world : W;
  roomTerminals : Js.map ref;
  userSessions : Js.map ref;
  rooms : list RoomTerminal;
  sessions : list TerminalSession;
  calls : list EngineCall;
  emitted : list Emitted
}.
Arguments world {W} _.
Arguments roomTerminals {W} _.
Arguments userSessions {W} _.
Arguments rooms {W} _.
Arguments sessions {W} _.
Arguments calls {W} _.
Arguments emitted {W} _.

(** The thresholds of the two sweeps: 30 minutes and 1 hour. *)
Definition maxInactiveTime : Z := 30 * 60 * 1000.
Definition maxUnusedTime : Z := 60 * 60 * 1000.

(** The condition under which the session sweep disconnects a session. *)
Definition isStale (t : Z) (s : TerminalSession) : bool :=
  maxInactiveTime <? t - startTime s.

(** The condition under which the room sweep destroys a room. *)
Definition isUnused (t : Z) (roomTerminal : RoomTerminal) : bool :=
  (maxUnusedTime <? t - lastActivity roomTerminal)
  && Nat.eqb (Js.size (activeSessions roomTerminal)) 0.

Definition noSession : TerminalSession := {|
  id := EmptyString; containerId := EmptyString; roomId := EmptyString;
  userId := EmptyString; container := EmptyString; execInstance := None;
  isActive := false; startTime := 0
|}.

Definition noRoom : RoomTerminal := {|
  rt_roomId := EmptyString; rt_containerId := EmptyString;
  rt_container := EmptyString; activeSessions := [];
  createdAt := 0; lastActivity := 0
|}.

Definition session (h : list TerminalSession) (r : ref) : TerminalSession :=
  nth r h noSession.

Definition room (h : list RoomTerminal) (r : ref) : RoomTerminal :=
  nth r h noRoom.

Definition with_activeSessions (m : Js.map ref) (t : RoomTerminal) :=
  {| rt_roomId := rt_roomId t; rt_containerId := rt_containerId t;
     rt_container := rt_container t; activeSessions := m;
     createdAt := createdAt t; lastActivity := lastActivity t |}.

Definition with_lastActivity (z : Z) (t : RoomTerminal) :=
  {| rt_roomId := rt_roomId t; rt_containerId := rt_containerId t;
     rt_container := rt_container t; activeSessions := activeSessions t;
     createdAt := createdAt t; lastActivity := z |}.

Definition with_execInstance (e : option ExecInstance) (s : TerminalSession) :=
  {| id := id s; containerId := containerId s; roomId := roomId s;
     userId := userId s; container := container s; execInstance := e;
     isActive := isActive s; startTime := startTime s |}.

Section Service.
Context {W : Type} `{EN : Engine W}.

Definition M (A : Type) : Type := Async.M (State W) A.

Definition set_world (w : W) (st : State W) : State W :=
  {| world := w; roomTerminals := roomTerminals st;
     userSessions := userSessions st; rooms := rooms st;
     sessions := sessions st; calls := calls st;
     emitted := emitted st |}.

Definition set_roomTerminals (m : Js.map ref) (st : State W) : State W :=
  {| world := world st; roomTerminals := m;
     userSessions := userSessions st; rooms := rooms st;
     sessions := sessions st; calls := calls st;
     emitted := emitted st |}.

Definition set_userSessions (m : Js.map ref) (st : State W) : State W :=
  {| world := world st; roomTerminals := roomTerminals st;
     userSessions := m; rooms := rooms st;
     sessions := sessions st; calls := calls st;
     emitted := emitted st |}.

Definition set_rooms (h : list RoomTerminal) (st : State W) : State W :=
  {| world := world st; roomTerminals := roomTerminals st;
     userSessions := userSessions st; rooms := h;
     sessions := sessions st; calls := calls st;
     emitted := emitted st |}.

Definition set_sessions (h : list TerminalSession) (st : State W)
  : State W :=
  {| world := world st; roomTerminals := roomTerminals st;
     userSessions := userSessions st; rooms := rooms st;
     sessions := h; calls := calls st;
     emitted := emitted st |}.

Definition log_call (c : EngineCall) (st : State W) : State W :=
  {| world := world st; roomTerminals := roomTerminals st;
     userSessions := userSessions st; rooms := rooms st;
     sessions := sessions st; calls := (calls st ++ [c])%list;
     emitted := emitted st |}.

Definition emit (e : Emitted) : M unit :=
  modify (fun st =>
    {| world := world st; roomTerminals := roomTerminals st;
       userSessions := userSessions st; rooms := rooms st;
       sessions := sessions st; calls := calls st;
       emitted := (emitted st ++ [e])%list |}).

(** A call on the engine, recorded in [calls]. *)
Definition engine {A} (c : EngineCall) (f : W -> Outcome A * W) : M A :=
  fun st =>
    let '(r, w) := f (world st) in
    (r, log_call c (set_world w st)).

Definition now : M Z :=
  fun st =>
    let '(t, w) := newDate (world st) in
    (Resolved t, set_world w st).

Definition newUuid : M string :=
  fun st =>
    let '(u, w) := uuidv4 (world st) in
    (Resolved u, set_world w st).

Definition mutateRoom (r : ref) (f : RoomTerminal -> RoomTerminal)
  : M unit :=
  modify (fun st => set_rooms (SessionFree.update (rooms st) r f) st).

Definition mutateSession (r : ref)
    (f : TerminalSession -> TerminalSession) : M unit :=
  modify (fun st =>
    set_sessions (SessionFree.update (sessions st) r f) st).

(** *** [createTerminalSession] *)

Definition createTerminalSession (roomTerminal : ref)
    (userId_ socketId : string) : M ref :=
  sessionId <- newUuid ;;
  t <- gets (fun st => room (rooms st) roomTerminal) ;;
  started <- now ;;
  r <- (fun st =>
          (Resolved (List.length (sessions st)),
           set_sessions
             (sessions st ++
                [ {| id := sessionId;
                     containerId := rt_containerId t;
                     roomId := rt_roomId t;
                     userId := userId_;
                     container := rt_container t;
                     execInstance := None;
                     isActive := true;
                     startTime := started |} ])%list st)) ;;
  mutateRoom roomTerminal
    (fun t => with_activeSessions (Js.set (activeSessions t) socketId r) t) ;;;
  ret r.

(** The registration at the end of the [join-room-terminal] handler, once
    access is verified and the room terminal obtained: the session is
    created and stored under the socket in [userSessions]. *)
Definition joinSession (roomTerminal : ref) (userId_ socketId : string)
  : M ref :=
  s <- createTerminalSession roomTerminal userId_ socketId ;;
  modify (fun st =>
    set_userSessions (Js.set (userSessions st) socketId s) st) ;;;
  ret s.

(** *** [handleDisconnect] *)

Definition handleDisconnect (socketId : string) : M unit :=
  found <- gets (fun st => Js.get (userSessions st) socketId) ;;
  match found with
  | None => ret tt
  | Some r =>
      s <- gets (fun st => session (sessions st) r) ;;
      match execInstance s with
      | Some {| exec_stream := Some stream |} =>
          tryCatch (engine (CallEnd stream) (streamEnd stream))
                   (fun _ => ret tt)
      | _ => ret tt
      end ;;;
      roomTerminal <- gets (fun st => Js.get (roomTerminals st) (roomId s)) ;;
      match roomTerminal with
      | Some rr =>
          mutateRoom rr (fun t =>
            with_activeSessions (Js.delete (activeSessions t) socketId) t)
      | None => ret tt
      end ;;;
      modify (fun st =>
        set_userSessions (Js.delete (userSessions st) socketId) st)
  end.

(** *** The [terminal-input] handler *)

Definition onTerminalInput (socketId input : string) : M unit :=
  tryCatch
    (found <- gets (fun st => Js.get (userSessions st) socketId) ;;
     let inactive :=
       emit {| em_socket := socketId;
               em_message := "No active terminal session";
               em_details := None |} in
     match found with
     | None => inactive
     | Some r =>
         s <- gets (fun st => session (sessions st) r) ;;
         if negb (isActive s) then inactive
         else
           match execInstance s with
           | Some _ => ret tt
           | None =>
               e <- engine (CallExec (container s))
                           (containerExec (container s)) ;;
               mutateSession r (with_execInstance
                 (Some {| exec_id := e; exec_stream := None |})) ;;;
               stream <- engine (CallStart e) (execStart e) ;;
               mutateSession r (with_execInstance
                 (Some {| exec_id := e; exec_stream := Some stream |}))
           end ;;;
           s' <- gets (fun st => session (sessions st) r) ;;
           match execInstance s' with
           | Some {| exec_stream := Some stream |} =>
               writable <- gets (fun st => streamWritable stream (world st)) ;;
               if writable
               then
                 engine (CallWrite stream input)
                        (streamWrite stream input) ;;;
                 roomTerminal <- gets (fun st =>
                   Js.get (roomTerminals st) (roomId s')) ;;
                 match roomTerminal with
                 | Some rr =>
                     t <- now ;;
                     mutateRoom rr (with_lastActivity t)
                 | None => ret tt
                 end
               else ret tt
           | _ => ret tt
           end
     end)
    (fun message =>
       emit {| em_socket := socketId;
               em_message := "Failed to process terminal input";
               em_details := Some message |}).

(** *** [cleanupInactiveSessions]

    The loop body deletes no entry but the one being visited, so the
    live [Map] iterator visits exactly the entries present when the
    sweep starts. *)

Definition sweepSession (t : Z) (e : string * ref) : M unit :=
  s <- gets (fun st => session (sessions st) (snd e)) ;;
  if isStale t s
  then handleDisconnect (fst e)
  else ret tt.

Definition cleanupInactiveSessions : M unit :=
  t <- now ;;
  entries <- gets (fun st => userSessions st) ;;
  forEach entries (sweepSession t).

(** *** [cleanupUnusedRoomTerminals]

    The method is [async].  At [await roomTerminal.container.stop(...)]
    and at [await roomTerminal.container.remove(...)] it gives up control,
    and the handlers of the events that arrive before the awaited call
    has settled run first.  It is embedded as the segments that run
    without interruption: from the call of the method to its first
    [await], and from one [await] to the next; [Sweep] is where the method
    is suspended, with the values it holds there.

    The iterator of [this.roomTerminals.entries()] is live: it stays where
    it is while the method is suspended, and [index] counts the entries
    before it.  No other method deletes from [roomTerminals], and this one
    deletes the entry it has just visited, so with one sweep under way the
    entries before the iterator are those it has visited and kept, and a
    room registered meanwhile, which [Map.set] appends, is still to
    come. *)

Inductive Sweep :=
| AwaitStop (t : Z) (index : nat) (roomId_ : string) (roomTerminal : ref)
    (settled : Outcome unit)
| AwaitRemove (t : Z) (index : nat) (roomId_ : string) (roomTerminal : ref)
    (settled : Outcome unit)
| SweepDone.

(** A call on the way to being awaited: made, and settled either way. *)
Definition settle {A} (c : M A) : M (Outcome A) :=
  fun st => let '(r, st') := c st in (Resolved r, st').

(** The loop over [entries], the entries from the iterator on, up to the
    first [await]. *)
Fixpoint visitRooms (t : Z) (index : nat) (entries : list (string * ref))
  : M Sweep :=
  match entries with
  | [] => ret SweepDone
  | (roomId_, r) :: rest =>
      roomTerminal <- gets (fun st => room (rooms st) r) ;;
      if isUnused t roomTerminal
      then
        settled <- settle (engine (CallStop (rt_container roomTerminal))
                             (containerStop (rt_container roomTerminal))) ;;
        ret (AwaitStop t index roomId_ r settled)
      else visitRooms t (S index) rest
  end.

Definition resumeLoop (t : Z) (index : nat) : M Sweep :=
  entries <- gets (fun st => roomTerminals st) ;;
  visitRooms t index (skipn index entries).

(** From the call of the method to its first [await]. *)
Definition cleanupUnusedRoomTerminals : M Sweep :=
  t <- now ;;
  resumeLoop t 0.

(** From one [await] to the next.  A call that was rejected takes the
    method to the [catch] of the room, which logs, and on to the next
    entry. *)
Definition resumeSweep (s : Sweep) : M Sweep :=
  match s with
  | AwaitStop t index roomId_ r (Resolved _) =>
      roomTerminal <- gets (fun st => room (rooms st) r) ;;
      settled <- settle (engine (CallRemove (rt_container roomTerminal))
                           (containerRemove (rt_container roomTerminal))) ;;
      ret (AwaitRemove t index roomId_ r settled)
  | AwaitRemove t index roomId_ r (Resolved _) =>
      modify (fun st =>
        set_roomTerminals (Js.delete (roomTerminals st) roomId_) st) ;;;
      resumeLoop t index
  | AwaitStop t index _ _ (Rejected _)
  | AwaitRemove t index _ _ (Rejected _) => resumeLoop t (S index)
  | SweepDone => ret SweepDone
  end.

(** The sweep when no event is handled while it is suspended: each
    segment is followed by the next one, [fuel] times at most; the result
    is where the method is then.  A room suspends the method twice at
    most, so twice the number of rooms is enough for it to return. *)
Fixpoint finishSweep (fuel : nat) (s : Sweep) : M Sweep :=
  match fuel, s with
  | _, SweepDone => ret SweepDone
  | O, _ => ret s
  | S fuel', _ => s' <- resumeSweep s ;; finishSweep fuel' s'
  end.

Definition sweepUninterrupted : M Sweep :=
  entries <- gets (fun st => roomTerminals st) ;;
  s <- cleanupUnusedRoomTerminals ;;
  finishSweep (2 * List.length entries) s.

(** The state after the [terminal-input] events [inputs], each a socket
    and what it sent, have been handled in turn. *)
Definition afterInputs (inputs : list (string * string)) (st : State W)
  : State W :=
  fold_left (fun s i => snd (onTerminalInput (fst i) (snd i) s)) inputs st.

End Service.

(** Between [st] and [st'] no session joined or left, and no session
    changed its start time or its room. *)
Definition sameMembership {W} (st st' : State W) : Prop :=
  userSessions st' = userSessions st
  /\ roomTerminals st' = roomTerminals st
  /\ (forall r,
        startTime (session (sessions st') r)
        = startTime (session (sessions st) r)
        /\ roomId (session (sessions st') r)
           = roomId (session (sessions st) r))
  /\ (forall r,
        activeSessions (room (rooms st') r)
        = activeSessions (room (rooms st) r)).

(** Every state a computation can end in has the membership it started
    with. *)
Definition keepsMembership {W A} (c : Async.M (State W) A) : Prop :=
  forall st res st', c st = (res, st') -> sameMembership st st'.

End Terminal.

(* ===================================================================== *)
(** ** A scripted runtime

    A small implementation of the runtime interfaces, used to run the
    services on concrete requests.  Its world is a clock that advances by
    one millisecond with every call, a list of containers that have stopped
    answering, a list of command fragments whose commands are rejected and
    a table of command fragments whose commands write to standard error
    and exit with status 1. *)
(* ===================================================================== *)

Module Scripted.
Import Docker.

Record World := {
  clock : Z;
  dead : list string;
  rejected : list string;
  stderr : list (string * string)
}.

Definition tick (w : World) : World :=
  {| clock := clock w + 1; dead := dead w; rejected := rejected w;
     stderr := stderr w |}.

Fixpoint contains (pat s : string) : bool :=
  String.prefix pat s
  || match s with
     | EmptyString => false
     | String _ r => contains pat r
     end.

Fixpoint stderrOf (table : list (string * string)) (command : string)
  : string :=
  match table with
  | [] => EmptyString
  | (pat, text) :: r =>
      if contains pat command then text else stderrOf r command
  end.

Fixpoint lastSegment (acc s : string) : string :=
  match s with
  | EmptyString => acc
  | String a r =>
      if Ascii.eqb a "/"%char then lastSegment EmptyString r
      else lastSegment (acc ++ String a EmptyString) r
  end.

Fixpoint dirSegments (s : string) : string :=
  match s with
  | EmptyString => EmptyString
  | String a r =>
      if contains "/" r then String a (dirSegments r) else EmptyString
  end.

#[export] Instance runtime : Runtime World := {|
  executeCommand := fun cid command w =>
    if (Js.set_has (dead w) cid
        || existsb (fun pat => contains pat command) (rejected w))%bool
    then (Rejected ("command failed: " ++ command), tick w)
    else (Resolved {| output := Some EmptyString;
                      error := Some (stderrOf (stderr w) command);
                      executionTime := 1;
                      exitCode :=
                        if Js.truthy (stderrOf (stderr w) command)
                        then 1 else 0 |}, tick w);
  createDynamicContainer := fun config w =>
    (Resolved ("container-" ++ Js.show (clock w)), tick w);
  destroyContainer := fun cid w => (Resolved tt, tick w);
  dateNow := fun w => (clock w, tick w);
  path_join := fun a b => a ++ "/" ++ b;
  path_dirname := dirSegments;
  path_basename := lastSegment EmptyString;
  showInherited := fun _ => "[object Object]"
|}.

#[export] Instance engine : Terminal.Engine World := {|
  Terminal.containerExec := fun c w =>
    (Resolved ("exec-" ++ Js.show (clock w)), tick w);
  Terminal.execStart := fun e w =>
    (Resolved ("stream-" ++ Js.show (clock w)), tick w);
  Terminal.streamWritable := fun s w => negb (Js.set_has (dead w) s);
  Terminal.streamWrite := fun s i w => (Resolved tt, tick w);
  Terminal.streamEnd := fun s w => (Resolved tt, tick w);
  Terminal.containerStop := fun c w =>
    if Js.set_has (dead w) c
    then (Rejected "container already stopped", tick w)
    else (Resolved tt, tick w);
  Terminal.containerRemove := fun c w => (Resolved tt, tick w);
  Terminal.newDate := fun w => (clock w, tick w);
  Terminal.uuidv4 := fun w => ("uuid-" ++ Js.show (clock w), tick w)
|}.

(** A world in which every command succeeds silently. *)
Definition quiet (t : Z) : World :=
  {| clock := t; dead := []; rejected := []; stderr := [] |}.

End Scripted.

(* ===================================================================== *)
(** ** Concrete runs on the scripted runtime *)
(* ===================================================================== *)

Module Scenario.
Import Docker SessionFree Scripted.

Definition request (u l code : string) (pkgs : option (list string))
  : SessionFreeExecutionRequest :=
  {| req_code := code; req_language := l; req_fileName := None;
     req_input := None; req_packages := pkgs; req_userId := Some u;
     req_timeout := None |}.

(** The state after [u] has run a program in each of [languages], in
    turn, on a fresh service. *)
Definition afterRuns (u : string) (languages : list string) (w : World)
  : State World :=
  fold_left (fun st l => snd (executeCode (request u l "1" None) st))
            languages (initial w).

(** One context. *)
Definition aliceOne : State World :=
  afterRuns "alice" ["python"] (quiet 1000).

(** A context in each of the five languages: the owner is at the cap. *)
Definition aliceFive : State World :=
  afterRuns "alice" ["python"; "javascript"; "go"; "cpp"; "java"]
            (quiet 1000).


(** A C++ context. *)
Definition carolCpp : State World :=
  afterRuns "carol" ["cpp"] (quiet 1000).

(** A world in which running a Python file writes a traceback to the
    standard error. *)
Definition raising : World :=
  {| clock := 1000; dead := []; rejected := [];
     stderr := [("python -u", "ZeroDivisionError: division by zero")] |}.

(** The command that runs the program of the first request in such a
    world. *)
Definition pythonRun : string :=
  "cd " ++ Js.dq ++ "/app/workspace/alice-python-1001" ++ Js.dq
    ++ " && python -u code_1008.py".

(** A world in which installing [nonexistent-pkg-xyz] fails. *)
Definition withoutPackage (st : State World) : State World :=
  {| world := {| clock := clock (world st); dead := dead (world st);
                 rejected := ["nonexistent-pkg-xyz"];
                 stderr := stderr (world st) |};
     persistentContexts := persistentContexts st;
     store := store st;
     calls := calls st |}.

(** Two rooms created at time 0: [room-a], which the socket [socket-1]
    of alice joins at time 1000, and [room-b], which nobody joins. *)
Definition twoRooms : Terminal.State World :=
  snd (Terminal.joinSession 0%nat "alice" "socket-1"
         {| Terminal.world := quiet 1000;
            Terminal.roomTerminals :=
              [("room-a", 0%nat); ("room-b", 1%nat)];
            Terminal.userSessions := [];
            Terminal.rooms :=
              [ {| Terminal.rt_roomId := "room-a";
                   Terminal.rt_containerId := "container-a";
                   Terminal.rt_container := "container-a";
                   Terminal.activeSessions := [];
                   Terminal.createdAt := 0;
                   Terminal.lastActivity := 0 |};
                {| Terminal.rt_roomId := "room-b";
                   Terminal.rt_containerId := "container-b";
                   Terminal.rt_container := "container-b";
                   Terminal.activeSessions := [];
                   Terminal.createdAt := 0;
                   Terminal.lastActivity := 0 |} ];
            Terminal.sessions := [];
            Terminal.calls := [];
            Terminal.emitted := [] |}).

(** The same service when the clock shows [t]. *)
Definition atTime (t : Z) (st : Terminal.State World)
  : Terminal.State World :=
  Terminal.set_world (quiet t) st.

(** Two hours and more after the rooms were last active. *)
Definition twoRoomsLater : Terminal.State World := atTime 10000000 twoRooms.

(** What alice types just before the sweep. *)
Definition typing : list (string * string) :=
  [("socket-1", "ls"); ("socket-1", "pwd"); ("socket-1", "make")].

(** A service in which the install command of [nonexistent-pkg-xyz]
    runs, writes to the standard error and exits with status 1. *)
Definition failingInstall (st : State World) : State World :=
  {| world := {| clock := clock (world st); dead := dead (world st);
                 rejected := rejected (world st);
                 stderr :=
                   [("nonexistent-pkg-xyz",
                     "ERROR: No matching distribution found")] |};
     persistentContexts := persistentContexts st;
     store := store st;
     calls := calls st |}.

(** The room sweep two hours on, suspended at its first [await]: it has
    passed [room-a], where alice is, and waits for the container of
    [room-b] to stop. *)
Definition sweepSuspended : Outcome Terminal.Sweep * Terminal.State World :=
  Terminal.cleanupUnusedRoomTerminals twoRoomsLater.

(** The [join-room-terminal] of bob for [room-b] arrives and is handled
    while the sweep is suspended there. *)
Definition bobJoined : Outcome Terminal.ref * Terminal.State World :=
  Terminal.joinSession 1%nat "bob" "socket-2" (snd sweepSuspended).

(** The whole of it: the sweep up to its first [await], the join of bob,
    and the sweep from there to its end. *)
Definition sweepWithJoin
  : Async.M (Terminal.State World) Terminal.Sweep :=
  Async.bind Terminal.cleanupUnusedRoomTerminals (fun s =>
  Async.bind (Terminal.joinSession 1%nat "bob" "socket-2") (fun _ =>
  Terminal.finishSweep 4 s)).

(** [socket-1], which is in [room-a], has joined [room-b] as well; two
    hours on. *)
Definition joinedTwice : Terminal.State World :=
  atTime 10000000
    (snd (Terminal.joinSession 1%nat "alice" "socket-1" twoRooms)).

End Scenario.

(* ===================================================================== *)
(** ** [config/dynamicLanguages.ts]: the exported queries *)
(* ===================================================================== *)

Module Languages.
Import Lang.

(** [config.active !== false] *)
Definition isActive (t : LanguageTier) : bool :=
  match active t with Some false => false | _ => true end.

(** [getLanguageConfig]: the name is lower-cased before the lookup.  An
    inherited member has no [active] field, so [config?.active !== false]
    holds of it and it is returned as found. *)
Definition getLanguageConfig (language : string) : Lookup :=
  let config := languageTiers (Js.toLowerCase language) in
  match config with
  | Own t => if isActive t then config else Undefined
  | Inherited => config
  | Undefined => Undefined
  end.

(** [Object.keys], [Object.entries] and [Object.values] enumerate the own
    properties only. *)
Definition getSupportedLanguages : list string :=
  Js.keys (filter (fun e => isActive (snd e)) ownTiers).

Definition getActiveLanguages : Js.map LanguageTier :=
  filter (fun e => isActive (snd e)) ownTiers.

Definition cost_eqb (a b : Cost) : bool :=
  match a, b with
  | low, low | medium, medium | high, high => true
  | _, _ => false
  end.

Definition getLanguagesByTier (c : Cost) : list LanguageTier :=
  filter (fun lang => cost_eqb (cost lang) c && isActive lang)
         (Js.values ownTiers).

End Languages.

(* ===================================================================== *)
(** ** [SessionFreeExecutionService]: the listing of an owner's contexts
       and the service as a sequence of operations *)
(* ===================================================================== *)

Module Registry.
Import Docker Async SessionFree.
Local Open Scope async_scope.

(** An element of the array [getUserContexts] resolves with. *)
Record ContextInfo := {
  info_contextId : string;
  info_language : string;
  info_lastUsed : Z;
  info_createdAt : Z;
  info_installedPackages : list string
}.

Definition infoOf (context : PersistentExecutionContext) : ContextInfo :=
  {| info_contextId := contextId context;
     info_language := language context;
     info_lastUsed := lastUsed context;
     info_createdAt := createdAt context;
     info_installedPackages := installedPackages context |}.

Section Service.
Context {W : Type} `{RT : Runtime W}.

(** [getUserContexts] *)
Definition getUserContexts (u : string) : M (W := W) (list ContextInfo) :=
  gets (fun st =>
    List.map infoOf
      (filter (fun context => String.eqb (userId context) u)
         (List.map (fun e => deref (store st) (snd e))
                   (persistentContexts st)))).

(** What a client, or the timer the constructor starts, asks of the
    service. *)
Inductive Operation :=
| Execute (request : SessionFreeExecutionRequest)
| Sweep
| Cleanup (u language_ : string)
| ListContexts (u : string).

(** One operation, run to its end before the next one starts. *)
Definition perform (op : Operation) (st : State W) : State W :=
  match op with
  | Execute request => snd (executeCode request st)
  | Sweep => snd (cleanupInactiveContexts st)
  | Cleanup u language_ => snd (cleanupContext u language_ st)
  | ListContexts u => snd (getUserContexts u st)
  end.

Definition afterOperations (ops : list Operation) (st : State W)
  : State W :=
  fold_left (fun s op => perform op s) ops st.

End Service.

(** The contexts the idle sweep removes at time [t]. *)
Definition expired (h : list PersistentExecutionContext) (t : Z)
    (e : string * ref) : bool :=
  CONTEXT_TIMEOUT <? t - lastUsed (deref h (snd e)).

(** How many containers the log asks to destroy. *)
Definition destructions (log : list Logged) : nat :=
  List.length (filter (fun c => isDestroy (fst c)) log).

(** What a context keeps from its creation on: everything but
    [lastUsed] and [installedPackages]. *)
Definition identity (c : PersistentExecutionContext)
  : string * string * string * string * string * Z :=
  (contextId c, containerId c, language c, workingDir c, userId c,
   createdAt c).

(** Between [st] and [st'] the registry did not change, no context was
    allocated and no context changed its identity. *)
Definition sameContexts {W} (st st' : State W) : Prop :=
  persistentContexts st' = persistentContexts st
  /\ List.length (store st') = List.length (store st)
  /\ forall r, identity (deref (store st') r) = identity (deref (store st) r).

Definition keepsContexts {W A} (c : Async.M (State W) A) : Prop :=
  forall st res st', c st = (res, st') -> sameContexts st st'.

(** Every entry of the registry sits under the key made of the owner and
    the language of its context, and that language is one the lookup
    [languageTiers] answers for. *)
Definition keyed {W} (st : State W) : Prop :=
  forall k r, In (k, r) (persistentContexts st) ->
    k = contextKey (userId (deref (store st) r))
                   (language (deref (store st) r))
    /\ Lang.falsy (Lang.languageTiers (language (deref (store st) r)))
       = false.

Definition sound {W} (st : State W) : Prop := invariant st /\ keyed st.

(** A computation that keeps [sound], however it ends. *)
Definition keepsSound {W A} (c : Async.M (State W) A) : Prop :=
  forall st res st', sound st -> c st = (res, st') -> sound st'.

Fixpoint hasColon (s : string) : bool :=
  match s with
  | EmptyString => false
  | String a r => (Ascii.eqb a ":"%char || hasColon r)%bool
  end.

End Registry.

(* ===================================================================== *)
(** ** Text cut into fields

    [s.split(/\s+/)], [s.trim()] and [s.split('\n')] over a list of
    characters, for the two readings of a string the services need: code
    units with the full white-space class, and ASCII characters. *)
(* ===================================================================== *)

Module Fields.

Section Text.
Context {A : Type} (isWs : A -> bool).

(** [s.split(/\s+/)]: a maximal run of white space separates two fields,
    so a string that starts or ends with white space has an empty first
    or last field.  [inSep] tells that the character before was white
    space. *)
Fixpoint splitFrom (inSep : bool) (s : list A) : list (list A) :=
  match s with
  | [] => [[]]
  | c :: r =>
      if isWs c
      then if inSep then splitFrom true r else [] :: splitFrom true r
      else match splitFrom false r with
           | h :: t => (c :: h) :: t
           | [] => [[c]]
           end
  end.

Definition splitWs (s : list A) : list (list A) := splitFrom false s.

Fixpoint trimStart (s : list A) : list A :=
  match s with
  | [] => []
  | c :: r => if isWs c then trimStart r else s
  end.

(** [s.trim()] *)
Definition trim (s : list A) : list A :=
  rev (trimStart (rev (trimStart s))).

(** [s.split(sep)] for a one-character separator. *)
Fixpoint splitAt (isSep : A -> bool) (s : list A) : list (list A) :=
  match s with
  | [] => [[]]
  | c :: r =>
      if isSep c then [] :: splitAt isSep r
      else match splitAt isSep r with
           | h :: t => (c :: h) :: t
           | [] => [[c]]
           end
  end.

(** [parts.join(sep)] *)
Fixpoint join (sep : list A) (parts : list (list A)) : list A :=
  match parts with
  | [] => []
  | [p] => p
  | p :: r => (p ++ sep ++ join sep r)%list
  end.

(** [s.startsWith(prefix)] *)
Fixpoint startsWith (eqb : A -> A -> bool) (prefix s : list A) : bool :=
  match prefix, s with
  | [], _ => true
  | _ :: _, [] => false
  | p :: ps, c :: r => eqb p c && startsWith eqb ps r
  end.

End Text.

(** The fields of an ASCII string. *)
Definition fieldsOf (s : string) : list string :=
  List.map string_of_list_ascii
    (splitWs Js.is_space (list_ascii_of_string s)).

End Fields.

(* ===================================================================== *)
(** ** [services/sessionFreeExecutionService.ts]:
       the rest of [EnhancedCodeExecutionService]

    [uuidv4] comes from a package that is not part of the sources at
    hand; the service is embedded over any generator of identifiers. *)
(* ===================================================================== *)

Module EnhancedService.
Import Docker Async.
Local Open Scope async_scope.

Class Uuid (W : Type) := {
  uuidv4 : W -> string * W
}.

Record CodeExecutionRequest := {
  req_code : string;
  req_language : string;
  req_fileName : option string;
  req_input : option string;
  req_packages : option (list string);
  req_workingDirectory : option string;
  req_timeout : option Z
}.

(** What [executeCode] resolves with: the fields of the result of
    [executeCodeInContainer], [executionTime] overwritten, and [files],
    which the failure envelope lacks. *)
Record Result := {
  output : option string;
  error : option string;
  executionTime : Z;
  exitCode : Z;
  files : option (list string)
}.

Record ExecutionContext := {
  containerId : string;
  language : string;
  workingDir : string;
  installedPackages : Js.set_t
}.

Definition ref := nat.

Definition noContext : ExecutionContext := {|
  containerId := EmptyString; language := EmptyString;
  workingDir := EmptyString; installedPackages := []
|}.

(** The context objects live in a store: [executionContexts] and the
    caller of [getOrCreateContext] hold the same object, which
    [installPackages] mutates in place. *)
Record State (W : Type) := {
  world : W;
  executionContexts : Js.map ref;
  store : list ExecutionContext;
  calls : list Logged
}.
Arguments world {W} _.
Arguments executionContexts {W} _.
Arguments store {W} _.
Arguments calls {W} _.

Definition deref (h : list ExecutionContext) (r : ref) : ExecutionContext :=
  nth r h noContext.

Definition add_installed (p : string) (c : ExecutionContext) :=
  {| containerId := containerId c; language := language c;
     workingDir := workingDir c;
     installedPackages := Js.set_add (installedPackages c) p |}.

(** [languageConfig.commonPackages] and [languageConfig?.fileExtension]
    read through a looked-up value. *)
Definition lk_commonPackages (l : Lang.Lookup) : option (list string) :=
  match l with Lang.Own t => Lang.commonPackages t | _ => None end.

Definition lk_fileExtension (l : Lang.Lookup) : option string :=
  match l with Lang.Own t => Some (Lang.fileExtension t) | _ => None end.

(** [new Set(items)] *)
Definition setOf (items : list string) : Js.set_t :=
  fold_left Js.set_add items [].

(** The file names in the output of [ls -la]: the ninth field of a line
    onwards, hidden entries left out. *)
Definition listedNames (o : string) : list string :=
  filter (fun name => Js.truthy name && negb (String.prefix "." name))
    (List.map (fun line =>
                 let parts := Fields.fieldsOf line in
                 if Nat.leb 9 (List.length parts)
                 then Js.join " " (skipn 8 parts)
                 else EmptyString)
       (filter (fun line => Js.truthy (Js.trim line)
                            && negb (String.prefix "total" line))
               (Js.split Js.newline_char o))).

Section Service.
Context {W : Type} `{RT : Runtime W} `{ID : Uuid W}.

Definition M (A : Type) : Type := Async.M (State W) A.

Definition record_call (c : Logged) (w : W) (st : State W) : State W :=
  {| world := w;
     executionContexts := executionContexts st;
     store := store st;
     calls := (calls st ++ [c])%list |}.

Definition dockerExecute (cid command : string) : M ExecResult :=
  fun st =>
    let '(r, w) := executeCommand cid command (world st) in
    (r, record_call (CallExecute cid command, isResolved r) w st).

Definition dockerCreate (config : ContainerConfig) : M string :=
  fun st =>
    let '(r, w) := createDynamicContainer config (world st) in
    (r, record_call (CallCreate config, isResolved r) w st).

Definition dockerDestroy (cid : string) : M unit :=
  fun st =>
    let '(r, w) := destroyContainer cid (world st) in
    (r, record_call (CallDestroy cid, isResolved r) w st).

Definition set_world (w : W) (st : State W) : State W :=
  {| world := w; executionContexts := executionContexts st;
     store := store st; calls := calls st |}.

Definition now : M Z :=
  fun st => let '(t, w) := dateNow (world st) in (Resolved t, set_world w st).

Definition newUuid : M string :=
  fun st => let '(u, w) := uuidv4 (world st) in (Resolved u, set_world w st).

(** A method embedded over the runtime calls alone, run in the full
    state. *)
Definition lift {A} (c : Async.M (Enhanced.State W) A) : M A :=
  fun st =>
    let '(r, s) := c {| Enhanced.world := world st;
                        Enhanced.calls := calls st |} in
    (r, {| world := Enhanced.world s;
           executionContexts := executionContexts st;
           store := store st;
           calls := Enhanced.calls s |}).

Definition read (r : ref) : M ExecutionContext :=
  gets (fun st => deref (store st) r).

Definition alloc (c : ExecutionContext) : M ref :=
  fun st =>
    (Resolved (List.length (store st)),
     {| world := world st;
        executionContexts := executionContexts st;
        store := (store st ++ [c])%list;
        calls := calls st |}).

Definition mutate (r : ref) (f : ExecutionContext -> ExecutionContext)
  : M unit :=
  modify (fun st =>
    {| world := world st;
       executionContexts := executionContexts st;
       store := SessionFree.update (store st) r f;
       calls := calls st |}).

Definition contextsSet (key : string) (r : ref) : M unit :=
  modify (fun st =>
    {| world := world st;
       executionContexts := Js.set (executionContexts st) key r;
       store := store st;
       calls := calls st |}).

Definition contextsDelete (key : string) : M unit :=
  modify (fun st =>
    {| world := world st;
       executionContexts := Js.delete (executionContexts st) key;
       store := store st;
       calls := calls st |}).

(** *** [getOrCreateContext] *)

Definition getOrCreateContext (language_ : string) : M ref :=
  contextId <- newUuid ;;
  let languageConfig := Lang.languageTiers language_ in
  if Lang.falsy languageConfig
  then throw ("Unsupported language: " ++ language_)
  else
    cid <- dockerCreate
             {| cfg_language := language_;
                cfg_isPersistent := true;
                cfg_roomId := None;
                cfg_customPackages := lk_commonPackages languageConfig |} ;;
    let workingDir_ := "/workspace" in
    dockerExecute cid ("mkdir -p " ++ workingDir_) ;;;
    dockerExecute cid ("cd " ++ workingDir_) ;;;
    r <- alloc {| containerId := cid;
                  language := language_;
                  workingDir := workingDir_;
                  installedPackages :=
                    setOf (match lk_commonPackages languageConfig with
                           | Some l => l
                           | None => []
                           end) |} ;;
    contextsSet contextId r ;;;
    ret r.

(** *** [installPackages] *)

Definition installLoop (context : ref) (cid : string)
    (template names : list string) : M unit :=
  forEach names (fun pkg =>
    tryCatch
      (dockerExecute cid (SessionFree.installCommand template pkg) ;;;
       mutate context (add_installed pkg))
      (fun _ => throw ("Failed to install package: " ++ pkg))).

Definition installPackages (context : ref) (packages : list string)
  : M unit :=
  c <- read context ;;
  let languageConfig := Lang.languageTiers (language c) in
  match Lang.lk_packageInstallCommand languageConfig with
  | None =>
      throw ("Package installation not supported for " ++ language c)
  | Some template =>
      let newPackages :=
        filter (fun pkg => negb (Js.set_has (installedPackages c) pkg))
               packages in
      match newPackages with
      | [] => ret tt
      | _ => installLoop context (containerId c) template newPackages
      end
  end.

(** *** [writeCodeToContainer], [generateFileName], [getCreatedFiles] *)

Definition writeCodeToContainer (cid filePath code : string) : M unit :=
  let escapedCode :=
    Js.replaceAll Js.sq_char
      (Js.sq ++ Js.dq ++ Js.sq ++ Js.dq ++ Js.sq) code in
  dockerExecute cid
    ("echo " ++ Js.sq ++ escapedCode ++ Js.sq ++ " > " ++ filePath) ;;;
  ret tt.

Definition generateFileName (language_ : string) : M string :=
  let extension :=
    Js.or_else (lk_fileExtension (Lang.languageTiers language_)) ".txt" in
  t <- now ;;
  ret ("code_" ++ Js.show t ++ extension).

(** Without an [output] the call of [split] throws, and the [catch]
    answers the empty list. *)
Definition getCreatedFiles (cid workingDir_ : string) : M (list string) :=
  tryCatch
    (result <- dockerExecute cid
       ("ls -la " ++ workingDir_ ++ " 2>/dev/null || echo "
          ++ Js.dq ++ Js.dq) ;;
     match Docker.output result with
     | Some o => ret (listedNames o)
     | None => ret []
     end)
    (fun _ => ret []).

(** The steps [executeCode] and [executeInteractiveCode] share once they
    hold a context and a file name. *)
Definition runFile (c : ExecutionContext) (language_ fileName code : string)
    (input : option string) (timeout : option Z) (startTime : Z)
  : M Result :=
  let fullPath := path_join (workingDir c) fileName in
  writeCodeToContainer (containerId c) fullPath code ;;;
  result <- lift (Enhanced.executeCodeInContainer
                    (containerId c) language_ fileName input timeout) ;;
  files_ <- getCreatedFiles (containerId c) (workingDir c) ;;
  tEnd <- now ;;
  ret {| output := Enhanced.res_output result;
         error := Enhanced.res_error result;
         executionTime := tEnd - startTime;
         exitCode := Enhanced.res_exitCode result;
         files := Some files_ |}.

(** *** [executeCode] *)

Definition executeCode (request : CodeExecutionRequest) : M Result :=
  startTime <- now ;;
  tryCatch
    (context <- getOrCreateContext (req_language request) ;;
     match req_packages request with
     | Some (p :: ps) => installPackages context (p :: ps)
     | _ => ret tt
     end ;;;
     fileName <-
       match req_fileName request with
       | Some f => if Js.truthy f then ret f
                   else generateFileName (req_language request)
       | None => generateFileName (req_language request)
       end ;;
     c <- read context ;;
     runFile c (req_language request) fileName (req_code request)
       (req_input request) (req_timeout request) startTime)
    (fun message =>
       tEnd <- now ;;
       ret {| output := Some EmptyString;
              error := Some ("Execution failed: " ++ message);
              executionTime := tEnd - startTime;
              exitCode := 1;
              files := None |}).

(** *** [executeInteractiveCode] *)

Definition executeInteractiveCode (contextId code language_ : string)
  : M Result :=
  found <- gets (fun st => Js.get (executionContexts st) contextId) ;;
  match found with
  | None => throw "Execution context not found"
  | Some context =>
      startTime <- now ;;
      tryCatch
        (fileName <- generateFileName language_ ;;
         c <- read context ;;
         runFile c language_ fileName code None None startTime)
        (fun message =>
           tEnd <- now ;;
           ret {| output := Some EmptyString;
                  error := Some ("Interactive execution failed: "
                                   ++ message);
                  executionTime := tEnd - startTime;
                  exitCode := 1;
                  files := None |})
  end.

(** *** [cleanupContext] *)

Definition cleanupContext (contextId : string) : M unit :=
  found <- gets (fun st => Js.get (executionContexts st) contextId) ;;
  match found with
  | Some context =>
      c <- read context ;;
      tryCatch (dockerDestroy (containerId c)) (fun _ => ret tt) ;;;
      contextsDelete contextId
  | None => ret tt
  end.

(** The state after the requests have been served in turn. *)
Definition afterRequests (requests : list CodeExecutionRequest)
    (st : State W) : State W :=
  fold_left (fun s request => snd (executeCode request s)) requests st.

End Service.

Definition initial {W} (w : W) : State W :=
  {| world := w; executionContexts := []; store := []; calls := [] |}.

(** A computation whose calls on the runtime neither create nor destroy
    a container. *)
Definition plainCalls {W A} (c : Async.M (State W) A) : Prop :=
  forall st res st',
    c st = (res, st') ->
    exists delta, calls st' = (calls st ++ delta)%list
                  /\ Forall plainCall delta.

(** A computation that always resolves and makes no call. *)
Definition silent {W A} (c : Async.M (State W) A) : Prop :=
  forall st res st',
    c st = (res, st') ->
    calls st' = calls st /\ exists a, res = Resolved a.

(** A computation that asks for exactly one container, for the language
    [l], before any other call, and destroys none. *)
Definition createsOne {W A} (l : string) (c : Async.M (State W) A) : Prop :=
  forall st res st',
    c st = (res, st') ->
    exists config ok delta,
      calls st' = (calls st ++ (CallCreate config, ok) :: delta)%list
      /\ cfg_language config = l
      /\ Forall plainCall delta.

End EnhancedService.

(* ===================================================================== *)
(** ** [services/sharedTerminalService.ts]: the file listing and the
       queries on the rooms *)
(* ===================================================================== *)

Module RoomQueries.
Import Docker Async Terminal.
Local Open Scope async_scope.

(** The class [\s], which is also what [trim] strips: the white space
    and the line terminators of the language. *)
Definition isWhite (c : N) : bool :=
  (((9 <=? c) && (c <=? 13)) || (c =? 32) || (c =? 160) || (c =? 5760)
   || ((8192 <=? c) && (c <=? 8202)) || (c =? 8232) || (c =? 8233)
   || (c =? 8239) || (c =? 8287) || (c =? 12288) || (c =? 65279))%N.

Definition space : jsstring := [32%N].

(** An element of the array [parseFileList] returns. *)
Record FileEntry := {
  permissions : jsstring;
  size : jsstring;
  date : jsstring;
  name : jsstring;
  isDirectory : bool
}.

(** The body of the loop of [parseFileList] for one line. *)
Definition parseLine (line : jsstring) : option FileEntry :=
  if Fields.startsWith N.eqb (of_ascii "total") line then None
  else
    let parts := Fields.splitWs isWhite line in
    if Nat.leb 9 (List.length parts)
    then Some {| permissions := nth 0 parts [];
                 size := nth 4 parts [];
                 date := (nth 5 parts [] ++ space ++ nth 6 parts []
                            ++ space ++ nth 7 parts [])%list;
                 name := Fields.join space (skipn 8 parts);
                 isDirectory :=
                   Fields.startsWith N.eqb (of_ascii "d") (nth 0 parts []) |}
    else None.

Definition nonBlank (line : jsstring) : bool :=
  match Fields.trim isWhite line with
  | [] => false
  | _ => true
  end.

Definition parseFileList (output : jsstring) : list FileEntry :=
  flat_map (fun line => match parseLine line with
                        | Some e => [e]
                        | None => []
                        end)
    (filter nonBlank (Fields.splitAt (N.eqb 10) output)).

(** What [getRoomTerminalInfo] returns for a room it knows. *)
Record RoomInfo := {
  info_roomId : string;
  info_containerId : string;
  info_activeSessions : nat;
  info_createdAt : Z;
  info_lastActivity : Z
}.

Definition getActiveRoomTerminals {W} (st : State W) : list string :=
  Js.keys (roomTerminals st).

Definition getRoomTerminalInfo {W} (roomId_ : string) (st : State W)
  : option RoomInfo :=
  match Js.get (roomTerminals st) roomId_ with
  | None => None
  | Some r =>
      let roomTerminal := room (rooms st) r in
      Some {| info_roomId := rt_roomId roomTerminal;
              info_containerId := rt_containerId roomTerminal;
              info_activeSessions := Js.size (activeSessions roomTerminal);
              info_createdAt := createdAt roomTerminal;
              info_lastActivity := lastActivity roomTerminal |}
  end.

(** A line of [ls -la] as a listing shows it: a first word and further
    words, each after a run of [S n] spaces. *)
Definition gap (n : nat) : jsstring := repeat 32%N (S n).

Definition spaced (w : jsstring) (rest : list (nat * jsstring)) : jsstring :=
  (w ++ List.concat
          (List.map (fun p => (gap (fst p) ++ snd p)%list) rest))%list.

(** A word: not empty, and free of white space. *)
Definition isWord (w : jsstring) : bool :=
  negb (Nat.eqb (List.length w) 0) && forallb (fun c => negb (isWhite c)) w.

(** A row of a listing: its first word and the further words, each with
    the number of extra spaces before it. *)
Record Row := {
  first : jsstring;
  others : list (nat * jsstring)
}.

(** Nine words or more, the first of which does not start with
    [total]. *)
Definition rowOk (r : Row) : bool :=
  isWord (first r)
  && forallb (fun p => isWord (snd p)) (others r)
  && Nat.leb 8 (List.length (others r))
  && negb (Fields.startsWith N.eqb (of_ascii "total") (first r)).

Definition rowText (r : Row) : jsstring := spaced (first r) (others r).

(** The entry a row stands for. *)
Definition entryOf (r : Row) : FileEntry :=
  let words := first r :: List.map snd (others r) in
  {| permissions := nth 0 words [];
     size := nth 4 words [];
     date := (nth 5 words [] ++ space ++ nth 6 words []
                ++ space ++ nth 7 words [])%list;
     name := Fields.join space (skipn 8 words);
     isDirectory := Fields.startsWith N.eqb (of_ascii "d") (first r) |}.

(** A line of a listing: a row, or a line to be skipped. *)
Inductive Line :=
| Entry (r : Row)
| Skipped (text : jsstring).

Definition lineText (l : Line) : jsstring :=
  match l with
  | Entry r => rowText r
  | Skipped text => text
  end.

(** A skipped line holds no line break and is blank or starts with
    [total]. *)
Definition lineOk (l : Line) : bool :=
  match l with
  | Entry r => rowOk r
  | Skipped text =>
      forallb (fun c => negb (N.eqb 10 c)) text
      && (negb (nonBlank text)
          || Fields.startsWith N.eqb (of_ascii "total") text)
  end.

Definition entriesOf (lines : list Line) : list FileEntry :=
  flat_map (fun l => match l with
                     | Entry r => [entryOf r]
                     | Skipped _ => []
                     end) lines.

(** Whether an engine call stops or removes a container. *)
Definition destroys (c : EngineCall) : bool :=
  match c with
  | CallStop _ | CallRemove _ => true
  | _ => false
  end.

End RoomQueries.

(* ===================================================================== *)
(** ** Further concrete runs on the scripted runtime *)
(* ===================================================================== *)

Module Cases.
Import Docker Scripted Scenario.

(** Identifiers made from the clock. *)
#[export] Instance uuid : EnhancedService.Uuid World := {|
  EnhancedService.uuidv4 := fun w => ("uuid-" ++ Js.show (clock w), tick w)
|}.

(** The runs of [u] in [languages], as operations. *)
Definition runsOf (u : string) (languages : list string)
  : list Registry.Operation :=
  List.map (fun l => Registry.Execute (request u l "1" None)) languages.

Definition fiveLanguages : list string :=
  ["python"; "javascript"; "go"; "cpp"; "java"].

(** The same service when the clock shows [t]. *)
Definition atClock (t : Z) (st : SessionFree.State World)
  : SessionFree.State World :=
  {| SessionFree.world :=
       {| clock := t; dead := dead (SessionFree.world st);
          rejected := rejected (SessionFree.world st);
          stderr := stderr (SessionFree.world st) |};
     SessionFree.persistentContexts := SessionFree.persistentContexts st;
     SessionFree.store := SessionFree.store st;
     SessionFree.calls := SessionFree.calls st |}.

(** The same service once the container [cid] has stopped answering. *)
Definition withDead (cid : string) (st : SessionFree.State World)
  : SessionFree.State World :=
  {| SessionFree.world :=
       {| clock := clock (SessionFree.world st); dead := [cid];
          rejected := rejected (SessionFree.world st);
          stderr := stderr (SessionFree.world st) |};
     SessionFree.persistentContexts := SessionFree.persistentContexts st;
     SessionFree.store := SessionFree.store st;
     SessionFree.calls := SessionFree.calls st |}.

(** alice runs Python at time 1000 and JavaScript some 33 minutes later;
    the sweep comes 8 minutes after that. *)
Definition aliceTwo : SessionFree.State World :=
  atClock 2500000
    (snd (SessionFree.executeCode (request "alice" "javascript" "1" None)
            (atClock 2000000 aliceOne))).

(** An owner whose name holds a colon. *)
Definition bobX : SessionFree.State World :=
  afterRuns "bob:x" ["python"] (quiet 1000).

(** What the scripted runtime answers to a command that succeeds
    silently. *)
Definition silence : ExecResult :=
  {| output := Some EmptyString; error := Some EmptyString;
     executionTime := 1; exitCode := 0 |}.

Definition enhancedRequest (l code : string)
  : EnhancedService.CodeExecutionRequest :=
  {| EnhancedService.req_code := code;
     EnhancedService.req_language := l;
     EnhancedService.req_fileName := None;
     EnhancedService.req_input := None;
     EnhancedService.req_packages := None;
     EnhancedService.req_workingDirectory := None;
     EnhancedService.req_timeout := None |}.

(** The two rooms of [twoRooms] before anybody joined. *)
Definition emptyRooms : Terminal.State World :=
  {| Terminal.world := quiet 1000;
     Terminal.roomTerminals := [("room-a", 0%nat); ("room-b", 1%nat)];
     Terminal.userSessions := [];
     Terminal.rooms :=
       [ {| Terminal.rt_roomId := "room-a";
            Terminal.rt_containerId := "container-a";
            Terminal.rt_container := "container-a";
            Terminal.activeSessions := [];
            Terminal.createdAt := 0;
            Terminal.lastActivity := 0 |};
         {| Terminal.rt_roomId := "room-b";
            Terminal.rt_containerId := "container-b";
            Terminal.rt_container := "container-b";
            Terminal.activeSessions := [];
            Terminal.createdAt := 0;
            Terminal.lastActivity := 0 |} ];
     Terminal.sessions := [];
     Terminal.calls := [];
     Terminal.emitted := [] |}.

(** [twoRooms] after alice has typed a first command. *)
Definition aliceTyped : Terminal.State World :=
  Terminal.afterInputs [("socket-1", "ls")] twoRooms.

(** A listing of a directory with a sub-directory and a file whose name
    holds a space, as [ls -la] prints it. *)
Definition word (s : string) : Terminal.jsstring := Terminal.of_ascii s.

Definition sampleListing : list RoomQueries.Line :=
  [ RoomQueries.Skipped (word "total 8");
    RoomQueries.Entry
      {| RoomQueries.first := word "drwxr-xr-x";
         RoomQueries.others :=
           [ (1%nat, word "2"); (0%nat, word "root"); (0%nat, word "root");
             (0%nat, word "4096"); (0%nat, word "Jan"); (1%nat, word "1");
             (0%nat, word "00:00"); (0%nat, word "src") ] |};
    RoomQueries.Entry
      {| RoomQueries.first := word "-rw-r--r--";
         RoomQueries.others :=
           [ (1%nat, word "1"); (0%nat, word "root"); (0%nat, word "root");
             (2%nat, word "12"); (0%nat, word "Jan"); (1%nat, word "1");
             (0%nat, word "00:00"); (0%nat, word "my");
             (0%nat, word "file.txt") ] |};
    RoomQueries.Skipped [] ].

End Cases.

(* ===================================================================== *)
(** * Properties *)
(* ===================================================================== *)

(** ** The helpers on small inputs *)

Section HelperExamples.

Example join_words : Js.join " " ["pip"; "install"; "numpy"] = "pip install numpy".
Proof. reflexivity. Qed.

Example join_nothing : Js.join " " [] = EmptyString.
Proof. reflexivity. Qed.

Example split_lines :
  Js.split Js.newline_char
    ("a.py" ++ String Js.newline_char EmptyString ++ "b.py"
       ++ String Js.newline_char EmptyString)
  = ["a.py"; "b.py"; EmptyString].
Proof. reflexivity. Qed.

Example trim_spaces : Js.trim "  out.txt " = "out.txt".
Proof. reflexivity. Qed.

Example java_command :
  Lang.executeCommand Lang.java "Main.java"
  = ["sh"; "-c"; "javac Main.java && java Main"].
Proof. reflexivity. Qed.

Example lookup_is_case_sensitive :
  Lang.languageTiers "python" = Lang.Own Lang.python
  /\ Lang.languageTiers "Python" = Lang.Undefined
  /\ Lang.languageTiers "constructor" = Lang.Inherited.
Proof. repeat split. Qed.

Example install_command_python :
  SessionFree.installCommand ["pip"; "install"; "--no-cache-dir"] "numpy"
  = "pip install --no-cache-dir numpy".
Proof. reflexivity. Qed.

Example install_command_cpp : SessionFree.installCommand [] "boost" = "boost".
Proof. reflexivity. Qed.

Example set_add_twice :
  Js.set_add (Js.set_add [] "numpy") "numpy" = ["numpy"].
Proof. reflexivity. Qed.

Example map_set_keeps_position :
  Js.set [("a", 1); ("b", 2)] "a" 3 = [("a", 3); ("b", 2)]
  /\ Js.set [("a", 1); ("b", 2)] "c" 3 = [("a", 1); ("b", 2); ("c", 3)].
Proof. split; reflexivity. Qed.

End HelperExamples.

(** ** Output sanitizing *)

Section SanitizeOutput.
Import Terminal.

Lemma skipn_suffix (p rest : jsstring) :
  skipn (List.length (p ++ rest) - List.length rest) (p ++ rest) = rest.
Proof.
  rewrite length_app.
  replace (List.length p + List.length rest - List.length rest)%nat
    with (List.length p) by lia.
  rewrite skipn_app, skipn_all, Nat.sub_diag. reflexivity.
Qed.

Lemma skipParams_suffix (s : jsstring) :
  exists p, s = (p ++ skipParams s)%list.
Proof.
  induction s as [|c r [p IH]].
  - now exists [].
  - cbn [skipParams]. destruct (isParam c).
    + exists (c :: p). cbn [app]. now rewrite <- IH.
    + now exists [].
Qed.

Lemma matchAnsi_suffix (s rest : jsstring) :
  matchAnsi s = Some rest ->
  exists p, s = (27 :: 91 :: p ++ 109 :: rest)%N%list.
Proof.
  unfold matchAnsi.
  destruct s as [|c r]; try discriminate.
  destruct (N.eq_dec c 27) as [->|Hc].
  2:{ destruct c as [|q]; try discriminate.
      do 5 (destruct q as [q|q|]; try discriminate). congruence. }
  destruct r as [|d r0]; try discriminate.
  destruct (N.eq_dec d 91) as [->|Hd].
  2:{ destruct d as [|q]; try discriminate.
      do 7 (destruct q as [q|q|]; try discriminate). congruence. }
  destruct (skipParams_suffix r0) as [p Hp].
  destruct (skipParams r0) as [|m rest'] eqn:E; try discriminate.
  destruct (N.eq_dec m 109) as [->|Hm].
  2:{ destruct m as [|q]; try discriminate.
      do 7 (destruct q as [q|q|]; try discriminate). congruence. }
  intros [= <-]. exists p. now rewrite Hp at 1.
Qed.

Lemma stripAnsiFrom_skipn (k : nat) (s : jsstring) :
  (k <= List.length s)%nat ->
  stripAnsiFrom k s = stripAnsi (skipn k s).
Proof.
  revert k. induction s as [|c r IH]; intros k Hk.
  - destruct k; reflexivity.
  - destruct k as [|k]; [reflexivity|].
    simpl in *. apply IH. lia.
Qed.

(** The scan is the global replace: at each position, drop a match and
    go on after it, or keep the code unit and move one to the right. *)
Lemma stripAnsi_step (s : jsstring) :
  stripAnsi s =
  match matchAnsi s with
  | Some rest => stripAnsi rest
  | None => match s with
            | [] => []
            | c :: r => c :: stripAnsi r
            end
  end.
Proof.
  destruct s as [|c r]; [reflexivity|].
  unfold stripAnsi at 1. cbn [stripAnsiFrom].
  destruct (matchAnsi (c :: r)) as [rest|] eqn:E; [|reflexivity].
  destruct (matchAnsi_suffix _ _ E) as [p Hp].
  injection Hp as -> ->.
  assert (Hq : (91%N :: p ++ 109%N :: rest
                = (91%N :: p ++ [109%N]) ++ rest)%list)
    by (cbn [app]; now rewrite <- app_assoc).
  rewrite Hq.
  rewrite stripAnsiFrom_skipn by (rewrite !length_app; lia).
  now rewrite skipn_suffix.
Qed.

Lemma In_firstn {A} (n : nat) (l : list A) (x : A) :
  In x (firstn n l) -> In x l.
Proof.
  intros H. rewrite <- (firstn_skipn n l). apply in_or_app. now left.
Qed.

Lemma stripControl_clean (s : jsstring) (c : N) :
  In c (stripControl s) -> isStrippedControl c = false.
Proof.
  unfold stripControl. intros H. apply filter_In in H.
  destruct H as [_ H]. now apply negb_true_iff in H.
Qed.

Lemma control_not_stripped_is_kept (c : N) :
  isStrippedControl c = false -> isControl c = true ->
  isKeptControl c = true.
Proof.
  unfold isStrippedControl, isControl, isKeptControl. intros Hs Hc.
  repeat (apply orb_false_iff in Hs; destruct Hs as [Hs ?]).
  apply orb_true_iff in Hc.
  repeat match goal with
         | H : (_ <=? _)%N = false |- _ => apply N.leb_gt in H
         | H : (_ =? _)%N = false |- _ => apply N.eqb_neq in H
         | H : (_ && _)%bool = false |- _ => apply andb_false_iff in H
         end.
  destruct Hc as [Hc|Hc];
    [apply N.ltb_lt in Hc | apply N.eqb_eq in Hc; lia].
  destruct (N.eq_dec c 10) as [->|]; [reflexivity|].
  destruct (N.eq_dec c 9) as [->|]; [reflexivity|].
  destruct (N.eq_dec c 13) as [->|]; [reflexivity|].
  exfalso.
  match goal with
  | H : _ \/ _ |- _ =>
      destruct H as [H|H]; [apply N.leb_gt in H | apply N.leb_gt in H]; lia
  end.
Qed.

Lemma truncationMarker_clean (c : N) :
  In c truncationMarker -> isStrippedControl c = false.
Proof.
  intros H. vm_compute in H.
  repeat (destruct H as [<-|H]; [reflexivity|]). contradiction.
Qed.

(** C8.  Whatever the raw chunk, the sanitized output holds no ASCII
    control character (a code unit below 32, among them the escape
    character, or 127) other than newline, tab and carriage return; it is
    never longer than [MAX_OUTPUT_SIZE] = 50000 code units plus the length
    of the truncation marker; and it is the first 50000 code units of the
    cleaned text followed by the marker when the cleaned text is longer
    than 50000, and the cleaned text itself, without a marker,
    otherwise. *)
Theorem sanitizeOutput_clean_and_capped (chunk : jsstring) :
  let cleaned := stripControl (stripAnsi chunk) in
  let out := sanitizeOutput chunk in
  Forall (fun c => isControl c = true -> isKeptControl c = true) out
  /\ Z.of_nat (List.length out)
       <= 50000 + Z.of_nat (List.length truncationMarker)
  /\ out = (if 50000 <? Z.of_nat (List.length cleaned)
            then firstn (Z.to_nat 50000) cleaned ++ truncationMarker
            else cleaned)%list.
Proof.
  intros cleaned out. subst out. unfold sanitizeOutput.
  fold cleaned. unfold MAX_OUTPUT_SIZE.
  split; [|split; [|reflexivity]].
  - apply Forall_forall. intros c Hin.
    apply control_not_stripped_is_kept.
    destruct (50000 <? Z.of_nat (List.length cleaned)).
    + apply in_app_or in Hin. destruct Hin as [Hin|Hin].
      * apply (stripControl_clean (stripAnsi chunk)).
        eapply In_firstn; eauto.
      * now apply truncationMarker_clean.
    + now apply (stripControl_clean (stripAnsi chunk)).
  - destruct (50000 <? Z.of_nat (List.length cleaned)) eqn:E.
    + rewrite length_app.
      pose proof (firstn_le_length (Z.to_nat 50000) cleaned). lia.
    + apply Z.ltb_ge in E. lia.
Qed.

(** [sanitizeOutput] on a coloured prompt with a bell: the colour
  sequences and the bell go, the line break stays. *)
Example sanitizeOutput_prompt :
sanitizeOutput ([27; 91; 51; 50; 109]%N ++ of_ascii "ok"
                  ++ [27; 91; 48; 109; 7; 10]%N)%list
= (of_ascii "ok" ++ [10%N])%list.
Proof. vm_compute. reflexivity. Qed.

End SanitizeOutput.

(** ** Facts about [Map] *)

Section MapFacts.
Context {V : Type}.
Implicit Types (m : Js.map V) (k : string) (v : V).

Lemma get_set_same m k v : Js.get (Js.set m k v) k = Some v.
Proof.
  induction m as [|[k' v'] r IH]; simpl.
  - now rewrite String.eqb_refl.
  - destruct (String.eqb k' k) eqn:E; simpl.
    + now rewrite String.eqb_refl.
    + now rewrite E.
Qed.

Lemma set_absent m k v :
  Js.get m k = None -> Js.set m k v = (m ++ [(k, v)])%list.
Proof.
  induction m as [|[k' v'] r IH]; simpl; [reflexivity|].
  destruct (String.eqb k' k); [discriminate|].
  intros H. now rewrite IH.
Qed.

Lemma get_delete_same m k : Js.get (Js.delete m k) k = None.
Proof.
  induction m as [|[k' v'] r IH]; simpl; [reflexivity|].
  destruct (String.eqb k' k) eqn:E; simpl; [exact IH|].
  now rewrite E.
Qed.

Lemma get_delete_other m k k' :
  k' <> k -> Js.get (Js.delete m k) k' = Js.get m k'.
Proof.
  intros Hne. induction m as [|[k0 v0] r IH]; simpl; [reflexivity|].
  destruct (String.eqb k0 k) eqn:E; simpl.
  - apply String.eqb_eq in E. subst k0.
    destruct (String.eqb k k') eqn:E'; [|exact IH].
    apply String.eqb_eq in E'. congruence.
  - now rewrite IH.
Qed.

Lemma get_In m k v : Js.get m k = Some v -> In (k, v) m.
Proof.
  induction m as [|[k' v'] r IH]; simpl; [discriminate|].
  destruct (String.eqb k' k) eqn:E.
  - apply String.eqb_eq in E. intros [= ->]. left. now subst.
  - intros H. right. now apply IH.
Qed.

Lemma get_None_not_In m k v : Js.get m k = None -> ~ In (k, v) m.
Proof.
  induction m as [|[k' v'] r IH]; simpl; [tauto|].
  destruct (String.eqb k' k) eqn:E; [discriminate|].
  intros H [[= -> ->]|Hin].
  - now rewrite String.eqb_refl in E.
  - now apply IH.
Qed.

Lemma In_unique_get m k v :
  Js.uniqueKeys m = true -> In (k, v) m -> Js.get m k = Some v.
Proof.
  induction m as [|[k' v'] r IH]; simpl; [tauto|].
  intros Hu [[= -> ->]|Hin].
  - now rewrite String.eqb_refl.
  - apply andb_true_iff in Hu. destruct Hu as [Hh Hu].
    destruct (String.eqb k' k) eqn:E.
    + apply String.eqb_eq in E. subst k'.
      unfold Js.has in Hh. rewrite (IH Hu Hin) in Hh. discriminate.
    + now apply IH.
Qed.

Lemma delete_absent m k : Js.get m k = None -> Js.delete m k = m.
Proof.
  induction m as [|[k' v'] r IH]; simpl; [reflexivity|].
  destruct (String.eqb k' k); [discriminate|].
  intros H. now rewrite IH.
Qed.

(** Deleting the key of an entry of a well-formed map removes that one
    entry and nothing else. *)
Lemma delete_splits m k v :
  Js.uniqueKeys m = true -> In (k, v) m ->
  exists front back,
    m = (front ++ (k, v) :: back)%list
    /\ Js.delete m k = (front ++ back)%list.
Proof.
  induction m as [|[k' v'] r IH]; simpl; [tauto|].
  intros Hu Hin. apply andb_true_iff in Hu. destruct Hu as [Hh Hu].
  destruct (String.eqb k' k) eqn:E.
  - apply String.eqb_eq in E. subst k'.
    assert (Hnone : Js.get r k = None).
    { unfold Js.has in Hh. now destruct (Js.get r k). }
    destruct Hin as [[= ->]|Hin].
    + exists [], r. split; [reflexivity|]. now apply delete_absent.
    + now apply get_None_not_In in Hin.
  - destruct Hin as [[= -> ->]|Hin].
    + now rewrite String.eqb_refl in E.
    + destruct (IH Hu Hin) as (front & back & -> & Hd).
      exists ((k', v') :: front), back. split; [reflexivity|].
      simpl. now rewrite Hd.
Qed.

Lemma uniqueKeys_delete m k :
  Js.uniqueKeys m = true -> Js.uniqueKeys (Js.delete m k) = true.
Proof.
  induction m as [|[k' v'] r IH]; simpl; [reflexivity|].
  intros Hu. apply andb_true_iff in Hu. destruct Hu as [Hh Hu].
  destruct (String.eqb k' k) eqn:E; [now apply IH|].
  simpl. rewrite IH by assumption. rewrite andb_true_r.
  unfold Js.has in *. rewrite get_delete_other; [exact Hh|].
  intros ->. now rewrite String.eqb_refl in E.
Qed.

Lemma uniqueKeys_app_fresh m k v :
  Js.uniqueKeys m = true -> Js.get m k = None ->
  Js.uniqueKeys (m ++ [(k, v)])%list = true.
Proof.
  induction m as [|[k' v'] r IH]; simpl; [reflexivity|].
  intros Hu Hg. apply andb_true_iff in Hu. destruct Hu as [Hh Hu].
  destruct (String.eqb k' k) eqn:E; [discriminate|].
  rewrite IH by assumption. rewrite andb_true_r.
  unfold Js.has in *.
  assert (Hget : Js.get (r ++ [(k, v)])%list k' = Js.get r k').
  { clear -E. induction r as [|[k0 v0] r IH]; simpl.
    - rewrite String.eqb_sym. now rewrite E.
    - now rewrite IH. }
  now rewrite Hget.
Qed.

Lemma get_set_other m k (k' : string) v :
  k' <> k -> Js.get (Js.set m k v) k' = Js.get m k'.
Proof.
  intros Hne. induction m as [|[k0 v0] r IH]; cbn [Js.set Js.get].
  - destruct (String.eqb k k') eqn:E; [|reflexivity].
    apply String.eqb_eq in E. congruence.
  - destruct (String.eqb k0 k) eqn:E; cbn [Js.get].
    + apply String.eqb_eq in E. subst k0.
      destruct (String.eqb k k') eqn:E'; [|reflexivity].
      apply String.eqb_eq in E'. congruence.
    + now rewrite IH.
Qed.

Lemma uniqueKeys_set m k v :
  Js.uniqueKeys m = true -> Js.uniqueKeys (Js.set m k v) = true.
Proof.
  induction m as [|[k0 v0] r IH]; cbn [Js.set Js.uniqueKeys];
    [reflexivity|].
  intros H. apply andb_true_iff in H. destruct H as [Hh Hu].
  destruct (String.eqb k0 k) eqn:E; cbn [Js.uniqueKeys].
  - apply String.eqb_eq in E. subst k0. now rewrite Hh, Hu.
  - rewrite IH by exact Hu. rewrite andb_true_r.
    unfold Js.has in *. rewrite get_set_other; [exact Hh|].
    intros ->. now rewrite String.eqb_refl in E.
Qed.

End MapFacts.

(** ** The order in which [enforceUserContextLimit] evicts *)

Section SortFacts.
Import SessionFree.
Variable h : list PersistentExecutionContext.
Lemma insertByLastUsed_perm e l :
  Permutation (e :: l) (insertByLastUsed h e l).
Proof.
  induction l as [|e' r IH]; simpl; [apply Permutation_refl|].
  destruct (lastUsed (deref h (snd e)) <=? lastUsed (deref h (snd e'))).
  - apply Permutation_refl.
  - eapply perm_trans; [apply perm_swap|]. now apply perm_skip.
Qed.

Lemma sortByLastUsed_perm l : Permutation l (sortByLastUsed h l).
Proof.
  induction l as [|e r IH]; simpl; [constructor|].
  eapply perm_trans; [|apply insertByLastUsed_perm]. now apply perm_skip.
Qed.

Lemma insertByLastUsed_sorted e l :
  StronglySorted (olderEq h) l ->
  StronglySorted (olderEq h) (insertByLastUsed h e l).
Proof.
  induction 1 as [|e' r Hs IH Hall]; simpl.
  - constructor; constructor.
  - destruct (lastUsed (deref h (snd e)) <=? lastUsed (deref h (snd e')))
      eqn:E.
    + apply Z.leb_le in E. constructor.
      * now constructor.
      * constructor; [exact E|].
        eapply Forall_impl; [|exact Hall].
        intros x Hx. unfold olderEq in *. lia.
    + apply Z.leb_gt in E. constructor; [exact IH|].
      eapply Permutation_Forall; [apply insertByLastUsed_perm|].
      constructor; [unfold olderEq; lia | exact Hall].
Qed.

Lemma sortByLastUsed_sorted l :
  StronglySorted (olderEq h) (sortByLastUsed h l).
Proof.
  induction l as [|e r IH]; simpl; [constructor|].
  now apply insertByLastUsed_sorted.
Qed.

(** The entry at the head of the sorted list is an entry of the list
    with the smallest [lastUsed]. *)
Lemma sortByLastUsed_head l e rest :
  sortByLastUsed h l = e :: rest ->
  In e l /\ Forall (olderEq h e) l /\ List.length l = S (List.length rest).
Proof.
  intros Hs.
  pose proof (sortByLastUsed_perm l) as Hp.
  pose proof (sortByLastUsed_sorted l) as Hsorted.
  rewrite Hs in Hp, Hsorted.
  split; [|split].
  - eapply Permutation_in; [apply Permutation_sym, Hp | now left].
  - eapply Permutation_Forall; [apply Permutation_sym, Hp|].
    inversion Hsorted; subst.
    constructor; [unfold olderEq; lia | assumption].
  - now apply Permutation_length in Hp.
Qed.

End SortFacts.

(** ** The persistent-context registry *)

Section RegistryFacts.
Import Docker Async SessionFree.
Context {W : Type} `{RT : Runtime W}.
Local Open Scope async_scope.

Ltac unfold_m :=
  unfold read, contextsGet, contextsSet, contextsDelete, mutate, alloc,
    now, dockerExecute, dockerCreate, dockerDestroy;
  unfold bind, ret, throw, tryCatch, gets, modify, record_call;
  cbn beta iota; cbn [world persistentContexts store calls].

Lemma setup_step (cid c : string) (st : State W) :
  exists ok w,
    tryCatch (dockerExecute cid c ;;; ret tt) (fun _ => ret tt) st
    = (Resolved tt, record_call (CallExecute cid c, ok) w st).
Proof.
  unfold_m.
  destruct (executeCommand cid c (world st)) as [[res|e] w];
    eexists _, w; reflexivity.
Qed.

Lemma setup_loop_frame (cid : string) (cmds : list string) (st : State W) :
  exists st',
    forEach cmds (fun command =>
      tryCatch (dockerExecute cid command ;;; ret tt)
               (fun _ => ret tt)) st = (Resolved tt, st')
    /\ persistentContexts st' = persistentContexts st
    /\ store st' = store st
    /\ exists delta, calls st' = (calls st ++ delta)%list
                     /\ Forall plainCall delta.
Proof.
  revert st. induction cmds as [|c cs IH]; intros st; cbn [forEach].
  - exists st. repeat split; try reflexivity.
    exists []. now rewrite app_nil_r.
  - destruct (setup_step cid c st) as (ok & w & Hstep).
    unfold bind at 1. rewrite Hstep.
    destruct (IH (record_call (CallExecute cid c, ok) w st))
      as (st' & Hrun & Hreg & Hstore & delta & Hc & Hd).
    exists st'. split; [exact Hrun|].
    cbn in Hreg, Hstore, Hc.
    repeat split; try assumption.
    exists ((CallExecute cid c, ok) :: delta).
    rewrite Hc, <- app_assoc. split; [reflexivity|].
    constructor; [now split | assumption].
Qed.

Lemma runSetupCommands_frame (cid : string) (l : Lang.Lookup)
    (st : State W) :
  exists st',
    runSetupCommands cid l st = (Resolved tt, st')
    /\ persistentContexts st' = persistentContexts st
    /\ store st' = store st
    /\ exists delta, calls st' = (calls st ++ delta)%list
                     /\ Forall plainCall delta.
Proof.
  unfold runSetupCommands.
  destruct (Lang.lk_setupCommands l) as [[|c cs]|].
  2: apply setup_loop_frame.
  all: exists st; repeat split; try reflexivity;
    exists []; now rewrite app_nil_r.
Qed.

(** What the creation stage does once the language is known. *)
Lemma newPersistentContext_spec (u l : string) (st : State W)
    (res : Outcome ref) (st' : State W) :
  Lang.falsy (Lang.languageTiers l) = false ->
  newPersistentContext u l st = (res, st') ->
  exists config ok delta,
    calls st' = (calls st ++ (CallCreate config, ok) :: delta)%list
    /\ Forall plainCall delta
    /\ match res with
       | Rejected _ =>
           ok = false
           /\ persistentContexts st' = persistentContexts st
           /\ store st' = store st
       | Resolved r =>
           ok = true
           /\ r = List.length (store st)
           /\ persistentContexts st'
              = Js.set (persistentContexts st) (contextKey u l) r
           /\ exists c, store st' = (store st ++ [c])%list
                        /\ userId c = u /\ language c = l
                        /\ installedPackages c = []
       end.
Proof.
  intros Hl. unfold newPersistentContext. rewrite Hl. unfold_m.
  destruct (dateNow (world st)) as [t w1].
  cbn [world persistentContexts store calls].
  match goal with
  | |- context [createDynamicContainer ?cfg w1] =>
      destruct (createDynamicContainer cfg w1) as [[cid|e] w2] eqn:E;
      set (config := cfg) in *
  end.
  - match goal with
    | |- context [runSetupCommands cid ?lk ?s] =>
        destruct (runSetupCommands_frame cid lk s)
          as (st1 & Hrun & Hreg & Hstore & delta & Hc & Hd);
        rewrite Hrun
    end.
    cbn in Hreg, Hstore, Hc.
    destruct (dateNow (world st1)) as [t1 w3].
    cbn. destruct (dateNow w3) as [t2 w4]. cbn.
    intros [= <- <-]. cbn.
    exists config, true, delta. rewrite Hc, Hreg, Hstore, <- app_assoc.
    repeat split; try assumption.
    eexists. repeat split.
  - cbn. intros [= <- <-]. cbn.
    exists config, false, []. repeat split. constructor.
Qed.

(** At the cap, the quota evicts the head of the sorted list and stops. *)
Lemma enforce_at_limit (u : string) (st : State W) :
  List.length (owned st u) = MAX_CONTEXTS_PER_USER ->
  exists key r rest,
    sortByLastUsed (store st) (owned st u) = (key, r) :: rest
    /\ exists w ok,
         destroyContainer (containerId (deref (store st) r)) (world st)
           = (ok, w)
         /\ enforceUserContextLimit u st
            = (Resolved tt,
               {| world := w;
                  persistentContexts :=
                    Js.delete (persistentContexts st) key;
                  store := store st;
                  calls := (calls st
                    ++ [(CallDestroy (containerId (deref (store st) r)),
                         isResolved ok)])%list |}).
Proof.
  intros Hlen.
  pose proof (Permutation_length (sortByLastUsed_perm (store st) (owned st u)))
    as Hp.
  rewrite Hlen in Hp. unfold MAX_CONTEXTS_PER_USER in Hp.
  unfold enforceUserContextLimit. unfold_m. fold (owned st u).
  destruct (sortByLastUsed (store st) (owned st u))
    as [|[key r] [|e2 [|e3 [|e4 [|e5 [|e6 rest]]]]]]; try discriminate.
  exists key, r, [e2; e3; e4; e5]. split; [reflexivity|].
  cbn [evictWhileOver List.length MAX_CONTEXTS_PER_USER Nat.leb].
  unfold_m. cbn.
  destruct (destroyContainer (containerId (deref (store st) r)) (world st))
    as [[[]|e] w] eqn:E; cbn.
  - exists w, (Resolved tt). split; [reflexivity|].
    now destruct e2.
  - exists w, (Rejected e). split; [reflexivity|].
    now destruct e2.
Qed.

Lemma deref_app (h : list PersistentExecutionContext)
    (c : PersistentExecutionContext) (r : ref) :
  (r < List.length h)%nat -> deref (h ++ [c]) r = deref h r.
Proof. intros Hr. unfold deref. now apply app_nth1. Qed.

Lemma deref_new (h : list PersistentExecutionContext)
    (c : PersistentExecutionContext) :
  deref (h ++ [c]) (List.length h) = c.
Proof. unfold deref. now rewrite nth_middle. Qed.

Lemma owned_filter_alloc (h : list PersistentExecutionContext)
    (c : PersistentExecutionContext) (u : string)
    (m : list (string * ref)) :
  forallb (fun e => Nat.ltb (snd e) (List.length h)) m = true ->
  filter (ownedBy (h ++ [c]) u) m = filter (ownedBy h u) m.
Proof.
  intros Hv. apply filter_ext_in. intros e He.
  rewrite forallb_forall in Hv. specialize (Hv e He).
  apply Nat.ltb_lt in Hv. unfold ownedBy. now rewrite deref_app.
Qed.


(** *** Reuse of a live context *)

Lemma getOrCreate_reuses (u l : string) (st : State W) (r : ref)
    (res : ExecResult) (w : W) :
  Js.get (persistentContexts st) (contextKey u l) = Some r ->
  executeCommand (containerId (deref (store st) r)) probe (world st)
    = (Resolved res, w) ->
  getOrCreatePersistentContext u l st
  = (Resolved r,
     {| world := w;
        persistentContexts := persistentContexts st;
        store := store st;
        calls := (calls st
          ++ [(CallExecute (containerId (deref (store st) r)) probe,
               true)])%list |}).
Proof.
  intros Hget Hexec. unfold getOrCreatePersistentContext. cbv zeta.
  unfold_m. rewrite Hget. cbn [world persistentContexts store calls].
  now rewrite Hexec.
Qed.

Lemma getOrCreate_registers (u l : string) (st st' : State W) (r : ref) :
  getOrCreatePersistentContext u l st = (Resolved r, st') ->
  Js.get (persistentContexts st') (contextKey u l) = Some r.
Proof.
  unfold getOrCreatePersistentContext. cbv zeta.
  unfold bind at 1. unfold contextsGet, gets.
  assert (Hcreate : forall s,
    createPersistentContext u l s = (Resolved r, st') ->
    Js.get (persistentContexts st') (contextKey u l) = Some r).
  { intros s. unfold createPersistentContext. unfold bind at 1.
    destruct (enforceUserContextLimit u s) as [[[]|e] s1];
      [|discriminate].
    destruct (Lang.falsy (Lang.languageTiers l)) eqn:Hl.
    - unfold newPersistentContext. rewrite Hl. discriminate.
    - intros Hnew.
      destruct (newPersistentContext_spec _ _ _ _ _ Hl Hnew)
        as (_ & _ & _ & _ & _ & _ & _ & Hreg & _).
      rewrite Hreg. apply get_set_same. }
  destruct (Js.get (persistentContexts st) (contextKey u l)) as [r0|] eqn:G.
  - unfold bind at 1 2. unfold read, gets, tryCatch, bind, dockerExecute.
    destruct (executeCommand _ probe (world st)) as [[res|e] w].
    + unfold ret. intros [= <- <-]. exact G.
    + unfold contextsDelete, modify, ret. apply Hcreate.
  - unfold bind at 1, ret at 1. apply Hcreate.
Qed.

Lemma creations_app (a b : list Logged) :
  creations (a ++ b) = (creations a + creations b)%nat.
Proof. unfold creations. now rewrite filter_app, length_app. Qed.

Lemma creations_plain (delta : list Logged) :
  Forall plainCall delta -> creations delta = 0%nat.
Proof.
  unfold creations. induction 1 as [|c r [Hc _] _ IH]; [reflexivity|].
  cbn [filter]. now rewrite Hc.
Qed.

(** The quota loop only ever destroys. *)
Lemma evictWhileOver_calls (l : list (string * ref)) (st : State W) :
  exists st' delta,
    evictWhileOver l st = (Resolved tt, st')
    /\ calls st' = (calls st ++ delta)%list
    /\ creations delta = 0%nat.
Proof.
  revert st. induction l as [|[key r] rest IH]; intros st;
    cbn [evictWhileOver].
  - exists st, []. now rewrite app_nil_r.
  - destruct (Nat.leb _ _).
    2:{ exists st, []. now rewrite app_nil_r. }
    unfold bind at 1. unfold read, gets.
    unfold bind at 1. unfold tryCatch, dockerDestroy, record_call.
    destruct (destroyContainer (containerId (deref (store st) r)) (world st))
      as [[[]|e] w];
      unfold ret; unfold bind at 1; unfold contextsDelete, modify;
      cbn [world persistentContexts store calls];
      match goal with
      | |- context [evictWhileOver rest ?s] =>
          destruct (IH s) as (st' & delta & Hrun & Hcalls & Hnone)
      end;
      exists st'; eexists; (split; [exact Hrun|]);
      cbn [calls] in Hcalls; rewrite Hcalls, <- app_assoc;
      (split; [reflexivity|]);
      rewrite creations_app, Hnone; reflexivity.
Qed.

(** One call of [getOrCreatePersistentContext] creates at most one
    container. *)
Lemma getOrCreate_creates_at_most_once (u l : string) (st : State W)
    (res : Outcome ref) (st' : State W) :
  getOrCreatePersistentContext u l st = (res, st') ->
  (creations (calls st) <= creations (calls st')
   <= creations (calls st) + 1)%nat.
Proof.
  assert (Hcreate : forall s,
    createPersistentContext u l s = (res, st') ->
    (creations (calls s) <= creations (calls st')
     <= creations (calls s) + 1)%nat).
  { intros s. unfold createPersistentContext, enforceUserContextLimit.
    unfold bind at 1. unfold bind at 1. unfold gets.
    match goal with
    | |- context [evictWhileOver ?l s] =>
        destruct (evictWhileOver_calls l s)
          as (s1 & d1 & -> & Hc1 & Hn1)
    end.
    destruct (Lang.falsy (Lang.languageTiers l)) eqn:Hl.
    - unfold newPersistentContext. rewrite Hl. unfold throw.
      intros [= _ <-]. rewrite Hc1, creations_app. lia.
    - intros Hnew.
      destruct (newPersistentContext_spec _ _ _ _ _ Hl Hnew)
        as (config & ok & d2 & Hc2 & Hplain & _).
      rewrite Hc2, Hc1, !creations_app.
      change ((CallCreate config, ok) :: d2)
        with ([(CallCreate config, ok)] ++ d2)%list.
      rewrite creations_app, (creations_plain _ Hplain). cbn. lia. }
  unfold getOrCreatePersistentContext. cbv zeta.
  unfold bind at 1. unfold contextsGet, gets.
  destruct (Js.get (persistentContexts st) (contextKey u l)) as [r0|].
  - unfold bind at 1 2. unfold read, gets, tryCatch, bind, dockerExecute.
    destruct (executeCommand _ probe (world st)) as [[out|e] w].
    + unfold ret. intros [= _ <-]. cbn [calls record_call].
      rewrite creations_app. cbn. lia.
    + unfold contextsDelete, modify, ret, record_call.
      cbn [world persistentContexts store calls].
      intros Hrun. apply Hcreate in Hrun. cbn [calls] in Hrun.
      rewrite creations_app in Hrun. cbn in Hrun. lia.
  - unfold bind at 1, ret at 1. apply Hcreate.
Qed.
(** C3.  After a call of [getOrCreatePersistentContext] has returned a
    context for (owner, language), and as long as that context's container
    answers the liveness probe, the next call for the same pair returns
    the same context object, hence the same [containerId]; it leaves the
    registry and the stored contexts as they are, and the only call it
    makes on the container runtime is the probe: no container creation.
    Over the two calls at most one container was created. *)
Theorem getOrCreate_idempotent_while_alive (u l : string)
    (st st1 : State W) (r : ref) (res : ExecResult) (w : W) :
  getOrCreatePersistentContext u l st = (Resolved r, st1) ->
  executeCommand (containerId (deref (store st1) r)) probe (world st1)
    = (Resolved res, w) ->
  exists st2,
    getOrCreatePersistentContext u l st1 = (Resolved r, st2)
    /\ containerId (deref (store st2) r)
       = containerId (deref (store st1) r)
    /\ persistentContexts st2 = persistentContexts st1
    /\ store st2 = store st1
    /\ calls st2
       = (calls st1
            ++ [(CallExecute (containerId (deref (store st1) r)) probe,
                 true)])%list
    /\ creations (calls st2) = creations (calls st1)
    /\ (creations (calls st2) <= creations (calls st) + 1)%nat.
Proof.
  intros Hfirst Halive.
  pose proof (getOrCreate_registers _ _ _ _ _ Hfirst) as Hreg.
  pose proof (getOrCreate_creates_at_most_once _ _ _ _ _ Hfirst) as Honce.
  eexists. split; [now apply (getOrCreate_reuses u l st1 r res w)|].
  cbn [world persistentContexts store calls].
  assert (Hsame : creations
                    (calls st1
                       ++ [(CallExecute (containerId (deref (store st1) r))
                              probe, true)])
                  = creations (calls st1))
    by (rewrite creations_app; cbn; lia).
  repeat split; [exact Hsame | rewrite Hsame; lia].
Qed.

End RegistryFacts.

(** ** The cap as an invariant of the registry *)

Section CapInvariant.
Import Docker Async SessionFree.
Context {W : Type} `{RT : Runtime W}.
Local Open Scope async_scope.

Lemma filter_delete_le {V} (P : string * V -> bool) (m : Js.map V)
    (k : string) :
  (List.length (filter P (Js.delete m k)) <= List.length (filter P m))%nat.
Proof.
  induction m as [|[k' v] r IH]; cbn [Js.delete filter]; [lia|].
  destruct (String.eqb k' k); cbn [filter].
  - destruct (P (k', v)); cbn [List.length]; lia.
  - destruct (P (k', v)); cbn [List.length]; lia.
Qed.

Lemma forallb_delete {V} (P : string * V -> bool) (m : Js.map V)
    (k : string) :
  forallb P m = true -> forallb P (Js.delete m k) = true.
Proof.
  induction m as [|[k' v] r IH]; cbn [Js.delete forallb]; [reflexivity|].
  intros H. apply andb_true_iff in H. destruct H as [Hp Hr].
  destruct (String.eqb k' k); cbn [forallb]; [now apply IH|].
  now rewrite Hp, IH.
Qed.

Lemma get_delete_None {V} (m : Js.map V) (k k' : string) :
  Js.get m k' = None -> Js.get (Js.delete m k) k' = None.
Proof.
  intros H. destruct (String.eqb k' k) eqn:E.
  - apply String.eqb_eq in E. subst. apply get_delete_same.
  - rewrite get_delete_other; [exact H|].
    intros ->. now rewrite String.eqb_refl in E.
Qed.

Lemma wellFormed_delete (st : State W) (w : W) (k : string)
    (log : list Logged) :
  wellFormed st = true ->
  wellFormed {| world := w;
                persistentContexts := Js.delete (persistentContexts st) k;
                store := store st;
                calls := log |} = true.
Proof.
  unfold wellFormed. cbn [persistentContexts store]. intros H.
  apply andb_true_iff in H. destruct H as [Hu Hv].
  now rewrite uniqueKeys_delete, forallb_delete.
Qed.

(** Below the cap the quota does nothing. *)
Lemma enforce_below_limit (u : string) (st : State W) :
  (List.length (owned st u) < MAX_CONTEXTS_PER_USER)%nat ->
  enforceUserContextLimit u st = (Resolved tt, st).
Proof.
  intros Hlen.
  pose proof (Permutation_length (sortByLastUsed_perm (store st) (owned st u)))
    as Hp.
  unfold enforceUserContextLimit. unfold bind, gets. fold (owned st u).
  destruct (sortByLastUsed (store st) (owned st u)) as [|[key r] rest];
    [reflexivity|].
  cbn [evictWhileOver].
  destruct (Nat.leb MAX_CONTEXTS_PER_USER (List.length ((key, r) :: rest)))
    eqn:E; [|reflexivity].
  apply Nat.leb_le in E. lia.
Qed.

(** Below the cap, a request for a language without a profile, from an
    owner without a context under that key, fails and changes nothing. *)
Lemma unsupported_language_below_cap (u l : string) (st : State W) :
  Js.get (persistentContexts st) (contextKey u l) = None ->
  Lang.falsy (Lang.languageTiers l) = true ->
  (List.length (owned st u) < MAX_CONTEXTS_PER_USER)%nat ->
  getOrCreatePersistentContext u l st
  = (Rejected ("Unsupported language: " ++ l), st).
Proof.
  intros Hnone Hl Hlen.
  unfold getOrCreatePersistentContext. cbv zeta.
  unfold bind at 1. unfold contextsGet, gets. rewrite Hnone.
  unfold bind at 1, ret at 1.
  unfold createPersistentContext, bind.
  rewrite enforce_below_limit by exact Hlen.
  unfold newPersistentContext. now rewrite Hl.
Qed.

(** What the quota leaves behind, for an owner within the cap. *)
Lemma enforce_within_cap (u : string) (st : State W) :
  wellFormed st = true ->
  (List.length (owned st u) <= MAX_CONTEXTS_PER_USER)%nat ->
  exists st1,
    enforceUserContextLimit u st = (Resolved tt, st1)
    /\ wellFormed st1 = true
    /\ store st1 = store st
    /\ (List.length (owned st1 u) < MAX_CONTEXTS_PER_USER)%nat
    /\ (forall u', (List.length (owned st1 u')
                    <= List.length (owned st u'))%nat)
    /\ (forall k, Js.get (persistentContexts st) k = None ->
                  Js.get (persistentContexts st1) k = None).
Proof.
  intros Hwf Hle.
  destruct (Nat.eq_dec (List.length (owned st u)) MAX_CONTEXTS_PER_USER)
    as [Heq|Hne].
  - destruct (enforce_at_limit u st Heq)
      as (key & victim & rest & Hsort & w & ok & _ & Hrun).
    eexists. split; [exact Hrun|].
    split; [now apply wellFormed_delete|].
    split; [reflexivity|].
    destruct (sortByLastUsed_head _ _ _ _ Hsort) as (Hin & _ & _).
    unfold owned in Hin. apply filter_In in Hin. destruct Hin as [Hin Hown].
    unfold wellFormed in Hwf. apply andb_true_iff in Hwf.
    destruct Hwf as [Huniq _].
    destruct (delete_splits _ _ _ Huniq Hin) as (front & back & Hreg & Hdel).
    split; [|split].
    + unfold owned in *. cbn [persistentContexts store].
      rewrite Hdel. rewrite Hreg in Heq.
      rewrite filter_app in Heq |- *. cbn [filter] in Heq.
      rewrite Hown in Heq. rewrite length_app in Heq |- *.
      cbn [List.length] in Heq. lia.
    + intros u'. unfold owned. cbn [persistentContexts store].
      apply filter_delete_le.
    + intros k Hk. cbn [persistentContexts]. now apply get_delete_None.
  - exists st. rewrite enforce_below_limit by lia.
    split; [reflexivity|]. split; [exact Hwf|]. split; [reflexivity|].
    split; [lia|]. split; [intros u'; lia | tauto].
Qed.

(** [getOrCreatePersistentContext] keeps the registry well formed and
    every owner within the cap, whatever the runtime answers. *)
Theorem getOrCreate_keeps_cap (u l : string) (st : State W)
    (res : Outcome ref) (st' : State W) :
  wellFormed st = true ->
  withinCap st ->
  getOrCreatePersistentContext u l st = (res, st') ->
  wellFormed st' = true /\ withinCap st'.
Proof.
  intros Hwf Hcap.
  (* the creation stage, from a state without an entry for the key *)
  assert (Hcreate : forall s,
    wellFormed s = true -> withinCap s ->
    Js.get (persistentContexts s) (contextKey u l) = None ->
    createPersistentContext u l s = (res, st') ->
    wellFormed st' = true /\ withinCap st').
  { intros s Hs Hc Hnone. unfold createPersistentContext. unfold bind at 1.
    destruct (enforce_within_cap u s Hs (Hc u))
      as (s1 & -> & Hwf1 & Hstore1 & Hlt & Hmono & Hnone1).
    specialize (Hnone1 _ Hnone).
    assert (Hcap1 : withinCap s1)
      by (intros u'; specialize (Hmono u'); specialize (Hc u'); lia).
    destruct (Lang.falsy (Lang.languageTiers l)) eqn:Hl.
    - unfold newPersistentContext. rewrite Hl. unfold throw.
      intros [= _ <-]. now split.
    - intros Hnew.
      destruct (newPersistentContext_spec _ _ _ _ _ Hl Hnew)
        as (config & ok & delta & _ & _ & Hres).
      destruct res as [r|e].
      + destruct Hres as (_ & Hr & Hreg & c & Hstore & Hu & _).
        rewrite set_absent in Hreg by exact Hnone1.
        unfold wellFormed in Hwf1. apply andb_true_iff in Hwf1.
        destruct Hwf1 as [Huniq Hvalid].
        split.
        * unfold wellFormed. rewrite Hreg, Hstore.
          rewrite uniqueKeys_app_fresh by assumption.
          rewrite forallb_app, length_app. cbn [forallb snd List.length].
          rewrite Hr.
          replace (List.length (store s1) <? List.length (store s1) + 1)%nat
            with true by (symmetry; apply Nat.ltb_lt; lia).
          rewrite andb_true_r. cbn [andb].
          rewrite forallb_forall in Hvalid |- *.
          intros e He. specialize (Hvalid e He).
          apply Nat.ltb_lt in Hvalid. apply Nat.ltb_lt. lia.
        * intros u'. unfold owned. rewrite Hreg, Hstore.
          rewrite filter_app, length_app.
          rewrite owned_filter_alloc by exact Hvalid.
          cbn [filter]. unfold ownedBy at 2. cbn [snd].
          rewrite Hr, deref_new, Hu.
          destruct (String.eqb u u') eqn:E; cbn [List.length].
          -- apply String.eqb_eq in E. subst u'.
             fold (owned s1 u). lia.
          -- specialize (Hcap1 u'). unfold owned in Hcap1. lia.
      + destruct Hres as (_ & Hreg & Hstore).
        split.
        * unfold wellFormed in *. now rewrite Hreg, Hstore.
        * intros u'. unfold owned. rewrite Hreg, Hstore. apply Hcap1. }
  unfold getOrCreatePersistentContext. cbv zeta.
  unfold bind at 1. unfold contextsGet, gets.
  destruct (Js.get (persistentContexts st) (contextKey u l)) as [r0|] eqn:G.
  - unfold bind at 1 2. unfold read, gets, tryCatch, bind, dockerExecute.
    destruct (executeCommand _ probe (world st)) as [[out|e] w].
    + unfold ret. intros [= _ <-]. split; [exact Hwf|exact Hcap].
    + unfold contextsDelete, modify, ret, record_call.
      cbn [world persistentContexts store calls].
      apply Hcreate.
      * now apply wellFormed_delete.
      * intros u'. unfold owned. cbn [persistentContexts store].
        etransitivity; [apply filter_delete_le | apply Hcap].
      * cbn [persistentContexts]. apply get_delete_same.
  - unfold bind at 1, ret at 1. now apply Hcreate.
Qed.

End CapInvariant.

(** ** The invariant across the public operations *)

Section InvariantFacts.
Import Docker Async SessionFree.
Context {W : Type} `{RT : Runtime W}.
Local Open Scope async_scope.

Lemma initial_invariant (w : W) : invariant (initial w).
Proof. split; [reflexivity|]. intros u. cbn. lia. Qed.

Lemma sameOwners_refl (st : State W) : sameOwners st st.
Proof. unfold sameOwners. repeat split. Qed.

Lemma sameOwners_trans (a b c : State W) :
  sameOwners a b -> sameOwners b c -> sameOwners a c.
Proof.
  intros (H1 & H2 & H3) (K1 & K2 & K3). unfold sameOwners.
  split; [congruence|]. split; [congruence|].
  intros r. rewrite K3. apply H3.
Qed.

Lemma sameOwners_invariant (st st' : State W) :
  sameOwners st st' -> invariant st -> invariant st'.
Proof.
  intros (Hreg & Hlen & Hu) [Hwf Hcap]. split.
  - unfold wellFormed in *. now rewrite Hreg, Hlen.
  - intros u. unfold owned. rewrite Hreg.
    erewrite filter_ext; [apply Hcap|].
    intros e. unfold ownedBy. now rewrite Hu.
Qed.

Lemma keepsOwners_preserves {A} (c : Async.M (State W) A) :
  keepsOwners c -> preserves c.
Proof.
  intros Hc st res st' Hinv Hrun.
  eapply sameOwners_invariant; [eapply Hc, Hrun | exact Hinv].
Qed.

Lemma preserves_bind {A B} (c : Async.M (State W) A)
    (k : A -> Async.M (State W) B) :
  preserves c -> (forall a, preserves (k a)) -> preserves (bind c k).
Proof.
  intros Hc Hk st res st' Hinv. unfold bind.
  destruct (c st) as [[a|e] st1] eqn:E.
  - intros Hrun. eapply Hk; [eapply Hc; eauto | exact Hrun].
  - intros [= _ <-]. eapply Hc; eauto.
Qed.

Lemma preserves_tryCatch {A} (c : Async.M (State W) A)
    (h : string -> Async.M (State W) A) :
  preserves c -> (forall e, preserves (h e)) -> preserves (tryCatch c h).
Proof.
  intros Hc Hh st res st' Hinv. unfold tryCatch.
  destruct (c st) as [[a|e] st1] eqn:E.
  - intros [= _ <-]. eapply Hc; eauto.
  - intros Hrun. eapply Hh; [eapply Hc; eauto | exact Hrun].
Qed.

Lemma preserves_forEach {A} (xs : list A)
    (body : A -> Async.M (State W) unit) :
  (forall x, preserves (body x)) -> preserves (forEach xs body).
Proof.
  intros Hb. induction xs as [|x r IH]; cbn [forEach].
  - intros st res st' Hinv [= _ <-]. exact Hinv.
  - apply preserves_bind; [apply Hb | intros _; exact IH].
Qed.

Lemma owners_ret {A} (a : A) : keepsOwners (W := W) (ret a).
Proof. intros st res st' [= _ <-]. apply sameOwners_refl. Qed.

Lemma owners_throw {A} (e : string) : keepsOwners (W := W) (A := A) (throw e).
Proof. intros st res st' [= _ <-]. apply sameOwners_refl. Qed.

Lemma owners_gets {A} (f : State W -> A) : keepsOwners (gets f).
Proof. intros st res st' [= _ <-]. apply sameOwners_refl. Qed.

Lemma owners_bind {A B} (c : Async.M (State W) A)
    (k : A -> Async.M (State W) B) :
  keepsOwners c -> (forall a, keepsOwners (k a)) -> keepsOwners (bind c k).
Proof.
  intros Hc Hk st res st'. unfold bind.
  destruct (c st) as [[a|e] st1] eqn:E.
  - intros Hrun. eapply sameOwners_trans; [eapply Hc, E | eapply Hk, Hrun].
  - intros [= _ <-]. eapply Hc, E.
Qed.

Lemma owners_tryCatch {A} (c : Async.M (State W) A)
    (h : string -> Async.M (State W) A) :
  keepsOwners c -> (forall e, keepsOwners (h e)) ->
  keepsOwners (tryCatch c h).
Proof.
  intros Hc Hh st res st'. unfold tryCatch.
  destruct (c st) as [[a|e] st1] eqn:E.
  - intros [= _ <-]. eapply Hc, E.
  - intros Hrun. eapply sameOwners_trans; [eapply Hc, E | eapply Hh, Hrun].
Qed.

Lemma owners_forEach {A} (xs : list A)
    (body : A -> Async.M (State W) unit) :
  (forall x, keepsOwners (body x)) -> keepsOwners (forEach xs body).
Proof.
  intros Hb. induction xs as [|x r IH]; cbn [forEach].
  - apply owners_ret.
  - apply owners_bind; [apply Hb | intros _; exact IH].
Qed.

Lemma owners_dockerExecute (cid command : string) :
  keepsOwners (dockerExecute cid command).
Proof.
  intros st res st'. unfold dockerExecute.
  destruct (executeCommand cid command (world st)) as [r w].
  intros [= _ <-]. unfold sameOwners. repeat split.
Qed.

Lemma owners_dockerDestroy (cid : string) : keepsOwners (dockerDestroy cid).
Proof.
  intros st res st'. unfold dockerDestroy.
  destruct (destroyContainer cid (world st)) as [r w].
  intros [= _ <-]. unfold sameOwners. repeat split.
Qed.

Lemma owners_now : keepsOwners (W := W) now.
Proof.
  intros st res st'. unfold now.
  destruct (dateNow (world st)) as [t w].
  intros [= _ <-]. unfold sameOwners. repeat split.
Qed.

Lemma length_update {A} (h : list A) (r : nat) (f : A -> A) :
  List.length (update h r f) = List.length h.
Proof.
  revert r. induction h as [|x t IH]; intros [|r]; simpl;
    try reflexivity. now rewrite IH.
Qed.

Lemma userId_update (h : list PersistentExecutionContext) (r r' : ref)
    (f : PersistentExecutionContext -> PersistentExecutionContext) :
  (forall c, userId (f c) = userId c) ->
  userId (deref (update h r f) r') = userId (deref h r').
Proof.
  intros Hf. unfold deref. revert r r'.
  induction h as [|x t IH]; intros [|r] [|r']; simpl; try reflexivity.
  - apply Hf.
  - apply IH.
Qed.

Lemma owners_mutate (r : ref)
    (f : PersistentExecutionContext -> PersistentExecutionContext) :
  (forall c, userId (f c) = userId c) ->
  keepsOwners (W := W) (mutate r f).
Proof.
  intros Hf st res st'. unfold mutate, modify. intros [= _ <-].
  unfold sameOwners. cbn [persistentContexts store].
  split; [reflexivity|]. split; [apply length_update|].
  intros r'. now apply userId_update.
Qed.

Lemma installPackages_keeps (context : ref) (packages : list string) :
  keepsOwners (W := W) (installPackages context packages).
Proof.
  unfold installPackages.
  apply owners_bind; [apply owners_gets|]. intros c.
  destruct (Lang.lk_packageInstallCommand _); [|apply owners_throw].
  destruct (filter _ packages) as [|p ps]; [apply owners_ret|].
  unfold installLoop. apply owners_forEach. intros name.
  apply owners_tryCatch; [|intros; apply owners_throw].
  apply owners_bind; [apply owners_dockerExecute|]. intros _.
  now apply owners_mutate.
Qed.

Lemma generateFileName_keeps (language_ : string) :
  keepsOwners (W := W) (generateFileName language_).
Proof.
  unfold generateFileName. cbv zeta.
  apply owners_bind; [apply owners_now | intros; apply owners_ret].
Qed.

Lemma executeCodeInContext_keeps (context : ref)
    (request : SessionFreeExecutionRequest) :
  keepsOwners (W := W) (executeCodeInContext context request).
Proof.
  unfold executeCodeInContext.
  apply owners_bind; [apply owners_gets|]. intros c. cbv zeta.
  destruct (Lang.falsy _); [apply owners_throw|].
  apply owners_bind.
  { destruct (req_fileName request) as [f|];
      [destruct (Js.truthy f); [apply owners_ret|]|];
      apply generateFileName_keeps. }
  intros fileName. apply owners_bind.
  { unfold writeCodeToContainer. cbv zeta.
    apply owners_bind; [apply owners_dockerExecute|]. intros _.
    apply owners_bind; [apply owners_dockerExecute|]. intros _.
    apply owners_ret. }
  intros _. destruct (Lang.lk_executeCommand _); [|apply owners_throw].
  apply owners_bind; [apply owners_dockerExecute|]. intros result.
  apply owners_bind; [|intros; apply owners_ret].
  unfold getCreatedFiles.
  apply owners_tryCatch; [|intros; apply owners_ret].
  apply owners_bind; [apply owners_dockerExecute|]. intros r.
  destruct (output r) as [o|]; [|apply owners_ret].
  destruct (Js.truthy o); apply owners_ret.
Qed.

Lemma getOrCreate_preserves (u l : string) :
  preserves (W := W) (getOrCreatePersistentContext u l).
Proof.
  intros st res st' [Hwf Hcap] Hrun.
  now apply (getOrCreate_keeps_cap u l st res st').
Qed.

(** [executeCode], the entry point of the service, keeps the registry well
    formed and every owner within the cap of 5 contexts. *)
Theorem executeCode_preserves (request : SessionFreeExecutionRequest) :
  preserves (W := W) (executeCode request).
Proof.
  unfold executeCode.
  apply preserves_bind; [apply keepsOwners_preserves, owners_now|].
  intros startTime. cbv zeta.
  apply preserves_tryCatch.
  - apply preserves_bind; [apply getOrCreate_preserves|]. intros context.
    apply keepsOwners_preserves.
    apply owners_bind.
    { destruct (req_packages request) as [[|p ps]|]; try apply owners_ret.
      apply installPackages_keeps. }
    intros _.
    apply owners_bind; [apply executeCodeInContext_keeps|]. intros result.
    apply owners_bind; [apply owners_now|]. intros tUsed.
    apply owners_bind; [now apply owners_mutate|]. intros _.
    apply owners_bind; [apply owners_now|]. intros tEnd.
    apply owners_bind; [apply owners_gets|]. intros c. apply owners_ret.
  - intros message. apply keepsOwners_preserves.
    apply owners_bind; [apply owners_now | intros; apply owners_ret].
Qed.

Lemma contextsDelete_preserves (key : string) :
  preserves (W := W) (contextsDelete key).
Proof.
  intros st res st' [Hwf Hcap]. unfold contextsDelete, modify.
  intros [= _ <-]. split.
  - now apply wellFormed_delete.
  - intros u. unfold owned. cbn [persistentContexts store].
    etransitivity; [apply filter_delete_le | apply Hcap].
Qed.

(** The idle sweep and the manual clean-up only delete. *)
Theorem cleanupInactiveContexts_preserves :
  preserves (W := W) cleanupInactiveContexts.
Proof.
  unfold cleanupInactiveContexts.
  apply preserves_bind; [apply keepsOwners_preserves, owners_now|]. intros t.
  apply preserves_bind; [apply keepsOwners_preserves, owners_gets|].
  intros keys. apply preserves_forEach. intros key.
  apply preserves_bind; [apply keepsOwners_preserves, owners_gets|].
  intros [r|]; [|apply keepsOwners_preserves, owners_ret].
  apply preserves_bind; [apply keepsOwners_preserves, owners_gets|]. intros c.
  apply preserves_bind; [|intros _; apply contextsDelete_preserves].
  apply keepsOwners_preserves.
  apply owners_tryCatch; [apply owners_dockerDestroy | intros; apply owners_ret].
Qed.

Theorem cleanupContext_preserves (u l : string) :
  preserves (W := W) (cleanupContext u l).
Proof.
  unfold cleanupContext. cbv zeta.
  apply preserves_bind; [apply keepsOwners_preserves, owners_gets|].
  intros [r|]; [|apply keepsOwners_preserves, owners_ret].
  apply preserves_bind; [apply keepsOwners_preserves, owners_gets|]. intros c.
  apply preserves_tryCatch;
    [|intros; apply keepsOwners_preserves, owners_ret].
  apply preserves_bind; [apply keepsOwners_preserves, owners_dockerDestroy|].
  intros _.
  apply preserves_bind; [apply contextsDelete_preserves|]. intros _.
  apply keepsOwners_preserves, owners_ret.
Qed.

End InvariantFacts.

(** ** Package installation *)

Section InstallFacts.
Import Docker Async SessionFree.
Context {W : Type} `{RT : Runtime W}.
Local Open Scope async_scope.

Lemma update_update {A} (h : list A) (r : nat) (f g : A -> A) :
  update (update h r f) r g = update h r (fun x => g (f x)).
Proof.
  revert r. induction h as [|x t IH]; intros [|r]; simpl;
    try reflexivity. now rewrite IH.
Qed.

Lemma update_id {A} (h : list A) (r : nat) :
  update h r (fun x => x) = h.
Proof.
  revert r. induction h as [|x t IH]; intros [|r]; simpl;
    try reflexivity. now rewrite IH.
Qed.

Lemma deref_update (h : list PersistentExecutionContext) (r : ref)
    (f : PersistentExecutionContext -> PersistentExecutionContext) :
  (r < List.length h)%nat -> deref (update h r f) r = f (deref h r).
Proof.
  unfold deref. revert r.
  induction h as [|x t IH]; intros [|r] Hr; simpl in *; try lia.
  - reflexivity.
  - apply IH. lia.
Qed.

Lemma installLoop_trace (context : ref) (cid : string)
    (template names : list string) (st : State W)
    (res : Outcome unit) (st' : State W) :
  installLoop context cid template names st = (res, st') ->
  exists done,
    persistentContexts st' = persistentContexts st
    /\ store st' = update (store st) context (recorded done)
    /\ match res with
       | Resolved _ =>
           done = names
           /\ calls st'
              = (calls st ++ List.map (installed true cid template) names)%list
       | Rejected message =>
           exists name rest,
             names = (done ++ name :: rest)%list
             /\ message = "Failed to install package: " ++ name
             /\ calls st'
                = (calls st
                     ++ List.map (installed true cid template) done
                     ++ [installed false cid template name])%list
       end.
Proof.
  unfold installLoop.
  revert st. induction names as [|p ps IH]; intros st; cbn [forEach].
  - unfold ret. intros [= <- <-]. exists []. cbn.
    rewrite update_id, app_nil_r. repeat split.
  - unfold bind at 1. unfold tryCatch at 1. unfold bind at 1.
    unfold dockerExecute at 1.
    destruct (executeCommand cid (installCommand template p) (world st))
      as [[out|e] w] eqn:E.
    + unfold mutate, modify, record_call.
      cbn [world persistentContexts store calls isResolved].
      intros Hrest. apply IH in Hrest.
      destruct Hrest as (done & Hreg & Hstore & Hres).
      cbn [world persistentContexts store calls] in Hreg, Hstore, Hres.
      exists (p :: done). split; [exact Hreg|]. split.
      { rewrite Hstore, update_update. reflexivity. }
      destruct res as [[]|message].
      * destruct Hres as [-> Hcalls]. split; [reflexivity|].
        rewrite Hcalls, <- app_assoc. reflexivity.
      * destruct Hres as (name & rest & -> & Hmsg & Hcalls).
        exists name, rest. split; [reflexivity|]. split; [exact Hmsg|].
        rewrite Hcalls, <- app_assoc. reflexivity.
    + unfold throw, record_call. cbn [isResolved].
      intros [= <- <-]. exists [].
      cbn [world persistentContexts store calls recorded fold_left].
      split; [reflexivity|]. split; [now rewrite update_id|].
      exists p, ps. repeat split.
Qed.

(** With an install-command template, [installPackages] is its loop over
    the names that are not recorded yet. *)
Lemma installPackages_loop (context : ref) (packages template : list string)
    (st : State W) :
  Lang.lk_packageInstallCommand
    (Lang.languageTiers (language (deref (store st) context)))
    = Some template ->
  installPackages context packages st
  = installLoop context (containerId (deref (store st) context)) template
      (filter (fun pkg =>
                 negb (Js.set_has
                         (installedPackages (deref (store st) context)) pkg))
              packages) st.
Proof.
  intros Ht. unfold installPackages, installLoop.
  unfold bind at 1. unfold read, gets. rewrite Ht.
  destruct (filter _ packages); reflexivity.
Qed.

Lemma installedPackages_recorded (done : list string)
    (c : PersistentExecutionContext) :
  installedPackages (recorded done c)
  = fold_left Js.set_add done (installedPackages c).
Proof.
  revert c. induction done as [|p ps IH]; intros c; [reflexivity|].
  cbn [recorded fold_left]. unfold recorded in IH. now rewrite IH.
Qed.

Lemma set_has_app (s t : Js.set_t) (x : string) :
  Js.set_has (s ++ t)%list x = (Js.set_has s x || Js.set_has t x)%bool.
Proof.
  induction s as [|y r IH]; simpl; [reflexivity|].
  now rewrite IH, orb_assoc.
Qed.

Lemma set_has_add (s : Js.set_t) (y x : string) :
  Js.set_has (Js.set_add s y) x
  = (Js.set_has s x || String.eqb y x)%bool.
Proof.
  unfold Js.set_add. destruct (Js.set_has s y) eqn:E.
  - destruct (String.eqb y x) eqn:Eyx; [|now rewrite orb_false_r].
    apply String.eqb_eq in Eyx. subst. now rewrite E.
  - rewrite set_has_app. simpl. now rewrite orb_false_r.
Qed.

Lemma set_has_fold_add (done : list string) (s : Js.set_t) (x : string) :
  Js.set_has (fold_left Js.set_add done s) x
  = (Js.set_has s x || existsb (fun p => String.eqb p x) done)%bool.
Proof.
  revert s. induction done as [|p ps IH]; intros s; cbn [fold_left existsb].
  - now rewrite orb_false_r.
  - rewrite IH, set_has_add. now rewrite orb_assoc.
Qed.

(** A language without a template is refused before any command. *)
Lemma installPackages_unsupported (context : ref) (packages : list string)
    (st : State W) :
  Lang.lk_packageInstallCommand
    (Lang.languageTiers (language (deref (store st) context))) = None ->
  installPackages context packages st
  = (Rejected ("Package installation not supported for "
                 ++ language (deref (store st) context)), st).
Proof.
  intros Ht. unfold installPackages.
  unfold bind at 1. unfold read, gets. now rewrite Ht.
Qed.

(** C4, as the code has it.  With an install-command template, the calls
    [installPackages] makes are install commands for the names of the
    batch that are not in [context.installedPackages] when the call
    starts ([newPackages]: a name already recorded as installed gets
    none), in batch order and one command per occurrence: a name that
    occurs twice in the batch and is not installed yet gets two commands.
    After a call that resolves the next occurrence follows, and the first
    call that the runtime rejects is the last: when [installPackages]
    returns normally there is one resolved call for every occurrence, and
    when it throws the calls are those for the occurrences up to the one
    whose call was rejected, all resolved but that one. *)
Theorem installPackages_one_command_per_new_occurrence
    (context : ref) (packages template : list string) (st : State W)
    (res : Outcome unit) (st' : State W) :
  let c := deref (store st) context in
  let newPackages :=
    filter (fun pkg => negb (Js.set_has (installedPackages c) pkg))
           packages in
  Lang.lk_packageInstallCommand (Lang.languageTiers (language c))
    = Some template ->
  installPackages context packages st = (res, st') ->
  (forall p, In p newPackages <->
             In p packages /\ Js.set_has (installedPackages c) p = false)
  /\ match res with
     | Resolved _ =>
         calls st'
         = (calls st
              ++ List.map (installed true (containerId c) template)
                          newPackages)%list
     | Rejected _ =>
         exists done name rest,
           newPackages = (done ++ name :: rest)%list
           /\ calls st'
              = (calls st
                   ++ List.map (installed true (containerId c) template)
                               done
                   ++ [installed false (containerId c) template name])%list
     end.
Proof.
  intros c newPackages Ht Hrun.
  rewrite (installPackages_loop _ _ _ _ Ht) in Hrun.
  fold c in Hrun. fold newPackages in Hrun.
  apply installLoop_trace in Hrun.
  destruct Hrun as (done & _ & _ & Hres).
  split.
  { intros p. unfold newPackages. rewrite filter_In, negb_true_iff.
    reflexivity. }
  destruct res as [[]|message].
  - now destruct Hres as [-> Hcalls].
  - destruct Hres as (name & rest & Hsplit & _ & Hcalls).
    now exists done, name, rest.
Qed.

(** C5, as the code has it.  The failure [installPackages] knows is a
    call [executeCommand] that the runtime rejects; what a call that
    resolves reports of its command is not read.  With an
    install-command template, [installPackages] returns no list: it
    either returns normally, every call having resolved, or throws
    [Failed to install package: <name>] for the first name whose call was
    rejected.  In that case the names after it in the batch were not
    attempted, the names whose calls resolved before it are recorded in
    [context.installedPackages], and the failed attempt recorded nothing:
    the failed name is not in [context.installedPackages] unless an
    earlier occurrence of it in the same batch had been recorded. *)
Theorem installPackages_stops_at_first_failure
    (context : ref) (packages template : list string) (st : State W)
    (res : Outcome unit) (st' : State W) :
  let c := deref (store st) context in
  let newPackages :=
    filter (fun pkg => negb (Js.set_has (installedPackages c) pkg))
           packages in
  (context < List.length (store st))%nat ->
  Lang.lk_packageInstallCommand (Lang.languageTiers (language c))
    = Some template ->
  installPackages context packages st = (res, st') ->
  match res with
  | Resolved _ =>
      calls st'
      = (calls st
           ++ List.map (installed true (containerId c) template)
                       newPackages)%list
      /\ installedPackages (deref (store st') context)
         = fold_left Js.set_add newPackages (installedPackages c)
  | Rejected message =>
      exists done name rest,
        newPackages = (done ++ name :: rest)%list
        /\ message = "Failed to install package: " ++ name
        /\ calls st'
           = (calls st
                ++ List.map (installed true (containerId c) template) done
                ++ [installed false (containerId c) template name])%list
        /\ installedPackages (deref (store st') context)
           = fold_left Js.set_add done (installedPackages c)
        /\ (~ In name done ->
            Js.set_has (installedPackages (deref (store st') context)) name
            = false)
  end.
Proof.
  intros c newPackages Hvalid Ht Hrun.
  rewrite (installPackages_loop _ _ _ _ Ht) in Hrun.
  fold c in Hrun. fold newPackages in Hrun.
  apply installLoop_trace in Hrun.
  destruct Hrun as (done & _ & Hstore & Hres).
  assert (Hinst : installedPackages (deref (store st') context)
                  = fold_left Js.set_add done (installedPackages c)).
  { rewrite Hstore, deref_update by exact Hvalid.
    apply installedPackages_recorded. }
  destruct res as [[]|message].
  - destruct Hres as [-> Hcalls]. now split.
  - destruct Hres as (name & rest & Hsplit & Hmsg & Hcalls).
    exists done, name, rest. repeat split; try assumption.
    intros Hnot. rewrite Hinst, set_has_fold_add.
    assert (Hn : Js.set_has (installedPackages c) name = false).
    { assert (Hin : In name newPackages)
        by (rewrite Hsplit; apply in_or_app; right; now left).
      apply filter_In in Hin. destruct Hin as [_ Hin].
      now apply negb_true_iff in Hin. }
    rewrite Hn. cbn [orb].
    destruct (existsb (fun p => String.eqb p name) done) eqn:E;
      [|reflexivity].
    apply existsb_exists in E. destruct E as (p & Hp & Heq).
    apply String.eqb_eq in Heq. subst p. contradiction.
Qed.

End InstallFacts.

(** ** Exit codes *)

Section ExitCodeFacts.
Import Docker Async.
Context {W : Type} `{RT : Runtime W}.
Local Open Scope async_scope.

(** Whatever the command did, a result of [executeCodeInContext] carries
    the exit code 0. *)
Lemma executeCodeInContext_exitCode (context : SessionFree.ref)
    (request : SessionFree.SessionFreeExecutionRequest)
    (st st' : SessionFree.State W) (r : SessionFree.PartialResult) :
  SessionFree.executeCodeInContext context request st = (Resolved r, st') ->
  SessionFree.pr_exitCode r = 0.
Proof.
  unfold SessionFree.executeCodeInContext.
  unfold bind at 1. unfold SessionFree.read, gets.
  destruct (Lang.falsy _); [discriminate|].
  repeat (unfold bind at 1;
          match goal with
          | |- (let (_, _) := ?c in _) = _ -> _ =>
              destruct c as [[?|?] ?]; [|discriminate]
          end;
          try (destruct (Lang.lk_executeCommand _); [|discriminate])).
  unfold ret. now intros [= <- _].
Qed.

(** The sibling service derives the exit code from the error text of the
    command: 1 when it is not empty. *)
Lemma executeCodeInContainer_exitCode (cid language_ fileName : string)
    (input : option string) (timeout : option Z)
    (st st' : Enhanced.State W) (r : Enhanced.CodeExecutionResult) :
  Enhanced.executeCodeInContainer cid language_ fileName input timeout st
    = (Resolved r, st') ->
  Enhanced.res_exitCode r
  = match Enhanced.res_error r with
    | Some e => if Js.truthy e then 1 else 0
    | None => 0
    end.
Proof.
  unfold Enhanced.executeCodeInContainer.
  destruct (Lang.falsy _); [discriminate|].
  destruct (Lang.lk_executeCommand _) as [run|]; [|discriminate].
  unfold bind.
  destruct (Enhanced.dockerExecute _ _ st) as [[result|e] st1];
    [|discriminate].
  unfold ret. now intros [= <- _].
Qed.

End ExitCodeFacts.

(** ** Concrete runs *)

Section Runs.
Import Docker SessionFree Scripted Scenario.

(** C1.  A Python program that raises an uncaught exception: the run
    command exits with status 1 and writes the traceback to the standard
    error; [executeCode] reports the traceback in [error], with the exit
    code 0. *)
Theorem executeCode_failing_program_exit_zero :
  let run :=
    executeCode (request "alice" "python" "raise ZeroDivisionError" None)
                (initial raising) in
  fst (executeCommand "container-1002" pythonRun raising)
  = Resolved {| output := Some EmptyString;
                error := Some "ZeroDivisionError: division by zero";
                executionTime := 1;
                exitCode := 1 |}
  /\ In (CallExecute "container-1002" pythonRun, true) (calls (snd run))
  /\ fst run
     = Resolved {| res_output := EmptyString;
                   res_error := "ZeroDivisionError: division by zero";
                   res_executionTime := 14;
                   res_exitCode := 0;
                   res_files := Some [];
                   res_contextId := "alice-python-1001" |}.
Proof.
  vm_compute. split; [reflexivity|]. split; [|reflexivity].
  repeat first [left; reflexivity | right].
Qed.

(** C6.  C++ has the empty array for its install-command template, which
    is truthy: a request that names a package for a C++ context is not
    refused; [installPackages] runs the bare package name as a command in
    the container and records the package as installed. *)
Theorem installPackages_cpp_runs_bare_name :
  let run :=
    executeCode (request "carol" "cpp" "int main(){}" (Some ["boost"]))
                carolCpp in
  Lang.packageInstallCommand Lang.cpp = Some []
  /\ language (deref (store carolCpp) 0%nat) = "cpp"
  /\ fst (installPackages 0%nat ["boost"] carolCpp) = Resolved tt
  /\ fst run
     = Resolved {| res_output := EmptyString;
                   res_error := EmptyString;
                   res_executionTime := 9;
                   res_exitCode := 0;
                   res_files := Some [];
                   res_contextId := "carol-cpp-1001" |}
  /\ In (CallExecute "container-1002" "boost", true) (calls (snd run))
  /\ installedPackages (deref (store (snd run)) 0%nat) = ["boost"].
Proof.
  vm_compute. repeat split; try reflexivity.
  repeat first [left; reflexivity | right].
Qed.

(** C7.  An owner at the cap asks for a language that has no profile:
    the call fails with the unsupported-language error, but only after
    the quota has destroyed the container of the owner's least recently
    used context and deleted it from the registry. *)
Theorem unsupported_language_evicts_at_cap :
  let run := executeCode (request "alice" "ruby" "puts 1" None) aliceFive in
  Lang.languageTiers "ruby" = Lang.Undefined
  /\ fst run
     = Resolved {| res_output := EmptyString;
                   res_error :=
                     "Execution failed: Unsupported language: ruby";
                   res_executionTime := 2;
                   res_exitCode := 1;
                   res_files := None;
                   res_contextId := "error" |}
  /\ persistentContexts aliceFive
     = [("alice:python", 0%nat); ("alice:javascript", 1%nat);
        ("alice:go", 2%nat); ("alice:cpp", 3%nat); ("alice:java", 4%nat)]
  /\ persistentContexts (snd run)
     = [("alice:javascript", 1%nat); ("alice:go", 2%nat);
        ("alice:cpp", 3%nat); ("alice:java", 4%nat)]
  /\ containerId (deref (store aliceFive) 0%nat) = "container-1002"
  /\ calls (snd run)
     = (calls aliceFive ++ [(CallDestroy "container-1002", true)])%list.
Proof. vm_compute. repeat split; reflexivity. Qed.

(** C4 as stated fails: a batch that names [numpy] twice runs the
    install command for [numpy] twice. *)
Lemma installPackages_duplicate_runs_twice :
  let run :=
    executeCode (request "alice" "python" "import numpy"
                         (Some ["numpy"; "numpy"])) aliceOne in
  installedPackages (deref (store aliceOne) 0%nat) = []
  /\ commandsRun "pip install --no-cache-dir numpy" (calls aliceOne) = 0%nat
  /\ commandsRun "pip install --no-cache-dir numpy" (calls (snd run))
     = 2%nat
  /\ snd (installPackages 0%nat ["numpy"; "numpy"] aliceOne)
     = {| world := Scripted.tick (Scripted.tick (world aliceOne));
          persistentContexts := persistentContexts aliceOne;
          store := update (store aliceOne) 0%nat (add_installed "numpy");
          calls :=
            (calls aliceOne
               ++ [ (CallExecute "container-1002"
                       "pip install --no-cache-dir numpy", true);
                    (CallExecute "container-1002"
                       "pip install --no-cache-dir numpy", true) ])%list |}.
Proof. vm_compute. repeat split; reflexivity. Qed.

(** C5 as stated fails, whichever way the install command fails.  When
    the runtime rejects the call, [installPackages] returns no result
    list: it throws, and [executeCode] turns that into its one error
    result.  When the call resolves and reports the failure of the
    command, with text on the standard error and the exit status 1,
    [installPackages] returns no list either: it does not read the
    report, records the package as installed, goes on to the name after it
    and returns normally. *)
Lemma installPackages_returns_no_result_list :
  let batch := ["requests"; "nonexistent-pkg-xyz"; "flask"] in
  let run := installPackages 0%nat batch (failingInstall aliceOne) in
  fst (installPackages 0%nat ["nonexistent-pkg-xyz"]
                       (withoutPackage aliceOne))
  = Rejected "Failed to install package: nonexistent-pkg-xyz"
  /\ fst (executeCode (request "alice" "python" "print(1)"
                               (Some ["nonexistent-pkg-xyz"]))
                      (withoutPackage aliceOne))
     = Resolved {| res_output := EmptyString;
                   res_error :=
                     "Execution failed: Failed to install package: nonexistent-pkg-xyz";
                   res_executionTime := 3;
                   res_exitCode := 1;
                   res_files := None;
                   res_contextId := "error" |}
  /\ fst (executeCommand "container-1002"
            "pip install --no-cache-dir nonexistent-pkg-xyz"
            (world (failingInstall aliceOne)))
     = Resolved {| output := Some EmptyString;
                   error := Some "ERROR: No matching distribution found";
                   executionTime := 1;
                   exitCode := 1 |}
  /\ fst run = Resolved tt
  /\ calls (snd run)
     = (calls aliceOne
          ++ List.map (installed true "container-1002"
                         ["pip"; "install"; "--no-cache-dir"]) batch)%list
  /\ installedPackages (deref (store (snd run)) 0%nat) = batch.
Proof. vm_compute. repeat split; reflexivity. Qed.

End Runs.

(** ** The general statements at concrete runs *)

Section RegistryRuns.
Import Docker SessionFree Scripted Scenario.


Lemma getOrCreate_idempotent_while_alive_witness :
  let first := getOrCreatePersistentContext "alice" "python"
                 (initial (quiet 1000)) in
  fst first = Resolved 0%nat
  /\ exists st2,
       getOrCreatePersistentContext "alice" "python" (snd first)
         = (Resolved 0%nat, st2)
       /\ persistentContexts st2 = persistentContexts (snd first)
       /\ store st2 = store (snd first)
       /\ creations (calls st2) = 1%nat.
Proof.
  intros first.
  assert (H1 : getOrCreatePersistentContext "alice" "python"
                 (initial (quiet 1000)) = (Resolved 0%nat, snd first))
    by (vm_compute; reflexivity).
  split; [vm_compute; reflexivity|].
  destruct (getOrCreate_idempotent_while_alive "alice" "python"
              (initial (quiet 1000)) (snd first) 0%nat
              {| output := Some EmptyString; error := Some EmptyString;
                 executionTime := 1; exitCode := 0 |}
              (tick (world (snd first))) H1)
    as (st2 & Hrun & _ & Hreg & Hstore & _ & Hcreate & _).
  - vm_compute. reflexivity.
  - exists st2. split; [exact Hrun|]. split; [exact Hreg|].
    split; [exact Hstore|]. rewrite Hcreate. vm_compute. reflexivity.
Defined.

Lemma installPackages_one_command_per_new_occurrence_witness :
  let run := installPackages 0%nat ["requests"; "numpy"; "numpy"] aliceOne in
  fst run = Resolved tt
  /\ calls (snd run)
     = (calls aliceOne
          ++ List.map (installed true "container-1002"
                         ["pip"; "install"; "--no-cache-dir"])
                      ["requests"; "numpy"; "numpy"])%list.
Proof.
  intros run.
  assert (Hres : fst run = Resolved tt) by (vm_compute; reflexivity).
  split; [exact Hres|].
  pose proof (installPackages_one_command_per_new_occurrence
                0%nat ["requests"; "numpy"; "numpy"]
                ["pip"; "install"; "--no-cache-dir"] aliceOne
                (fst run) (snd run)) as H.
  cbv zeta in H. rewrite Hres in H.
  destruct H as [_ Hcalls].
  - vm_compute. reflexivity.
  - rewrite <- Hres. vm_compute. reflexivity.
  - exact Hcalls.
Defined.

Lemma installPackages_stops_at_first_failure_witness :
  let st := withoutPackage aliceOne in
  let run :=
    installPackages 0%nat ["requests"; "nonexistent-pkg-xyz"; "flask"] st in
  fst run = Rejected "Failed to install package: nonexistent-pkg-xyz"
  /\ exists done name rest,
       ["requests"; "nonexistent-pkg-xyz"; "flask"]
       = (done ++ name :: rest)%list
       /\ calls (snd run)
          = (calls st
               ++ List.map (installed true "container-1002"
                              ["pip"; "install"; "--no-cache-dir"]) done
               ++ [installed false "container-1002"
                     ["pip"; "install"; "--no-cache-dir"] name])%list
       /\ installedPackages (deref (store (snd run)) 0%nat)
          = fold_left Js.set_add done [].
Proof.
  intros st run.
  assert (Hres : fst run
                 = Rejected "Failed to install package: nonexistent-pkg-xyz")
    by (vm_compute; reflexivity).
  split; [exact Hres|].
  pose proof (installPackages_stops_at_first_failure
                0%nat ["requests"; "nonexistent-pkg-xyz"; "flask"]
                ["pip"; "install"; "--no-cache-dir"] st
                (fst run) (snd run)) as H.
  cbv zeta in H. rewrite Hres in H.
  destruct H as (done & name & rest & Hsplit & _ & Hcalls & Hinst & _).
  - vm_compute. lia.
  - vm_compute. reflexivity.
  - rewrite <- Hres. vm_compute. reflexivity.
  - exists done, name, rest. repeat split; assumption.
Defined.

End RegistryRuns.

(** ** The room sweep *)

Section RoomSweepFacts.
Import Docker Async Terminal.
Context {W : Type} `{EN : Engine W}.
Local Open Scope async_scope.

Lemma isUnused_true (t : Z) (r : RoomTerminal) :
  isUnused t r = true ->
  maxUnusedTime < t - lastActivity r /\ activeSessions r = [].
Proof.
  unfold isUnused. intros H. apply andb_true_iff in H.
  destruct H as [Ht Hs]. apply Z.ltb_lt in Ht. split; [exact Ht|].
  apply Nat.eqb_eq in Hs. unfold Js.size in Hs.
  now apply length_zero_iff_nil.
Qed.

(** Deleting the key of an entry of a map with one entry per key takes
    out that entry, where it stands. *)
Lemma delete_middle {V} (front back : Js.map V) (k : string) (v : V) :
  Js.uniqueKeys (front ++ (k, v) :: back)%list = true ->
  Js.delete (front ++ (k, v) :: back)%list k = (front ++ back)%list.
Proof.
  induction front as [|[k' v'] front IH]; cbn [app Js.uniqueKeys Js.delete];
    intros Hu; apply andb_true_iff in Hu; destruct Hu as [Hfresh Hu];
    apply negb_true_iff in Hfresh; unfold Js.has in Hfresh.
  - rewrite String.eqb_refl. apply delete_absent.
    now destruct (Js.get back k).
  - destruct (String.eqb k' k) eqn:E.
    + apply String.eqb_eq in E. subst k'.
      rewrite (In_unique_get _ k v Hu) in Hfresh; [discriminate|].
      apply in_or_app. right. now left.
    + now rewrite IH.
Qed.

Lemma skipn_length_app {A} (front back : list A) :
  skipn (List.length front) (front ++ back)%list = back.
Proof. induction front as [|x front IH]; [reflexivity | exact IH]. Qed.

(** The sweep from the entries [rest] on, when no event is handled while
    it is suspended: it returns; it keeps the rooms that are not unused
    when it visits them; every call it makes is the stop or the removal of
    the container of a room that was unused. *)
Lemma visitRooms_uninterrupted (t : Z) (rest : list (string * ref)) :
  forall (front : list (string * ref)) (fuel : nat) (st : State W)
         (res : Outcome Sweep) (st' : State W),
    roomTerminals st = (front ++ rest)%list ->
    Js.uniqueKeys (roomTerminals st) = true ->
    (2 * List.length rest <= fuel)%nat ->
    bind (visitRooms t (List.length front) rest) (finishSweep fuel) st
    = (res, st') ->
    res = Resolved SweepDone
    /\ rooms st' = rooms st
    /\ sessions st' = sessions st
    /\ userSessions st' = userSessions st
    /\ Js.uniqueKeys (roomTerminals st') = true
    /\ (exists kept,
          roomTerminals st' = (front ++ kept)%list
          /\ (forall e, In e kept -> In e rest)
          /\ (forall e, In e rest ->
                isUnused t (room (rooms st) (snd e)) = false -> In e kept))
    /\ exists delta,
         calls st' = (calls st ++ delta)%list
         /\ forall c, In c delta ->
              exists e,
                In e rest
                /\ isUnused t (room (rooms st) (snd e)) = true
                /\ (c = CallStop (rt_container (room (rooms st) (snd e)))
                    \/ c = CallRemove
                             (rt_container (room (rooms st) (snd e)))).
Proof.
  induction rest as [|[k r] rest IH]; intros front fuel st res st' Hreg Hu Hfuel.
  - cbn [visitRooms]. unfold bind, ret.
    replace (finishSweep fuel SweepDone st) with (Resolved SweepDone, st)
      by (destruct fuel; reflexivity).
    intros [= <- <-]. repeat split; try assumption.
    + exists []. repeat split; [exact Hreg | intros e [] | intros e []].
    + exists []. rewrite app_nil_r. split; [reflexivity|]. intros c [].
  - (* the sweep goes on behind the entry, which stays *)
    assert (Hnext : forall fuel1 st1 delta1,
      (2 * List.length rest <= fuel1)%nat ->
      roomTerminals st1 = roomTerminals st ->
      rooms st1 = rooms st -> sessions st1 = sessions st ->
      userSessions st1 = userSessions st ->
      calls st1 = (calls st ++ delta1)%list ->
      (forall c, In c delta1 ->
         isUnused t (room (rooms st) r) = true
         /\ (c = CallStop (rt_container (room (rooms st) r))
             \/ c = CallRemove (rt_container (room (rooms st) r)))) ->
      (delta1 = [] \/ isUnused t (room (rooms st) r) = true) ->
      bind (visitRooms t (S (List.length front)) rest) (finishSweep fuel1) st1
      = (res, st') ->
      res = Resolved SweepDone
      /\ rooms st' = rooms st
      /\ sessions st' = sessions st
      /\ userSessions st' = userSessions st
      /\ Js.uniqueKeys (roomTerminals st') = true
      /\ (exists kept,
            roomTerminals st' = (front ++ kept)%list
            /\ (forall e, In e kept -> In e ((k, r) :: rest))
            /\ (forall e, In e ((k, r) :: rest) ->
                  isUnused t (room (rooms st) (snd e)) = false -> In e kept))
      /\ exists delta,
           calls st' = (calls st ++ delta)%list
           /\ forall c, In c delta ->
                exists e,
                  In e ((k, r) :: rest)
                  /\ isUnused t (room (rooms st) (snd e)) = true
                  /\ (c = CallStop (rt_container (room (rooms st) (snd e)))
                      \/ c = CallRemove
                               (rt_container (room (rooms st) (snd e))))).
    { intros fuel1 st1 delta1 Hf1 Hreg1 Hro1 Hse1 Hus1 Hc1 Hd1 _ Hrun.
      replace (S (List.length front))
        with (List.length (front ++ [(k, r)])%list) in Hrun
        by (rewrite length_app; cbn [List.length]; lia).
      apply IH in Hrun; [|rewrite Hreg1, Hreg, <- app_assoc; reflexivity
                         |now rewrite Hreg1 | exact Hf1].
      destruct Hrun as (-> & Hro & Hse & Hus & Hu' & (kept & Hk & Hin & Hout)
                        & delta & Hc & Hd).
      rewrite Hro1 in *.
      split; [reflexivity|]. split; [exact Hro|].
      split; [congruence|]. split; [congruence|]. split; [exact Hu'|].
      split.
      - exists ((k, r) :: kept). split; [now rewrite Hk, <- app_assoc|].
        split.
        + intros e [<-|He]; [now left | right; now apply Hin].
        + intros e [<-|He] Hun; [now left | right; now apply Hout].
      - exists (delta1 ++ delta)%list. split.
        + now rewrite Hc, Hc1, app_assoc.
        + intros c Hc'. apply in_app_or in Hc'. destruct Hc' as [Hc'|Hc'].
          * exists (k, r). split; [now left|]. cbn [snd]. now apply Hd1.
          * destruct (Hd c Hc') as (e & He & Hun & Hcall).
            exists e. split; [now right|]. now split. }
    cbn [visitRooms]. unfold bind at 1. unfold bind at 1. unfold gets at 1.
    destruct (isUnused t (room (rooms st) r)) eqn:U.
    2:{ intros Hrun.
        apply (Hnext fuel st []); try reflexivity;
          [cbn [List.length] in Hfuel; lia | now rewrite app_nil_r
          | intros c [] | now left | exact Hrun]. }
    pose proof (skipn_length_app (front ++ [(k, r)])%list rest) as Hskip.
    rewrite <- app_assoc, length_app, Nat.add_1_r in Hskip.
    cbn [app List.length] in Hskip.
    set (c := rt_container (room (rooms st) r)) in *.
    unfold bind at 1. unfold settle at 1. unfold engine at 1.
    destruct (containerStop c (world st)) as [o1 w1].
    unfold ret at 1.
    destruct fuel as [|fuel]; [cbn [List.length] in Hfuel; lia|].
    cbn [finishSweep]. unfold bind at 1.
    destruct o1 as [[]|err1]; cbn [resumeSweep].
    + (* the container has stopped *)
      unfold bind at 1. unfold gets at 1.
      cbn [rooms log_call set_world]. fold c.
      unfold bind at 1. unfold settle at 1. unfold engine at 1.
      cbn [world log_call set_world].
      destruct (containerRemove c w1) as [o2 w2].
      unfold ret at 1.
      destruct fuel as [|fuel]; [cbn [List.length] in Hfuel; lia|].
      cbn [finishSweep]. unfold bind at 1.
      destruct o2 as [[]|err2]; cbn [resumeSweep].
      * (* and is removed: the room is deleted *)
        unfold bind at 1. unfold modify at 1.
        unfold resumeLoop. unfold bind at 1. unfold gets at 1.
        cbn [roomTerminals set_roomTerminals log_call set_world].
        rewrite Hreg, delete_middle by (now rewrite <- Hreg).
        rewrite skipn_length_app.
        match goal with
        | |- match visitRooms _ _ _ ?s with _ => _ end = _ -> _ =>
            set (st2 := s)
        end.
        intros Hrun.
        change (bind (visitRooms t (List.length front) rest)
                  (finishSweep fuel) st2 = (res, st')) in Hrun.
        apply IH in Hrun;
          [|reflexivity
           |cbn [roomTerminals st2 set_roomTerminals];
            rewrite <- (delete_middle front rest k r)
              by (now rewrite <- Hreg);
            apply uniqueKeys_delete; now rewrite <- Hreg
           |cbn [List.length] in Hfuel; lia].
        destruct Hrun as (-> & Hro & Hse & Hus & Hu' & (kept & Hk & Hin & Hout)
                          & delta & Hc & Hd).
        cbn [rooms sessions userSessions calls st2 set_roomTerminals
               log_call set_world] in Hro, Hse, Hus, Hc, Hd, Hout.
        repeat (split; [assumption || reflexivity|]).
        split.
        -- exists kept. split; [exact Hk|]. split.
           ++ intros e He. right. now apply Hin.
           ++ intros e [<-|He] Hun; [cbn [snd] in Hun; congruence|].
              now apply Hout.
        -- exists ([CallStop c; CallRemove c] ++ delta)%list. split.
           ++ rewrite Hc, <- !app_assoc. reflexivity.
           ++ intros x Hx. apply in_app_or in Hx. destruct Hx as [Hx|Hx].
              ** exists (k, r). split; [now left|]. split; [exact U|].
                 cbn [snd]. fold c. destruct Hx as [<-|[<-|[]]]; tauto.
              ** destruct (Hd x Hx) as (e & He & Hun & Hcall).
                 exists e. split; [now right|]. now split.
      * (* the removal was rejected *)
        unfold resumeLoop. unfold bind at 1. unfold gets at 1.
        cbn [roomTerminals log_call set_world].
        rewrite Hreg, Hskip.
        match goal with
        | |- match visitRooms _ _ _ ?s with _ => _ end = _ -> _ =>
            set (st2 := s)
        end.
        intros Hrun.
        change (bind (visitRooms t (S (List.length front)) rest)
                  (finishSweep fuel) st2 = (res, st')) in Hrun.
        revert Hrun.
        apply (Hnext fuel st2 [CallStop c; CallRemove c]);
          try reflexivity;
          [cbn [List.length] in Hfuel; lia
          |cbn [calls st2 log_call set_world]; now rewrite <- app_assoc
          |intros x [<-|[<-|[]]]; split; tauto
          |now right].
    + (* the stop was rejected *)
      unfold resumeLoop. unfold bind at 1. unfold gets at 1.
      cbn [roomTerminals log_call set_world].
      rewrite Hreg, Hskip.
      match goal with
      | |- match visitRooms _ _ _ ?s with _ => _ end = _ -> _ =>
          set (st2 := s)
      end.
      intros Hrun.
      change (bind (visitRooms t (S (List.length front)) rest)
                (finishSweep fuel) st2 = (res, st')) in Hrun.
      revert Hrun.
      apply (Hnext fuel st2 [CallStop c]);
        try reflexivity;
        [cbn [List.length] in Hfuel; lia
        |intros x [<-|[]]; split; tauto
        |now right].
Qed.

(** When nothing happens while the sweep is suspended, the test of the
    loop does what it is there for: the method returns, a room that has a
    session when the sweep starts stays registered and untouched, however
    old its [lastActivity], and every room that is removed and every
    container that is stopped or removed belongs to a room that was idle
    for more than [maxUnusedTime] (one hour) with an empty
    [activeSessions]. *)
Lemma uninterrupted_sweep_spares_rooms_with_sessions (st : State W)
    (res : Outcome Sweep) (st' : State W) :
  Js.uniqueKeys (roomTerminals st) = true ->
  sweepUninterrupted st = (res, st') ->
  let t := fst (newDate (world st)) in
  res = Resolved SweepDone
  /\ (forall roomId r,
        Js.get (roomTerminals st) roomId = Some r ->
        activeSessions (room (rooms st) r) <> [] ->
        Js.get (roomTerminals st') roomId = Some r
        /\ room (rooms st') r = room (rooms st) r)
  /\ (forall roomId r,
        Js.get (roomTerminals st) roomId = Some r ->
        Js.get (roomTerminals st') roomId <> Some r ->
        maxUnusedTime < t - lastActivity (room (rooms st) r)
        /\ activeSessions (room (rooms st) r) = [])
  /\ exists delta,
       calls st' = (calls st ++ delta)%list
       /\ forall c, In c delta ->
            exists roomId r,
              In (roomId, r) (roomTerminals st)
              /\ (c = CallStop (rt_container (room (rooms st) r))
                  \/ c = CallRemove (rt_container (room (rooms st) r)))
              /\ maxUnusedTime < t - lastActivity (room (rooms st) r)
              /\ activeSessions (room (rooms st) r) = [].
Proof.
  intros Huniq Hrun t.
  unfold sweepUninterrupted in Hrun.
  unfold bind at 1 in Hrun. unfold gets at 1 in Hrun.
  unfold cleanupUnusedRoomTerminals in Hrun.
  unfold bind at 1 2 in Hrun. unfold now in Hrun.
  subst t. destruct (newDate (world st)) as [t w] eqn:Hnow. cbn [fst].
  unfold resumeLoop in Hrun. unfold bind at 1 in Hrun.
  unfold gets at 1 in Hrun. cbn [roomTerminals set_world skipn] in Hrun.
  change (bind (visitRooms t (List.length (@nil (string * ref)))
                  (roomTerminals st))
            (finishSweep (2 * List.length (roomTerminals st)))
            (set_world w st) = (res, st')) in Hrun.
  apply visitRooms_uninterrupted in Hrun;
    [|reflexivity | exact Huniq | cbn [roomTerminals set_world]; lia].
  cbn [rooms sessions userSessions roomTerminals calls set_world app]
    in Hrun.
  destruct Hrun as (-> & Hrooms & _ & _ & Hu' & (kept & Hk & Hin & Hout)
                    & delta & Hcalls & Hdelta).
  assert (Hsame : forall roomId r,
            Js.get (roomTerminals st) roomId = Some r ->
            isUnused t (room (rooms st) r) = false ->
            Js.get (roomTerminals st') roomId = Some r).
  { intros roomId r Hget Hun. apply In_unique_get; [exact Hu'|].
    rewrite Hk. apply (Hout (roomId, r)); [now apply get_In | exact Hun]. }
  split; [reflexivity|]. split; [|split].
  - intros roomId r Hget Hsess. split; [|now rewrite Hrooms].
    apply Hsame; [exact Hget|].
    destruct (isUnused t (room (rooms st) r)) eqn:U; [|reflexivity].
    apply isUnused_true in U. destruct U as [_ U]. contradiction.
  - intros roomId r Hget Hgone.
    destruct (isUnused t (room (rooms st) r)) eqn:U.
    + now apply isUnused_true.
    + exfalso. apply Hgone. now apply Hsame.
  - exists delta. split; [exact Hcalls|].
    intros c Hc. destruct (Hdelta c Hc) as ([k r] & He & Hun & Hcall).
    exists k, r. cbn [snd] in *. split; [exact He|]. split; [exact Hcall|].
    now apply isUnused_true.
Qed.

End RoomSweepFacts.

(** ** The session sweep *)

Section SessionSweepFacts.
Import Docker Async Terminal.
Context {W : Type} `{EN : Engine W}.
Local Open Scope async_scope.

Lemma room_update_other (h : list RoomTerminal) (r r' : ref)
    (f : RoomTerminal -> RoomTerminal) :
  r' <> r -> room (SessionFree.update h r f) r' = room h r'.
Proof.
  unfold room. revert r r'.
  induction h as [|x t IH]; intros [|r] [|r'] Hne; simpl;
    try reflexivity; try congruence.
  apply IH. congruence.
Qed.

Lemma room_update_same (h : list RoomTerminal) (r : ref)
    (f : RoomTerminal -> RoomTerminal) :
  (r < List.length h)%nat -> room (SessionFree.update h r f) r = f (room h r).
Proof.
  unfold room. revert r.
  induction h as [|x t IH]; intros [|r] Hr; simpl in *; try lia.
  - reflexivity.
  - apply IH. lia.
Qed.

Lemma update_overflow {A} (h : list A) (r : nat) (f : A -> A) :
  (List.length h <= r)%nat -> SessionFree.update h r f = h.
Proof.
  revert r. induction h as [|x t IH]; intros [|r] Hr; simpl in *;
    try reflexivity; try lia.
  rewrite IH; [reflexivity | lia].
Qed.

(** Taking [k] out of the [activeSessions] of room [r]. *)
Lemma leave_room (h : list RoomTerminal) (r : ref) (k : string) :
  let h' := SessionFree.update h r (fun t =>
              with_activeSessions (Js.delete (activeSessions t) k) t) in
  Js.get (activeSessions (room h' r)) k = None
  /\ (forall r' k', k' <> k ->
        Js.get (activeSessions (room h' r')) k'
        = Js.get (activeSessions (room h r')) k')
  /\ (forall r',
        Js.get (activeSessions (room h' r')) k = None
        \/ Js.get (activeSessions (room h' r')) k
           = Js.get (activeSessions (room h r')) k).
Proof.
  intros h'. subst h'.
  destruct (Nat.lt_ge_cases r (List.length h)) as [Hlt|Hge].
  - split; [|split].
    + rewrite room_update_same by exact Hlt. apply get_delete_same.
    + intros r' k' Hk.
      destruct (Nat.eq_dec r' r) as [->|Hne].
      * rewrite room_update_same by exact Hlt.
        now apply get_delete_other.
      * now rewrite room_update_other.
    + intros r'. destruct (Nat.eq_dec r' r) as [->|Hne].
      * left. rewrite room_update_same by exact Hlt. apply get_delete_same.
      * right. now rewrite room_update_other.
  - rewrite update_overflow by exact Hge.
    split; [|split]; try tauto.
    unfold room. now rewrite nth_overflow.
Qed.

(** Closing the stream of a session touches the outside world only. *)
Lemma endStream_frame (s : TerminalSession) (st : State W) :
  exists st1,
    match execInstance s with
    | Some {| exec_stream := Some stream |} =>
        tryCatch (engine (CallEnd stream) (streamEnd stream))
                 (fun _ => ret tt)
    | _ => ret tt
    end st = (Resolved tt, st1)
    /\ roomTerminals st1 = roomTerminals st
    /\ userSessions st1 = userSessions st
    /\ rooms st1 = rooms st
    /\ sessions st1 = sessions st.
Proof.
  destruct (execInstance s) as [[e [stream|]]|];
    try (exists st; now repeat split).
  unfold tryCatch, engine, ret.
  destruct (streamEnd stream (world st)) as [[[]|err] w];
    eexists; split; try reflexivity; now repeat split.
Qed.

Lemma handleDisconnect_spec (k : string) (st : State W) :
  exists st',
    handleDisconnect k st = (Resolved tt, st')
    /\ sessions st' = sessions st
    /\ roomTerminals st' = roomTerminals st
    /\ userSessions st' = Js.delete (userSessions st) k
    /\ (forall r' k', k' <> k ->
          Js.get (activeSessions (room (rooms st') r')) k'
          = Js.get (activeSessions (room (rooms st) r')) k')
    /\ (forall r',
          Js.get (activeSessions (room (rooms st') r')) k = None
          \/ Js.get (activeSessions (room (rooms st') r')) k
             = Js.get (activeSessions (room (rooms st) r')) k)
    /\ (forall r rr,
          Js.get (userSessions st) k = Some r ->
          Js.get (roomTerminals st) (roomId (session (sessions st) r))
            = Some rr ->
          Js.get (activeSessions (room (rooms st') rr)) k = None).
Proof.
  unfold handleDisconnect. unfold bind at 1. unfold gets at 1.
  destruct (Js.get (userSessions st) k) as [r|] eqn:G.
  - unfold bind at 1. unfold gets at 1.
    set (s := session (sessions st) r).
    unfold bind at 1.
    destruct (endStream_frame s st) as (st1 & -> & Hrt & Hus & Hro & Hse).
    unfold bind at 1. unfold gets at 1. rewrite Hrt.
    destruct (Js.get (roomTerminals st) (roomId s)) as [rr|] eqn:R.
    + unfold bind, mutateRoom, modify, ret.
      eexists. split; [reflexivity|].
      cbn [sessions roomTerminals userSessions rooms set_rooms
             set_userSessions].
      rewrite Hro, Hus, Hse, Hrt.
      destruct (leave_room (rooms st) rr k) as (Hgone & Hother & Hmono).
      repeat split; try assumption.
      intros r0 rr0 [= <-]. fold s. rewrite R. now intros [= <-].
    + unfold bind, modify, ret.
      eexists. split; [reflexivity|].
      cbn [sessions roomTerminals userSessions rooms set_rooms
             set_userSessions].
      rewrite Hro, Hus, Hse, Hrt.
      repeat split; try tauto.
      intros r0 rr0 [= <-]. fold s. rewrite R. discriminate.
  - unfold ret. exists st.
    rewrite delete_absent by exact G.
    repeat split; try tauto. discriminate.
Qed.

(** A session is stale once more than [maxInactiveTime] has passed since
    its [startTime]. *)
Lemma sweepSession_spec (t : Z) (e : string * ref) (st : State W) :
  exists st',
    sweepSession t e st = (Resolved tt, st')
    /\ (isStale t (session (sessions st) (snd e)) = false
        -> st' = st)
    /\ (isStale t (session (sessions st) (snd e)) = true
        -> handleDisconnect (fst e) st = (Resolved tt, st')).
Proof.
  unfold sweepSession. unfold bind, gets.
  destruct (isStale t (session (sessions st) (snd e))).
  - destruct (handleDisconnect_spec (fst e) st) as (st' & H & _).
    exists st'. rewrite H. repeat split; try discriminate.
  - exists st. unfold ret. repeat split; try discriminate.
Qed.

Lemma sweepSessions_spec (t : Z) (entries : list (string * ref))
    (st : State W) (res : Outcome unit) (st' : State W) :
  Js.uniqueKeys entries = true ->
  (forall e, In e entries -> Js.get (userSessions st) (fst e) = Some (snd e)) ->
  forEach entries (sweepSession t) st = (res, st') ->
  res = Resolved tt
  /\ sessions st' = sessions st
  /\ roomTerminals st' = roomTerminals st
  /\ (forall k, Js.get (userSessions st') k = None
                \/ Js.get (userSessions st') k = Js.get (userSessions st) k)
  /\ (forall k rr,
        Js.get (activeSessions (room (rooms st') rr)) k = None
        \/ Js.get (activeSessions (room (rooms st') rr)) k
           = Js.get (activeSessions (room (rooms st) rr)) k)
  /\ (forall k r,
        In (k, r) entries ->
        isStale t (session (sessions st) r) = true ->
        Js.get (userSessions st') k = None
        /\ forall rr,
             Js.get (roomTerminals st) (roomId (session (sessions st) r))
               = Some rr ->
             Js.get (activeSessions (room (rooms st') rr)) k = None)
  /\ (forall k,
        (forall e, In e entries -> fst e = k ->
           isStale t (session (sessions st) (snd e)) = false) ->
        Js.get (userSessions st') k = Js.get (userSessions st) k
        /\ forall rr,
             Js.get (activeSessions (room (rooms st') rr)) k
             = Js.get (activeSessions (room (rooms st) rr)) k).
Proof.
  revert st. induction entries as [|[k0 r0] rest IH]; intros st Hu Hagree;
    cbn [forEach].
  - unfold ret. intros [= <- <-].
    split; [reflexivity|]. split; [reflexivity|]. split; [reflexivity|].
    split; [tauto|]. split; [tauto|]. split; [intros k r []|].
    intros k _. now split.
  - cbn [Js.uniqueKeys] in Hu. apply andb_true_iff in Hu.
    destruct Hu as [Hfresh Hu]. apply negb_true_iff in Hfresh.
    assert (Hk0 : forall e, In e rest -> fst e <> k0).
    { intros [k r] Hin Heq. cbn [fst] in Heq. subst k.
      unfold Js.has in Hfresh.
      now rewrite (In_unique_get _ _ _ Hu Hin) in Hfresh. }
    destruct (sweepSession_spec t (k0, r0) st) as (st1 & Hstep & Hfalse & Htrue).
    cbn [fst snd] in Hfalse, Htrue.
    unfold bind at 1. rewrite Hstep. intros Hrest.
    destruct (handleDisconnect_spec k0 st)
      as (st1' & Hd & Hse & Hrt & Hus & Hother & Hmono & Hgone).
    (* what the step did, in both cases *)
    assert (Hstep1 :
      sessions st1 = sessions st
      /\ roomTerminals st1 = roomTerminals st
      /\ (forall k, k <> k0 ->
            Js.get (userSessions st1) k = Js.get (userSessions st) k)
      /\ (forall k rr, k <> k0 ->
            Js.get (activeSessions (room (rooms st1) rr)) k
            = Js.get (activeSessions (room (rooms st) rr)) k)
      /\ (Js.get (userSessions st1) k0 = None
          \/ Js.get (userSessions st1) k0 = Js.get (userSessions st) k0)
      /\ (forall rr,
            Js.get (activeSessions (room (rooms st1) rr)) k0 = None
            \/ Js.get (activeSessions (room (rooms st1) rr)) k0
               = Js.get (activeSessions (room (rooms st) rr)) k0)).
    { destruct (isStale t (session (sessions st) r0)) eqn:S.
      - rewrite (Htrue eq_refl) in Hd. injection Hd as <-.
        repeat split; try assumption.
        + intros k Hk. rewrite Hus. now apply get_delete_other.
        + intros k rr Hk. now apply Hother.
        + left. rewrite Hus. apply get_delete_same.
      - rewrite (Hfalse eq_refl). repeat split; tauto. }
    destruct Hstep1 as (Hse1 & Hrt1 & Hus1 & Hro1 & Hus0 & Hro0).
    apply IH in Hrest; [|exact Hu|].
    2:{ intros e He. rewrite Hus1 by now apply Hk0.
        apply Hagree. now right. }
    destruct Hrest as (-> & Hse' & Hrt' & Hmu & Hmr & Hstale & Hfreshk).
    rewrite Hse1 in *. rewrite Hrt1 in *.
    split; [reflexivity|]. split; [exact Hse'|]. split; [exact Hrt'|].
    split; [|split; [|split]].
    + intros k. destruct (Hmu k) as [H|H]; [now left|]. rewrite H.
      destruct (String.eqb k k0) eqn:E.
      * apply String.eqb_eq in E. subst k. exact Hus0.
      * right. apply Hus1. intros ->. now rewrite String.eqb_refl in E.
    + intros k rr. destruct (Hmr k rr) as [H|H]; [now left|]. rewrite H.
      destruct (String.eqb k k0) eqn:E.
      * apply String.eqb_eq in E. subst k. apply Hro0.
      * right. apply Hro1. intros ->. now rewrite String.eqb_refl in E.
    + intros k r [[= -> ->]|Hin] Hst.
      * rewrite (Htrue Hst) in Hd. injection Hd as <-.
        split.
        -- destruct (Hmu k) as [H|H]; [exact H|].
           rewrite H, Hus. apply get_delete_same.
        -- intros rr Hroom. destruct (Hmr k rr) as [H|H]; [exact H|].
           rewrite H. eapply Hgone; [|exact Hroom].
           apply (Hagree (k, r)). now left.
      * apply (Hstale k r Hin Hst).
    + intros k Hk.
      assert (Hrestk : forall e, In e rest -> fst e = k ->
                isStale t (session (sessions st) (snd e)) = false)
        by (intros e He; apply Hk; now right).
      destruct (Hfreshk k Hrestk) as [Hu' Hr'].
      destruct (String.eqb k k0) eqn:E.
      * apply String.eqb_eq in E. subst k.
        specialize (Hk (k0, r0) (or_introl eq_refl) eq_refl).
        cbn [snd] in Hk. rewrite (Hfalse Hk) in *. now split.
      * assert (Hne : k <> k0)
          by (intros ->; now rewrite String.eqb_refl in E).
        split; [now rewrite Hu', Hus1 |].
        intros rr. now rewrite Hr', Hro1.
Qed.

End SessionSweepFacts.

(** ** Terminal input does not postpone the session sweep *)

Section InputFacts.
Import Docker Async Terminal.
Context {W : Type} `{EN : Engine W}.
Local Open Scope async_scope.

Lemma sameMembership_refl (st : State W) : sameMembership st st.
Proof. unfold sameMembership. repeat split. Qed.

Lemma sameMembership_trans (a b c : State W) :
  sameMembership a b -> sameMembership b c -> sameMembership a c.
Proof.
  intros (H1 & H2 & H3 & H4) (K1 & K2 & K3 & K4).
  unfold sameMembership. split; [congruence|]. split; [congruence|].
  split.
  - intros r. destruct (H3 r), (K3 r). split; congruence.
  - intros r. rewrite K4. apply H4.
Qed.

Lemma keeps_ret {A} (a : A) : keepsMembership (W := W) (ret a).
Proof. intros st res st' [= _ <-]. apply sameMembership_refl. Qed.

Lemma keeps_gets {A} (f : State W -> A) : keepsMembership (gets f).
Proof. intros st res st' [= _ <-]. apply sameMembership_refl. Qed.

Lemma keeps_bind {A B} (c : Async.M (State W) A)
    (k : A -> Async.M (State W) B) :
  keepsMembership c -> (forall a, keepsMembership (k a)) ->
  keepsMembership (bind c k).
Proof.
  intros Hc Hk st res st'. unfold bind.
  destruct (c st) as [[a|e] st1] eqn:E.
  - intros Hrun. eapply sameMembership_trans; [eapply Hc, E|].
    eapply Hk, Hrun.
  - intros [= _ <-]. eapply Hc, E.
Qed.

Lemma keeps_tryCatch {A} (c : Async.M (State W) A)
    (h : string -> Async.M (State W) A) :
  keepsMembership c -> (forall e, keepsMembership (h e)) ->
  keepsMembership (tryCatch c h).
Proof.
  intros Hc Hh st res st'. unfold tryCatch.
  destruct (c st) as [[a|e] st1] eqn:E.
  - intros [= _ <-]. eapply Hc, E.
  - intros Hrun. eapply sameMembership_trans; [eapply Hc, E|].
    eapply Hh, Hrun.
Qed.

Lemma keeps_emit (e : Emitted) : keepsMembership (W := W) (emit e).
Proof.
  intros st res st'. unfold emit, modify. intros [= _ <-].
  unfold sameMembership. repeat split.
Qed.

Lemma keeps_engine {A} (c : EngineCall) (f : W -> Outcome A * W) :
  keepsMembership (engine c f).
Proof.
  intros st res st'. unfold engine.
  destruct (f (world st)) as [r w]. intros [= _ <-].
  unfold sameMembership. repeat split.
Qed.

Lemma keeps_now : keepsMembership (W := W) now.
Proof.
  intros st res st'. unfold now.
  destruct (newDate (world st)) as [t w]. intros [= _ <-].
  unfold sameMembership. repeat split.
Qed.

Lemma session_update (h : list TerminalSession) (r r' : ref)
    (e : option ExecInstance) :
  startTime (session (SessionFree.update h r (with_execInstance e)) r')
  = startTime (session h r')
  /\ roomId (session (SessionFree.update h r (with_execInstance e)) r')
     = roomId (session h r').
Proof.
  unfold session. revert r r'.
  induction h as [|x t IH]; intros [|r] [|r']; simpl; try now split.
  apply IH.
Qed.

Lemma room_touch (h : list RoomTerminal) (r r' : ref) (z : Z) :
  activeSessions (room (SessionFree.update h r (with_lastActivity z)) r')
  = activeSessions (room h r').
Proof.
  unfold room. revert r r'.
  induction h as [|x t IH]; intros [|r] [|r']; simpl; try reflexivity.
  apply IH.
Qed.

Lemma keeps_setExec (r : ref) (e : option ExecInstance) :
  keepsMembership (W := W) (mutateSession r (with_execInstance e)).
Proof.
  intros st res st'. unfold mutateSession, modify. intros [= _ <-].
  unfold sameMembership, set_sessions.
  cbn [userSessions roomTerminals sessions rooms].
  repeat split; apply session_update.
Qed.

Lemma keeps_touch (r : ref) (z : Z) :
  keepsMembership (W := W) (mutateRoom r (with_lastActivity z)).
Proof.
  intros st res st'. unfold mutateRoom, modify. intros H.
  injection H as _ Hst. subst st'.
  unfold sameMembership, set_rooms.
  cbn [userSessions roomTerminals sessions rooms].
  repeat split. intros r'. apply room_touch.
Qed.

(** Handling terminal input may start an exec, write to its stream and
    refresh the room's [lastActivity]; it never touches a [startTime] and
    never registers or removes a session. *)
Lemma onTerminalInput_keeps (socketId input : string) :
  keepsMembership (W := W) (onTerminalInput socketId input).
Proof.
  unfold onTerminalInput.
  apply keeps_tryCatch; [|intros; apply keeps_emit].
  apply keeps_bind; [apply keeps_gets|]. intros [r|]; [|apply keeps_emit].
  apply keeps_bind; [apply keeps_gets|]. intros s.
  destruct (negb (isActive s)); [apply keeps_emit|].
  apply keeps_bind.
  - destruct (execInstance s); [apply keeps_ret|].
    apply keeps_bind; [apply keeps_engine|]. intros e.
    apply keeps_bind; [apply keeps_setExec|]. intros _.
    apply keeps_bind; [apply keeps_engine|]. intros stream.
    apply keeps_setExec.
  - intros _. apply keeps_bind; [apply keeps_gets|]. intros s'.
    destruct (execInstance s') as [[e [stream|]]|]; try apply keeps_ret.
    apply keeps_bind; [apply keeps_gets|]. intros [|]; [|apply keeps_ret].
    apply keeps_bind; [apply keeps_engine|]. intros _.
    apply keeps_bind; [apply keeps_gets|]. intros [rr|]; [|apply keeps_ret].
    apply keeps_bind; [apply keeps_now|]. intros t. apply keeps_touch.
Qed.

Lemma afterInputs_keeps (inputs : list (string * string)) (st : State W) :
  sameMembership st (afterInputs inputs st).
Proof.
  unfold afterInputs. revert st.
  induction inputs as [|i rest IH]; intros st; cbn [fold_left].
  - apply sameMembership_refl.
  - eapply sameMembership_trans; [|apply IH].
    eapply onTerminalInput_keeps. apply surjective_pairing.
Qed.

(** C10, as the code has it.  The session sweep visits the entries of
    [userSessions], one session per socket, the one its last join has
    stored there.  For such a session, whatever terminal input the sockets
    have sent in the meantime, the sweep disconnects it when more than
    [maxInactiveTime] (30 minutes) has passed since the session's
    [startTime]: it is deleted from [userSessions] and from the
    [activeSessions] of its room.  A session whose [startTime] is at most
    30 minutes back is kept.  Only the age since creation decides; activity
    moves the room's [lastActivity], which the session sweep does not
    read. *)
Theorem session_sweep_reaps_by_age (st : State W)
    (inputs : list (string * string)) (socketId : string) (r : ref)
    (res : Outcome unit) (st' : State W) :
  Js.uniqueKeys (userSessions st) = true ->
  Js.get (userSessions st) socketId = Some r ->
  cleanupInactiveSessions (afterInputs inputs st) = (res, st') ->
  let t := fst (newDate (world (afterInputs inputs st))) in
  let age := t - startTime (session (sessions st) r) in
  (maxInactiveTime < age ->
   Js.get (userSessions st') socketId = None
   /\ forall rr,
        Js.get (roomTerminals st) (roomId (session (sessions st) r))
          = Some rr ->
        Js.get (activeSessions (room (rooms st') rr)) socketId = None)
  /\ (age <= maxInactiveTime ->
      Js.get (userSessions st') socketId = Some r
      /\ forall rr,
           Js.get (activeSessions (room (rooms st') rr)) socketId
           = Js.get (activeSessions (room (rooms st) rr)) socketId).
Proof.
  intros Huniq Hget Hrun t age. subst age t.
  destruct (afterInputs_keeps inputs st) as (Hus & Hrt & Hses & Hrooms).
  set (st1 := afterInputs inputs st) in *.
  unfold cleanupInactiveSessions in Hrun.
  unfold bind at 1 in Hrun. unfold now in Hrun.
  destruct (newDate (world st1)) as [t w]. cbn [fst].
  unfold bind at 1 in Hrun. unfold gets in Hrun.
  cbn [userSessions set_world] in Hrun. rewrite Hus in Hrun.
  apply sweepSessions_spec in Hrun; [|exact Huniq|].
  2:{ intros e He. cbn [userSessions set_world]. rewrite Hus.
      destruct e as [k r']. now apply In_unique_get. }
  cbn [sessions userSessions roomTerminals rooms set_world] in Hrun.
  destruct Hrun as (_ & _ & _ & _ & _ & Hstale & Hfresh).
  destruct (Hses r) as [Hstart Hroom].
  split.
  - intros Hage.
    destruct (Hstale socketId r) as [Hgone Hleft].
    + now apply get_In.
    + unfold isStale. rewrite Hstart. now apply Z.ltb_lt.
    + split; [exact Hgone|]. intros rr Hrr. apply Hleft.
      now rewrite Hroom, Hrt.
  - intros Hage.
    destruct (Hfresh socketId) as [Hkept Hin].
    + intros [k r'] Hin Hk. cbn [fst snd] in *. subst k.
      pose proof (In_unique_get _ _ _ Huniq Hin) as Hget'.
      rewrite Hget in Hget'. injection Hget' as <-.
      unfold isStale. rewrite Hstart. now apply Z.ltb_ge.
    + split; [now rewrite Hkept, Hus|].
      intros rr. now rewrite Hin, Hrooms.
Qed.

End InputFacts.

(** ** One entry per socket and per room *)

Section UniqueKeysFacts.
Import Docker Async Terminal.
Context {W : Type} `{EN : Engine W}.
Local Open Scope async_scope.

(** Joining stores the session under its socket: [userSessions] keeps one
    entry per socket. *)
Lemma joinSession_uniqueKeys (roomTerminal : ref) (u socketId : string)
    (st : State W) (res : Outcome ref) (st' : State W) :
  Js.uniqueKeys (userSessions st) = true ->
  joinSession roomTerminal u socketId st = (res, st') ->
  Js.uniqueKeys (userSessions st') = true.
Proof.
  intros Hu. unfold joinSession, createTerminalSession, newUuid, now,
    mutateRoom.
  unfold bind, gets, modify, ret.
  destruct (uuidv4 (world st)) as [sid w1]. cbn [world set_world].
  destruct (newDate w1) as [t w2]. cbn.
  intros [= _ <-]. cbn. now apply uniqueKeys_set.
Qed.

Lemma handleDisconnect_uniqueKeys (socketId : string) (st : State W)
    (res : Outcome unit) (st' : State W) :
  Js.uniqueKeys (userSessions st) = true ->
  handleDisconnect socketId st = (res, st') ->
  Js.uniqueKeys (userSessions st') = true.
Proof.
  intros Hu Hrun.
  destruct (handleDisconnect_spec socketId st) as (st1 & H & _ & _ & Hus & _).
  rewrite H in Hrun. injection Hrun as _ <-.
  rewrite Hus. now apply uniqueKeys_delete.
Qed.

End UniqueKeysFacts.

(** ** The sweeps at concrete runs *)

Section SweepRuns.
Import Docker Terminal Scripted Scenario.

(** C9.  A room that has a session is destroyed by the room sweep when
    the session joins while the sweep is suspended.  Two hours after the
    last activity in the two rooms the sweep passes [room-a], where alice
    is, finds [room-b] idle and without a session, and awaits the stop of
    its container.  [room-b] is still registered, and the
    [join-room-terminal] of bob that is handled meanwhile gives it a
    session.  The sweep does not test the room again: it goes on to remove
    the container and deletes [room-b], which is no longer unused, with
    the session of bob in its [activeSessions] and in [userSessions]. *)
Theorem room_sweep_destroys_room_joined_meanwhile :
  let run := sweepWithJoin twoRoomsLater in
  isUnused 10000000 (room (rooms twoRoomsLater) 1%nat) = true
  /\ sweepSuspended
     = (Resolved (AwaitStop 10000000 1 "room-b" 1%nat (Resolved tt)),
        snd sweepSuspended)
  /\ calls (snd sweepSuspended) = [CallStop "container-b"]
  /\ Js.get (roomTerminals (snd sweepSuspended)) "room-b" = Some 1%nat
  /\ fst bobJoined = Resolved 1%nat
  /\ activeSessions (room (rooms (snd bobJoined)) 1%nat)
     = [("socket-2", 1%nat)]
  /\ isUnused 10000000 (room (rooms (snd bobJoined)) 1%nat) = false
  /\ run
     = finishSweep 4 (AwaitStop 10000000 1 "room-b" 1%nat (Resolved tt))
         (snd bobJoined)
  /\ fst run = Resolved SweepDone
  /\ roomTerminals (snd run) = [("room-a", 0%nat)]
  /\ calls (snd run) = [CallStop "container-b"; CallRemove "container-b"]
  /\ activeSessions (room (rooms (snd run)) 1%nat) = [("socket-2", 1%nat)]
  /\ Js.get (userSessions (snd run)) "socket-2" = Some 1%nat
  /\ roomId (session (sessions (snd run)) 1%nat) = "room-b"
  /\ container (session (sessions (snd run)) 1%nat) = "container-b".
Proof. vm_compute. repeat split; reflexivity. Qed.

(** The same sweep when nothing happens meanwhile: [room-a] stays, with
    its record as it was. *)
Lemma uninterrupted_sweep_spares_rooms_with_sessions_witness :
  let run := sweepUninterrupted twoRoomsLater in
  Js.uniqueKeys (roomTerminals twoRoomsLater) = true
  /\ activeSessions (room (rooms twoRoomsLater) 0%nat) <> []
  /\ 3600000 < 10000000 - lastActivity (room (rooms twoRoomsLater) 0%nat)
  /\ fst run = Resolved SweepDone
  /\ Js.get (roomTerminals (snd run)) "room-a" = Some 0%nat
  /\ room (rooms (snd run)) 0%nat = room (rooms twoRoomsLater) 0%nat.
Proof.
  intros run.
  assert (H1 : Js.uniqueKeys (roomTerminals twoRoomsLater) = true)
    by (vm_compute; reflexivity).
  assert (H2 : sweepUninterrupted twoRoomsLater = (fst run, snd run))
    by (vm_compute; reflexivity).
  assert (H3 : activeSessions (room (rooms twoRoomsLater) 0%nat) <> [])
    by (vm_compute; discriminate).
  split; [exact H1|]. split; [exact H3|]. split; [vm_compute; reflexivity|].
  destruct (uninterrupted_sweep_spares_rooms_with_sessions
              twoRoomsLater (fst run) (snd run) H1 H2) as (Hres & Hkeep & _).
  split; [exact Hres|].
  apply (Hkeep "room-a" 0%nat); [vm_compute; reflexivity | exact H3].
Defined.

(** C10 as stated fails for a session that its socket has replaced.
    [socket-1], in [room-a] since the time 1001, has joined [room-b] as
    well: [userSessions] holds its second session, the first one is still
    in the [activeSessions] of [room-a].  Two hours on the sweep
    disconnects the second session and does not visit the first, which
    stays where it is. *)
Lemma session_sweep_misses_replaced_session :
  let run := cleanupInactiveSessions joinedTwice in
  Js.get (activeSessions (room (rooms joinedTwice) 0%nat)) "socket-1"
  = Some 0%nat
  /\ startTime (session (sessions joinedTwice) 0%nat) = 1001
  /\ Js.get (userSessions joinedTwice) "socket-1" = Some 1%nat
  /\ fst (newDate (world joinedTwice)) = 10000000
  /\ isStale 10000000 (session (sessions joinedTwice) 0%nat) = true
  /\ fst run = Resolved tt
  /\ userSessions (snd run) = []
  /\ activeSessions (room (rooms (snd run)) 1%nat) = []
  /\ Js.get (activeSessions (room (rooms (snd run)) 0%nat)) "socket-1"
     = Some 0%nat
  /\ session (sessions (snd run)) 0%nat
     = session (sessions joinedTwice) 0%nat.
Proof. vm_compute. repeat split; reflexivity. Qed.

Lemma session_sweep_reaps_by_age_witness :
  let st := afterInputs typing twoRoomsLater in
  let run := cleanupInactiveSessions st in
  Js.get (userSessions twoRoomsLater) "socket-1" = Some 0%nat
  /\ lastActivity (room (rooms st) 0%nat) = 10000007
  /\ fst (newDate (world st)) = 10000008
  /\ startTime (session (sessions twoRoomsLater) 0%nat) = 1001
  /\ Js.get (userSessions (snd run)) "socket-1" = None
  /\ Js.get (activeSessions (room (rooms (snd run)) 0%nat)) "socket-1" = None.
Proof.
  intros st run.
  assert (H1 : Js.uniqueKeys (userSessions twoRoomsLater) = true)
    by (vm_compute; reflexivity).
  assert (H2 : Js.get (userSessions twoRoomsLater) "socket-1" = Some 0%nat)
    by (vm_compute; reflexivity).
  assert (H3 : cleanupInactiveSessions (afterInputs typing twoRoomsLater)
               = (fst run, snd run)) by (vm_compute; reflexivity).
  split; [exact H2|].
  split; [vm_compute; reflexivity|].
  split; [vm_compute; reflexivity|].
  split; [vm_compute; reflexivity|].
  destruct (session_sweep_reaps_by_age twoRoomsLater typing "socket-1" 0%nat
              (fst run) (snd run) H1 H2 H3) as [Hstale _].
  destruct Hstale as [Hgone Hleft]; [vm_compute; reflexivity|].
  split; [exact Hgone|].
  apply Hleft. vm_compute. reflexivity.
Defined.

End SweepRuns.

(** ** The language queries *)

Section LanguageQueries.
Import Lang Languages.

Lemma lower_idempotent (a : ascii) : Js.lower (Js.lower a) = Js.lower a.
Proof. destruct a as [[] [] [] [] [] [] [] []]; reflexivity. Qed.

Lemma toLowerCase_idempotent (s : string) :
  Js.toLowerCase (Js.toLowerCase s) = Js.toLowerCase s.
Proof.
  induction s as [|a r IH]; cbn [Js.toLowerCase]; [reflexivity|].
  now rewrite lower_idempotent, IH.
Qed.

Lemma own_profiles_active (k : string) (t : LanguageTier) :
  Js.get ownTiers k = Some t -> isActive t = true.
Proof.
  unfold ownTiers. cbn [Js.get].
  repeat match goal with
         | |- context [String.eqb ?a k] => destruct (String.eqb a k)
         end;
    intros [= <-]; reflexivity.
Qed.

(** X1.  [getLanguageConfig] looks a name up without regard to the case
    of its ASCII letters: it finds what the table [languageTiers] holds
    under the lower-cased name, hiding nothing (every profile of the table
    is active), and so it gives the same answer for a name and for its
    lower-cased form. *)
Theorem getLanguageConfig_ignores_case (s : string) :
  getLanguageConfig s = languageTiers (Js.toLowerCase s)
  /\ getLanguageConfig (Js.toLowerCase s) = getLanguageConfig s.
Proof.
  assert (H : forall x,
            getLanguageConfig x = languageTiers (Js.toLowerCase x)).
  { intros x. unfold getLanguageConfig. cbv zeta.
    unfold languageTiers.
    destruct (Js.get ownTiers (Js.toLowerCase x)) as [t|] eqn:G.
    - now rewrite (own_profiles_active _ _ G).
    - now destruct (Js.set_has objectPrototypeMembers (Js.toLowerCase x)). }
  split; [apply H|].
  now rewrite !H, toLowerCase_idempotent.
Qed.

(** X2.  The names [getSupportedLanguages] lists are exactly the names
    under which the table has a profile of its own.  The members the
    table inherits, which the services' lookups accept, are not listed. *)
Theorem supported_iff_own_profile (k : string) :
  In k getSupportedLanguages <-> exists t, languageTiers k = Own t.
Proof.
  split.
  - intros H. vm_compute in H.
    repeat (destruct H as [<-|H]; [eexists; reflexivity|]).
    destruct H.
  - intros [t H]. unfold languageTiers in H.
    destruct (Js.get ownTiers k) as [t'|] eqn:G.
    2:{ destruct (Js.set_has objectPrototypeMembers k); discriminate. }
    apply get_In in G. unfold ownTiers in G.
    repeat (destruct G as [G|G];
            [injection G as <- _; vm_compute;
             repeat first [left; reflexivity | right]|]).
    destruct G.
Qed.

(** X3.  [getLanguagesByTier] returns, for a cost class, the profiles of
    the supported languages of that class and nothing else. *)
Theorem tier_lists_supported_profiles (c : Cost) (t : LanguageTier) :
  In t (getLanguagesByTier c)
  <-> exists k, In k getSupportedLanguages
                /\ languageTiers k = Own t /\ cost t = c.
Proof.
  split.
  - intros H. unfold getLanguagesByTier in H. apply filter_In in H.
    destruct H as [Hin Hc]. apply andb_true_iff in Hc.
    destruct Hc as [Hc _].
    assert (Hcost : cost t = c)
      by (destruct (cost t), c; try discriminate; reflexivity).
    unfold Js.values, ownTiers in Hin. cbn [List.map snd] in Hin.
    destruct Hin as [<-|[<-|[<-|[<-|[<-|[]]]]]];
      [exists "python" | exists "javascript" | exists "go"
       | exists "cpp" | exists "java"];
      (split; [|split; [reflexivity | exact Hcost]]);
      vm_compute; repeat first [left; reflexivity | right].
  - intros (k & _ & Ht & Hc).
    unfold languageTiers in Ht.
    destruct (Js.get ownTiers k) as [t'|] eqn:G.
    2:{ destruct (Js.set_has objectPrototypeMembers k); discriminate. }
    injection Ht as ->.
    unfold getLanguagesByTier. apply filter_In. split.
    + apply get_In in G. unfold Js.values.
      change t with (snd (k, t)). now apply in_map.
    + rewrite (own_profiles_active _ _ G), andb_true_r.
      subst c. now destruct (cost t).
Qed.

End LanguageQueries.

(** ** The session-free service as a whole *)

Section ServiceFacts.
Import Docker Async SessionFree Registry.
Context {W : Type} `{RT : Runtime W}.
Local Open Scope async_scope.

Lemma bind_resolved {S A B} (c : Async.M S A) (k : A -> Async.M S B)
    (st : S) (b : B) (st' : S) :
  bind c k st = (Resolved b, st') ->
  exists a s1, c st = (Resolved a, s1) /\ k a s1 = (Resolved b, st').
Proof.
  unfold bind. destruct (c st) as [[a|e] s1]; [|discriminate].
  intros H. now exists a, s1.
Qed.

(** X4.  [executeCode] never rejects.  It resolves either with the result
    of a run, which carries the exit code 0 and a list of files, or, when
    any step before or during the run threw, with the failure envelope:
    exit code 1, no output, no files, the context id ["error"] and the
    error text ["Execution failed: "] followed by the message thrown. *)
Theorem executeCode_always_resolves
    (request : SessionFreeExecutionRequest) (st : State W) :
  exists result st',
    executeCode request st = (Resolved result, st')
    /\ ((res_exitCode result = 0
         /\ exists files, res_files result = Some files)
        \/ (res_exitCode result = 1
            /\ res_output result = EmptyString
            /\ res_files result = None
            /\ res_contextId result = "error"
            /\ exists message,
                 res_error result = "Execution failed: " ++ message)).
Proof.
  unfold executeCode. unfold bind at 1. unfold now at 1.
  destruct (dateNow (world st)) as [t0 w0]. cbv zeta.
  unfold tryCatch.
  match goal with
  | |- context [match ?c ?s with _ => _ end] =>
      destruct (c s) as [[r|e] s1] eqn:E
  end.
  - exists r, s1. split; [reflexivity|]. left.
    apply bind_resolved in E. destruct E as (context & s2 & _ & E).
    apply bind_resolved in E. destruct E as (u & s3 & _ & E).
    apply bind_resolved in E. destruct E as (pr & s4 & Hpr & E).
    apply executeCodeInContext_exitCode in Hpr.
    apply bind_resolved in E. destruct E as (tUsed & s5 & _ & E).
    apply bind_resolved in E. destruct E as (u' & s6 & _ & E).
    apply bind_resolved in E. destruct E as (tEnd & s7 & _ & E).
    apply bind_resolved in E. destruct E as (c & s8 & _ & E).
    unfold ret in E. injection E as <- _. cbn.
    split; [exact Hpr | now eexists].
  - unfold bind, now. destruct (dateNow (world s1)) as [t1 w1].
    unfold ret. eexists _, _. split; [reflexivity|]. right. cbn.
    repeat split. now exists e.
Qed.

Lemma perform_invariant (op : Operation) (st : State W) :
  invariant st -> invariant (perform op st).
Proof.
  intros Hinv. destruct op as [request| |u l|u]; cbn [perform].
  - destruct (executeCode request st) as [res st'] eqn:E.
    exact (executeCode_preserves request st res st' Hinv E).
  - destruct (cleanupInactiveContexts st) as [res st'] eqn:E.
    exact (cleanupInactiveContexts_preserves st res st' Hinv E).
  - destruct (cleanupContext u l st) as [res st'] eqn:E.
    exact (cleanupContext_preserves u l st res st' Hinv E).
  - exact Hinv.
Qed.

Lemma afterOperations_invariant (ops : list Operation) (st : State W) :
  invariant st -> invariant (afterOperations ops st).
Proof.
  revert st. induction ops as [|op r IH]; intros st Hinv; [exact Hinv|].
  cbn [afterOperations fold_left]. apply IH. now apply perform_invariant.
Qed.

Lemma listing_length (u : string) (st : State W) :
  exists infos,
    getUserContexts u st = (Resolved infos, st)
    /\ List.length infos = List.length (owned st u).
Proof.
  unfold getUserContexts, gets. eexists. split; [reflexivity|].
  rewrite length_map. unfold owned.
  induction (persistentContexts st) as [|e r IH]; [reflexivity|].
  cbn [List.map filter]. unfold ownedBy at 1.
  destruct (String.eqb _ u); cbn [List.length]; now rewrite IH.
Qed.

(** X5.  Whatever operations a fresh service has served, one after the
    other (runs, idle sweeps, manual clean-ups, listings), and whatever
    the container runtime answered, the registry has one entry per key,
    and the listing [getUserContexts] of any owner shows at most
    [MAX_CONTEXTS_PER_USER] = 5 contexts. *)
Theorem listing_never_exceeds_cap (w : W) (ops : list Operation)
    (u : string) :
  let st := afterOperations ops (initial w) in
  Js.uniqueKeys (persistentContexts st) = true
  /\ exists infos,
       getUserContexts u st = (Resolved infos, st)
       /\ (List.length infos <= MAX_CONTEXTS_PER_USER)%nat.
Proof.
  intros st.
  destruct (afterOperations_invariant ops (initial w) (initial_invariant w))
    as [Hwf Hcap].
  fold st in Hwf, Hcap. split.
  - unfold wellFormed in Hwf. apply andb_true_iff in Hwf. tauto.
  - destruct (listing_length u st) as (infos & Hrun & Hlen).
    exists infos. split; [exact Hrun|]. rewrite Hlen. apply Hcap.
Qed.

(** X6.  [cleanupContext] always resolves, with a boolean that tells
    what it did.  Without a context under the key it answers [false] and
    touches nothing.  Otherwise it makes one call, [destroyContainer] on
    the context's container, and answers whether that call succeeded:
    when it did the entry is deleted, when it failed the entry stays
    registered. *)
Theorem cleanupContext_reports_what_it_did (u l : string) (st : State W) :
  exists b st',
    cleanupContext u l st = (Resolved b, st')
    /\ store st' = store st
    /\ match Js.get (persistentContexts st) (contextKey u l) with
       | None => b = false /\ st' = st
       | Some r =>
           calls st'
           = (calls st
                ++ [(CallDestroy (containerId (deref (store st) r)), b)])%list
           /\ persistentContexts st'
              = if b then Js.delete (persistentContexts st) (contextKey u l)
                else persistentContexts st
       end.
Proof.
  unfold cleanupContext. cbv zeta. unfold bind at 1.
  unfold contextsGet, gets.
  destruct (Js.get (persistentContexts st) (contextKey u l)) as [r|].
  - unfold bind at 1. unfold read, gets, tryCatch, bind, dockerDestroy.
    destruct (destroyContainer (containerId (deref (store st) r)) (world st))
      as [[[]|e] w1]; cbn [isResolved].
    + unfold contextsDelete, modify, ret, record_call.
      cbn [world persistentContexts store calls].
      eexists true, _. split; [reflexivity|]. cbn. repeat split.
    + unfold ret. eexists false, _. split; [reflexivity|]. cbn.
      repeat split.
  - unfold ret. exists false, st. repeat split.
Qed.

End ServiceFacts.

(** ** The idle sweep *)

Section IdleSweepFacts.
Import Docker Async SessionFree Registry.
Context {W : Type} `{RT : Runtime W}.
Local Open Scope async_scope.

Lemma has_false_not_key {V} (m : Js.map V) (k : string) :
  Js.has m k = false -> ~ In k (Js.keys m).
Proof.
  unfold Js.has, Js.keys. intros H Hin. apply in_map_iff in Hin.
  destruct Hin as ([k' v] & Hk & Hin). cbn [fst] in Hk. subst k'.
  destruct (Js.get m k) eqn:G; [discriminate|].
  exact (get_None_not_In _ _ v G Hin).
Qed.

Lemma keys_filter_incl {V} (P : string * V -> bool) (m : Js.map V)
    (k : string) :
  In k (Js.keys (filter P m)) -> In k (Js.keys m).
Proof.
  unfold Js.keys. intros H. apply in_map_iff in H.
  destruct H as (e & He & Hin). apply filter_In in Hin.
  apply in_map_iff. exists e. tauto.
Qed.

Lemma uniqueKeys_NoDup {V} (m : Js.map V) :
  Js.uniqueKeys m = true -> NoDup (Js.keys m).
Proof.
  induction m as [|[k v] r IH]; cbn [Js.uniqueKeys Js.keys List.map fst].
  - constructor.
  - intros H. apply andb_true_iff in H. destruct H as [Hh Hu].
    apply negb_true_iff in Hh. constructor.
    + now apply has_false_not_key.
    + now apply IH.
Qed.

Lemma NoDup_keys_filter {V} (P : string * V -> bool) (m : Js.map V) :
  NoDup (Js.keys m) -> NoDup (Js.keys (filter P m)).
Proof.
  induction m as [|[k v] r IH]; cbn [filter Js.keys List.map fst];
    [constructor|].
  intros H. inversion H as [|? ? Hk Hr]; subst.
  destruct (P (k, v)); cbn [List.map fst]; [|now apply IH].
  constructor; [|now apply IH].
  intros Hin. apply Hk. now apply (keys_filter_incl P).
Qed.

Lemma fold_delete_cons {V} (ks : list string) (m : Js.map V) (k : string)
    (v : V) :
  ~ In k ks ->
  fold_left Js.delete ks ((k, v) :: m)
  = (k, v) :: fold_left Js.delete ks m.
Proof.
  revert m. induction ks as [|k' r IH]; intros m Hk; [reflexivity|].
  cbn [fold_left Js.delete].
  destruct (String.eqb k k') eqn:E.
  - apply String.eqb_eq in E. subst. exfalso. apply Hk. now left.
  - apply IH. intros Hin. apply Hk. now right.
Qed.

(** Deleting the keys of the entries that satisfy [P] leaves the entries
    that do not. *)
Lemma delete_selected {V} (P : string * V -> bool) (m : Js.map V) :
  Js.uniqueKeys m = true ->
  fold_left Js.delete (Js.keys (filter P m)) m
  = filter (fun e => negb (P e)) m.
Proof.
  induction m as [|[k v] r IH]; [reflexivity|].
  cbn [Js.uniqueKeys filter]. intros H. apply andb_true_iff in H.
  destruct H as [Hh Hu]. apply negb_true_iff in Hh.
  destruct (P (k, v)); cbn [negb Js.keys List.map fst fold_left Js.delete].
  - rewrite String.eqb_refl. rewrite delete_absent; [now apply IH|].
    unfold Js.has in Hh. now destruct (Js.get r k).
  - rewrite fold_delete_cons; [now rewrite IH|].
    intros Hin. apply keys_filter_incl in Hin.
    now apply (has_false_not_key r k).
Qed.

(** The second loop of [cleanupInactiveContexts], over entries that are
    registered under distinct keys. *)
Lemma sweep_loop (es : list (string * ref)) (st : State W) :
  NoDup (Js.keys es) ->
  (forall e, In e es ->
             Js.get (persistentContexts st) (fst e) = Some (snd e)) ->
  exists st',
    forEach (Js.keys es) (fun key =>
      found <- contextsGet key ;;
      match found with
      | Some r =>
          context <- read r ;;
          tryCatch (dockerDestroy (containerId context))
                   (fun _ => ret tt) ;;;
          contextsDelete key
      | None => ret tt
      end) st = (Resolved tt, st')
    /\ persistentContexts st'
       = fold_left Js.delete (Js.keys es) (persistentContexts st)
    /\ store st' = store st
    /\ List.map fst (calls st')
       = (List.map fst (calls st)
            ++ List.map (fun e =>
                 CallDestroy (containerId (deref (store st) (snd e)))) es)%list.
Proof.
  revert st. induction es as [|[k r] rest IH]; intros st Hnd Hreg.
  - exists st. cbn. rewrite app_nil_r. repeat split.
  - cbn [Js.keys List.map fst] in Hnd |- *.
    inversion Hnd as [|? ? Hk Hrest]; subst.
    cbn [forEach]. unfold bind at 1. unfold bind at 1.
    unfold contextsGet at 1. unfold gets at 1.
    pose proof (Hreg (k, r) (or_introl eq_refl)) as Hget.
    cbn [fst snd] in Hget. rewrite Hget.
    unfold bind at 1. unfold read, gets.
    unfold bind at 1. unfold tryCatch, dockerDestroy.
    destruct (destroyContainer (containerId (deref (store st) r)) (world st))
      as [[[]|e] w1]; unfold ret, contextsDelete, modify, record_call;
      cbn [world persistentContexts store calls];
      match goal with
      | |- context [forEach _ _ ?s] =>
          destruct (IH s Hrest) as (st' & Hrun & Hregs & Hstore & Hcalls)
      end;
      try (intros e' He'; cbn [persistentContexts];
           rewrite get_delete_other;
           [apply Hreg; now right|];
           intros Heq; apply Hk; rewrite <- Heq;
           unfold Js.keys; now apply in_map);
      exists st'; (split; [exact Hrun|]);
      cbn [persistentContexts store calls] in Hregs, Hstore, Hcalls;
      (split; [exact Hregs|]); (split; [exact Hstore|]);
      rewrite Hcalls, map_app, <- app_assoc; reflexivity.
Qed.

(** X7.  The idle sweep [cleanupInactiveContexts] reads the clock once
    and removes exactly the contexts whose [lastUsed] lies more than
    [CONTEXT_TIMEOUT] (30 minutes) before that reading: it calls
    [destroyContainer] once for each of them, in registry order, and
    deletes their entries whether or not the call succeeded.  A context
    idle for 30 minutes or less, and every stored context object, is left
    as it is; the sweep never rejects. *)
Theorem idle_sweep_removes_the_expired (st : State W) :
  Js.uniqueKeys (persistentContexts st) = true ->
  let t := fst (dateNow (world st)) in
  exists st',
    cleanupInactiveContexts st = (Resolved tt, st')
    /\ persistentContexts st'
       = filter (fun e => negb (expired (store st) t e))
                (persistentContexts st)
    /\ store st' = store st
    /\ List.map fst (calls st')
       = (List.map fst (calls st)
            ++ List.map (fun e =>
                 CallDestroy (containerId (deref (store st) (snd e))))
               (filter (expired (store st) t) (persistentContexts st)))%list.
Proof.
  intros Hu t. unfold cleanupInactiveContexts.
  unfold bind at 1. unfold now. subst t.
  destruct (dateNow (world st)) as [t w1]. cbn [fst].
  unfold bind at 1. unfold gets at 1.
  cbn [world persistentContexts store calls].
  fold (expired (store st) t).
  match goal with
  | |- context [forEach _ _ ?s] =>
      destruct (sweep_loop
                  (filter (expired (store st) t) (persistentContexts st)) s)
        as (st' & Hrun & Hregs & Hstore & Hcalls)
  end.
  - apply NoDup_keys_filter. now apply uniqueKeys_NoDup.
  - intros e He. apply filter_In in He. destruct He as [He _].
    cbn [persistentContexts]. destruct e as [k r].
    now apply In_unique_get.
  - exists st'. split; [exact Hrun|].
    cbn [persistentContexts store calls] in Hregs, Hstore, Hcalls.
    split; [|split; [exact Hstore | exact Hcalls]].
    rewrite Hregs. now apply delete_selected.
Qed.

End IdleSweepFacts.

(** ** The identity of the registered contexts *)

Section IdentityFacts.
Import Docker Async SessionFree Registry.
Context {W : Type} `{RT : Runtime W}.
Local Open Scope async_scope.

Lemma sameContexts_refl (st : State W) : sameContexts st st.
Proof. unfold sameContexts. repeat split. Qed.

Lemma sameContexts_trans (a b c : State W) :
  sameContexts a b -> sameContexts b c -> sameContexts a c.
Proof.
  intros (H1 & H2 & H3) (K1 & K2 & K3). unfold sameContexts.
  split; [congruence|]. split; [congruence|].
  intros r. rewrite K3. apply H3.
Qed.

Lemma identity_fields (c c' : PersistentExecutionContext) :
  identity c' = identity c ->
  contextId c' = contextId c /\ containerId c' = containerId c
  /\ language c' = language c /\ userId c' = userId c.
Proof. unfold identity. intros [= -> -> -> _ -> _]. repeat split. Qed.

Lemma sameContexts_sameOwners (st st' : State W) :
  sameContexts st st' -> sameOwners st st'.
Proof.
  intros (Hreg & Hlen & Hid). unfold sameOwners.
  split; [exact Hreg|]. split; [exact Hlen|].
  intros r. now destruct (identity_fields _ _ (Hid r)) as (_ & _ & _ & ->).
Qed.

Lemma sameContexts_keyed (st st' : State W) :
  sameContexts st st' -> keyed st -> keyed st'.
Proof.
  intros (Hreg & _ & Hid) Hk k r Hin. rewrite Hreg in Hin.
  destruct (identity_fields _ _ (Hid r)) as (_ & _ & -> & ->).
  now apply Hk.
Qed.

Lemma sameContexts_sound (st st' : State W) :
  sameContexts st st' -> sound st -> sound st'.
Proof.
  intros Hs [Hinv Hk]. split.
  - exact (sameOwners_invariant st st'
             (sameContexts_sameOwners _ _ Hs) Hinv).
  - now apply (sameContexts_keyed st).
Qed.

Lemma keepsContexts_sound {A} (c : Async.M (State W) A) :
  keepsContexts c -> keepsSound c.
Proof.
  intros Hc st res st' Hs Hrun.
  eapply sameContexts_sound; [eapply Hc, Hrun | exact Hs].
Qed.

Lemma sound_bind {A B} (c : Async.M (State W) A)
    (k : A -> Async.M (State W) B) :
  keepsSound c -> (forall a, keepsSound (k a)) -> keepsSound (bind c k).
Proof.
  intros Hc Hk st res st' Hs. unfold bind.
  destruct (c st) as [[a|e] st1] eqn:E.
  - intros Hrun. eapply Hk; [eapply Hc; eauto | exact Hrun].
  - intros [= _ <-]. eapply Hc; eauto.
Qed.

Lemma sound_tryCatch {A} (c : Async.M (State W) A)
    (h : string -> Async.M (State W) A) :
  keepsSound c -> (forall e, keepsSound (h e)) -> keepsSound (tryCatch c h).
Proof.
  intros Hc Hh st res st' Hs. unfold tryCatch.
  destruct (c st) as [[a|e] st1] eqn:E.
  - intros [= _ <-]. eapply Hc; eauto.
  - intros Hrun. eapply Hh; [eapply Hc; eauto | exact Hrun].
Qed.

Lemma sound_forEach {A} (xs : list A)
    (body : A -> Async.M (State W) unit) :
  (forall x, keepsSound (body x)) -> keepsSound (forEach xs body).
Proof.
  intros Hb. induction xs as [|x r IH]; cbn [forEach].
  - intros st res st' Hs [= _ <-]. exact Hs.
  - apply sound_bind; [apply Hb | intros _; exact IH].
Qed.

Lemma ctx_ret {A} (a : A) : keepsContexts (W := W) (ret a).
Proof. intros st res st' [= _ <-]. apply sameContexts_refl. Qed.

Lemma ctx_throw {A} (e : string) :
  keepsContexts (W := W) (A := A) (throw e).
Proof. intros st res st' [= _ <-]. apply sameContexts_refl. Qed.

Lemma ctx_gets {A} (f : State W -> A) : keepsContexts (gets f).
Proof. intros st res st' [= _ <-]. apply sameContexts_refl. Qed.

Lemma ctx_bind {A B} (c : Async.M (State W) A)
    (k : A -> Async.M (State W) B) :
  keepsContexts c -> (forall a, keepsContexts (k a)) ->
  keepsContexts (bind c k).
Proof.
  intros Hc Hk st res st'. unfold bind.
  destruct (c st) as [[a|e] st1] eqn:E.
  - intros Hrun.
    eapply sameContexts_trans; [eapply Hc, E | eapply Hk, Hrun].
  - intros [= _ <-]. eapply Hc, E.
Qed.

Lemma ctx_tryCatch {A} (c : Async.M (State W) A)
    (h : string -> Async.M (State W) A) :
  keepsContexts c -> (forall e, keepsContexts (h e)) ->
  keepsContexts (tryCatch c h).
Proof.
  intros Hc Hh st res st'. unfold tryCatch.
  destruct (c st) as [[a|e] st1] eqn:E.
  - intros [= _ <-]. eapply Hc, E.
  - intros Hrun.
    eapply sameContexts_trans; [eapply Hc, E | eapply Hh, Hrun].
Qed.

Lemma ctx_forEach {A} (xs : list A)
    (body : A -> Async.M (State W) unit) :
  (forall x, keepsContexts (body x)) -> keepsContexts (forEach xs body).
Proof.
  intros Hb. induction xs as [|x r IH]; cbn [forEach].
  - apply ctx_ret.
  - apply ctx_bind; [apply Hb | intros _; exact IH].
Qed.

Lemma ctx_dockerExecute (cid command : string) :
  keepsContexts (dockerExecute cid command).
Proof.
  intros st res st'. unfold dockerExecute.
  destruct (executeCommand cid command (world st)) as [r w].
  intros [= _ <-]. unfold sameContexts. repeat split.
Qed.

Lemma ctx_dockerDestroy (cid : string) : keepsContexts (dockerDestroy cid).
Proof.
  intros st res st'. unfold dockerDestroy.
  destruct (destroyContainer cid (world st)) as [r w].
  intros [= _ <-]. unfold sameContexts. repeat split.
Qed.

Lemma ctx_now : keepsContexts (W := W) now.
Proof.
  intros st res st'. unfold now.
  destruct (dateNow (world st)) as [t w].
  intros [= _ <-]. unfold sameContexts. repeat split.
Qed.

Lemma identity_update (h : list PersistentExecutionContext) (r r' : ref)
    (f : PersistentExecutionContext -> PersistentExecutionContext) :
  (forall c, identity (f c) = identity c) ->
  identity (deref (update h r f) r') = identity (deref h r').
Proof.
  intros Hf. unfold deref. revert r r'.
  induction h as [|x t IH]; intros [|r] [|r']; simpl; try reflexivity.
  - apply Hf.
  - apply IH.
Qed.

Lemma ctx_mutate (r : ref)
    (f : PersistentExecutionContext -> PersistentExecutionContext) :
  (forall c, identity (f c) = identity c) ->
  keepsContexts (W := W) (mutate r f).
Proof.
  intros Hf st res st'. unfold mutate, modify. intros [= _ <-].
  unfold sameContexts. cbn [persistentContexts store].
  split; [reflexivity|]. split; [apply length_update|].
  intros r'. now apply identity_update.
Qed.

Lemma installPackages_ctx (context : ref) (packages : list string) :
  keepsContexts (W := W) (installPackages context packages).
Proof.
  unfold installPackages.
  apply ctx_bind; [apply ctx_gets|]. intros c.
  destruct (Lang.lk_packageInstallCommand _); [|apply ctx_throw].
  destruct (filter _ packages) as [|p ps]; [apply ctx_ret|].
  unfold installLoop. apply ctx_forEach. intros name.
  apply ctx_tryCatch; [|intros; apply ctx_throw].
  apply ctx_bind; [apply ctx_dockerExecute|]. intros _.
  now apply ctx_mutate.
Qed.

Lemma executeCodeInContext_ctx (context : ref)
    (request : SessionFreeExecutionRequest) :
  keepsContexts (W := W) (executeCodeInContext context request).
Proof.
  unfold executeCodeInContext.
  apply ctx_bind; [apply ctx_gets|]. intros c. cbv zeta.
  destruct (Lang.falsy _); [apply ctx_throw|].
  assert (Hname : forall l, keepsContexts (W := W) (generateFileName l)).
  { intros l. unfold generateFileName. cbv zeta.
    apply ctx_bind; [apply ctx_now | intros; apply ctx_ret]. }
  apply ctx_bind.
  { destruct (req_fileName request) as [f|];
      [destruct (Js.truthy f); [apply ctx_ret|]|]; apply Hname. }
  intros fileName. apply ctx_bind.
  { unfold writeCodeToContainer. cbv zeta.
    apply ctx_bind; [apply ctx_dockerExecute|]. intros _.
    apply ctx_bind; [apply ctx_dockerExecute|]. intros _.
    apply ctx_ret. }
  intros _. destruct (Lang.lk_executeCommand _); [|apply ctx_throw].
  apply ctx_bind; [apply ctx_dockerExecute|]. intros result.
  apply ctx_bind; [|intros; apply ctx_ret].
  unfold getCreatedFiles.
  apply ctx_tryCatch; [|intros; apply ctx_ret].
  apply ctx_bind; [apply ctx_dockerExecute|]. intros r.
  destruct (output r) as [o|]; [|apply ctx_ret].
  destruct (Js.truthy o); apply ctx_ret.
Qed.

(** What [executeCode] does once it holds its context. *)
Lemma afterContext_ctx (context : ref)
    (request : SessionFreeExecutionRequest) (startTime : Z) :
  keepsContexts (W := W)
    (match req_packages request with
     | Some (p :: ps) => installPackages context (p :: ps)
     | _ => ret tt
     end ;;;
     result <- executeCodeInContext context request ;;
     tUsed <- now ;;
     mutate context (set_lastUsed tUsed) ;;;
     tEnd <- now ;;
     c <- read context ;;
     ret {| res_output := pr_output result;
            res_error := pr_error result;
            res_executionTime := tEnd - startTime;
            res_exitCode := pr_exitCode result;
            res_files := Some (pr_files result);
            res_contextId := contextId c |}).
Proof.
  apply ctx_bind.
  { destruct (req_packages request) as [[|p ps]|]; try apply ctx_ret.
    apply installPackages_ctx. }
  intros _.
  apply ctx_bind; [apply executeCodeInContext_ctx|]. intros result.
  apply ctx_bind; [apply ctx_now|]. intros tUsed.
  apply ctx_bind; [now apply ctx_mutate|]. intros _.
  apply ctx_bind; [apply ctx_now|]. intros tEnd.
  apply ctx_bind; [apply ctx_gets|]. intros c. apply ctx_ret.
Qed.

Lemma In_delete {V} (m : Js.map V) (k : string) (e : string * V) :
  In e (Js.delete m k) -> In e m.
Proof.
  induction m as [|[k' v] r IH]; cbn [Js.delete]; [tauto|].
  destruct (String.eqb k' k); cbn [In]; tauto.
Qed.

Lemma In_set {V} (m : Js.map V) (k : string) (v : V) (e : string * V) :
  In e (Js.set m k v) -> e = (k, v) \/ In e m.
Proof.
  induction m as [|[k' v'] r IH]; cbn [Js.set In].
  - intros [<-|[]]. now left.
  - destruct (String.eqb k' k); cbn [In]; intros [<-|H]; auto.
    destruct (IH H); auto.
Qed.

Lemma keyed_delete (st : State W) (w : W) (k : string)
    (log : list Logged) :
  keyed st ->
  keyed {| world := w;
           persistentContexts := Js.delete (persistentContexts st) k;
           store := store st;
           calls := log |}.
Proof.
  intros Hk k' r Hin. cbn [persistentContexts store] in *.
  apply In_delete in Hin. now apply Hk.
Qed.

Lemma contextsDelete_sound (key : string) :
  keepsSound (W := W) (contextsDelete key).
Proof.
  intros st res st' [Hinv Hk] Hrun. split.
  - exact (contextsDelete_preserves key st res st' Hinv Hrun).
  - unfold contextsDelete, modify in Hrun. injection Hrun as _ <-.
    now apply keyed_delete.
Qed.

(** The quota loop only deletes entries and leaves the objects alone. *)
Lemma evictWhileOver_keyed (l : list (string * ref)) (st : State W) :
  keyed st ->
  exists st',
    evictWhileOver l st = (Resolved tt, st') /\ keyed st'.
Proof.
  revert st. induction l as [|[key r] rest IH]; intros st Hk;
    cbn [evictWhileOver].
  - now exists st.
  - destruct (Nat.leb _ _); [|now exists st].
    unfold bind at 1. unfold read, gets.
    unfold bind at 1. unfold tryCatch, dockerDestroy, record_call.
    destruct (destroyContainer (containerId (deref (store st) r)) (world st))
      as [[[]|e] w];
      unfold ret; unfold bind at 1; unfold contextsDelete, modify;
      cbn [world persistentContexts store calls];
      apply IH; now apply keyed_delete.
Qed.

Lemma getOrCreate_sound (u l : string) :
  keepsSound (W := W) (getOrCreatePersistentContext u l).
Proof.
  intros st res st' [[Hwf Hcap] Hk] Hrun. split.
  { split; now apply (getOrCreate_keeps_cap u l st res st'). }
  revert Hrun.
  assert (Hcreate : forall s,
    wellFormed s = true -> withinCap s -> keyed s ->
    Js.get (persistentContexts s) (contextKey u l) = None ->
    createPersistentContext u l s = (res, st') -> keyed st').
  { intros s Hs Hc Hks Hnone. unfold createPersistentContext.
    unfold bind at 1.
    destruct (enforce_within_cap u s Hs (Hc u))
      as (s1 & Hrun1 & Hwf1 & Hstore1 & _ & _ & Hnone1).
    specialize (Hnone1 _ Hnone).
    assert (Hk1 : keyed s1).
    { unfold enforceUserContextLimit, bind, gets in Hrun1.
      match type of Hrun1 with
      | evictWhileOver ?l s = _ =>
          destruct (evictWhileOver_keyed l s Hks) as (s1' & Hrun1' & Hk1)
      end.
      rewrite Hrun1 in Hrun1'. now injection Hrun1' as <-. }
    rewrite Hrun1.
    destruct (Lang.falsy (Lang.languageTiers l)) eqn:Hl.
    - unfold newPersistentContext. rewrite Hl. unfold throw.
      now intros [= _ <-].
    - intros Hnew.
      destruct (newPersistentContext_spec _ _ _ _ _ Hl Hnew)
        as (config & ok & delta & _ & _ & Hres).
      destruct res as [r|e].
      + destruct Hres as (_ & Hr & Hreg & c & Hstore & Hu & Hlang & _).
        unfold wellFormed in Hwf1. apply andb_true_iff in Hwf1.
        destruct Hwf1 as [_ Hvalid]. rewrite forallb_forall in Hvalid.
        intros k' r' Hin. rewrite Hreg in Hin. rewrite Hstore.
        apply In_set in Hin. destruct Hin as [[= -> ->]|Hin].
        * rewrite Hr, deref_new, Hu, Hlang. now split.
        * specialize (Hvalid _ Hin). cbn [snd] in Hvalid.
          apply Nat.ltb_lt in Hvalid. rewrite deref_app by exact Hvalid.
          now apply Hk1.
      + destruct Hres as (_ & Hreg & Hstore).
        intros k' r' Hin. rewrite Hreg in Hin. rewrite Hstore.
        now apply Hk1. }
  unfold getOrCreatePersistentContext. cbv zeta.
  unfold bind at 1. unfold contextsGet, gets.
  destruct (Js.get (persistentContexts st) (contextKey u l)) as [r0|] eqn:G.
  - unfold bind at 1 2. unfold read, gets, tryCatch, bind, dockerExecute.
    destruct (executeCommand _ probe (world st)) as [[out|e] w].
    + unfold ret. intros [= _ <-]. exact Hk.
    + unfold contextsDelete, modify, ret, record_call.
      cbn [world persistentContexts store calls].
      apply Hcreate.
      * now apply wellFormed_delete.
      * intros u'. unfold owned. cbn [persistentContexts store].
        etransitivity; [apply filter_delete_le | apply Hcap].
      * now apply keyed_delete.
      * cbn [persistentContexts]. apply get_delete_same.
  - unfold bind at 1, ret at 1. now apply Hcreate.
Qed.

Lemma executeCode_sound (request : SessionFreeExecutionRequest) :
  keepsSound (W := W) (executeCode request).
Proof.
  unfold executeCode.
  apply sound_bind; [apply keepsContexts_sound, ctx_now|].
  intros startTime. cbv zeta.
  apply sound_tryCatch.
  - apply sound_bind; [apply getOrCreate_sound|]. intros context.
    apply keepsContexts_sound, afterContext_ctx.
  - intros message. apply keepsContexts_sound.
    apply ctx_bind; [apply ctx_now | intros; apply ctx_ret].
Qed.

Lemma cleanupInactiveContexts_sound :
  keepsSound (W := W) cleanupInactiveContexts.
Proof.
  unfold cleanupInactiveContexts.
  apply sound_bind; [apply keepsContexts_sound, ctx_now|]. intros t.
  apply sound_bind; [apply keepsContexts_sound, ctx_gets|].
  intros keys. apply sound_forEach. intros key.
  apply sound_bind; [apply keepsContexts_sound, ctx_gets|].
  intros [r|]; [|apply keepsContexts_sound, ctx_ret].
  apply sound_bind; [apply keepsContexts_sound, ctx_gets|]. intros c.
  apply sound_bind; [|intros _; apply contextsDelete_sound].
  apply keepsContexts_sound.
  apply ctx_tryCatch; [apply ctx_dockerDestroy | intros; apply ctx_ret].
Qed.

Lemma cleanupContext_sound (u l : string) :
  keepsSound (W := W) (cleanupContext u l).
Proof.
  unfold cleanupContext. cbv zeta.
  apply sound_bind; [apply keepsContexts_sound, ctx_gets|].
  intros [r|]; [|apply keepsContexts_sound, ctx_ret].
  apply sound_bind; [apply keepsContexts_sound, ctx_gets|]. intros c.
  apply sound_tryCatch;
    [|intros; apply keepsContexts_sound, ctx_ret].
  apply sound_bind; [apply keepsContexts_sound, ctx_dockerDestroy|].
  intros _.
  apply sound_bind; [apply contextsDelete_sound|]. intros _.
  apply keepsContexts_sound, ctx_ret.
Qed.

Lemma afterOperations_sound (ops : list Operation) (st : State W) :
  sound st -> sound (afterOperations ops st).
Proof.
  revert st. induction ops as [|op r IH]; intros st Hs; [exact Hs|].
  cbn [afterOperations fold_left]. apply IH.
  destruct op as [request| |u l|u]; cbn [perform].
  - destruct (executeCode request st) as [res st'] eqn:E.
    exact (executeCode_sound request st res st' Hs E).
  - destruct (cleanupInactiveContexts st) as [res st'] eqn:E.
    exact (cleanupInactiveContexts_sound st res st' Hs E).
  - destruct (cleanupContext u l st) as [res st'] eqn:E.
    exact (cleanupContext_sound u l st res st' Hs E).
  - exact Hs.
Qed.

Lemma initial_sound (w : W) : sound (initial w).
Proof. split; [apply initial_invariant|]. intros k r []. Qed.

End IdentityFacts.

(** ** Keys, owners and languages *)

Section KeyFacts.
Import Docker Async SessionFree Registry.
Context {W : Type} `{RT : Runtime W}.
Local Open Scope async_scope.

Lemma append_assoc (a b c : string) : (a ++ b) ++ c = a ++ b ++ c.
Proof. induction a as [|x a IH]; cbn; [reflexivity | now rewrite IH]. Qed.

Lemma hasColon_middle (a b : string) :
  hasColon (a ++ String ":"%char b) = true.
Proof.
  induction a as [|x a IH]; cbn [append hasColon]; [reflexivity|].
  rewrite IH. apply orb_true_r.
Qed.

(** The key determines the owner and the language as long as the
    language holds no colon. *)
Lemma contextKey_injective (u u' l l' : string) :
  hasColon l = false -> hasColon l' = false ->
  contextKey u l = contextKey u' l' -> u = u' /\ l = l'.
Proof.
  unfold contextKey. intros Hl Hl'. revert u'.
  induction u as [|a u IH]; intros [|a' u']; cbn.
  - intros [= ->]. now split.
  - intros [= <- ->]. now rewrite hasColon_middle in Hl.
  - intros [= -> <-]. now rewrite hasColon_middle in Hl'.
  - intros [= -> H]. destruct (IH _ H) as [-> ->]. now split.
Qed.

Lemma set_has_In (s : Js.set_t) (x : string) :
  Js.set_has s x = true -> In x s.
Proof.
  induction s as [|y r IH]; cbn [Js.set_has]; [discriminate|].
  intros H. apply orb_true_iff in H. destruct H as [H|H].
  - apply String.eqb_eq in H. now left.
  - right. now apply IH.
Qed.

(** No name the lookup answers for holds a colon. *)
Lemma known_language_no_colon (l : string) :
  Lang.falsy (Lang.languageTiers l) = false -> hasColon l = false.
Proof.
  unfold Lang.languageTiers.
  destruct (Js.get Lang.ownTiers l) as [t|] eqn:G.
  - intros _. apply get_In in G. unfold Lang.ownTiers in G.
    repeat (destruct G as [G|G]; [injection G as <- _; reflexivity|]).
    destruct G.
  - destruct (Js.set_has Lang.objectPrototypeMembers l) eqn:S;
      [|discriminate].
    intros _. apply set_has_In in S. unfold Lang.objectPrototypeMembers in S.
    repeat (destruct S as [<-|S]; [reflexivity|]).
    destruct S.
Qed.

(** In a sound state the context found under the key of an owner and a
    language the lookup answers for is that owner's and of that
    language. *)
Lemma sound_lookup (st : State W) (u l : string) (r : ref) :
  sound st ->
  Lang.falsy (Lang.languageTiers l) = false ->
  Js.get (persistentContexts st) (contextKey u l) = Some r ->
  userId (deref (store st) r) = u /\ language (deref (store st) r) = l.
Proof.
  intros [_ Hk] Hl Hget. apply get_In in Hget.
  destruct (Hk _ _ Hget) as [Hkey Hknown].
  apply contextKey_injective in Hkey.
  - destruct Hkey as [-> ->]. now split.
  - now apply known_language_no_colon.
  - now apply known_language_no_colon.
Qed.

(** X8.  After any operations on a fresh service, the context registered
    under the key of an owner and of a language the lookup
    [languageTiers] answers for belongs to that owner and was created for
    that language: a request for such a language never reaches another
    owner's context. *)
Theorem registered_context_belongs_to_owner (w : W)
    (ops : list Operation) (u l : string) (r : ref) :
  let st := afterOperations ops (initial w) in
  Lang.falsy (Lang.languageTiers l) = false ->
  Js.get (persistentContexts st) (contextKey u l) = Some r ->
  userId (deref (store st) r) = u /\ language (deref (store st) r) = l.
Proof.
  intros st. apply sound_lookup.
  apply afterOperations_sound, initial_sound.
Qed.

(** X9.  After any operations on a fresh service, the registry holds at
    most one context for an owner and a language: two entries whose
    contexts agree on both are one entry. *)
Theorem one_context_per_owner_and_language (w : W)
    (ops : list Operation) (k1 k2 : string) (r1 r2 : ref) :
  let st := afterOperations ops (initial w) in
  In (k1, r1) (persistentContexts st) ->
  In (k2, r2) (persistentContexts st) ->
  userId (deref (store st) r1) = userId (deref (store st) r2) ->
  language (deref (store st) r1) = language (deref (store st) r2) ->
  k1 = k2 /\ r1 = r2.
Proof.
  intros st H1 H2 Hu Hl.
  destruct (afterOperations_sound ops (initial w) (initial_sound w))
    as [[Hwf _] Hk].
  fold st in Hwf, Hk.
  destruct (Hk _ _ H1) as [E1 _]. destruct (Hk _ _ H2) as [E2 _].
  rewrite Hu, Hl, <- E2 in E1. subst k2. split; [reflexivity|].
  unfold wellFormed in Hwf. apply andb_true_iff in Hwf.
  destruct Hwf as [Huniq _].
  pose proof (In_unique_get _ _ _ Huniq H1) as G1.
  pose proof (In_unique_get _ _ _ Huniq H2) as G2.
  rewrite G1 in G2. now injection G2.
Qed.

(** X10.  A run that succeeded shows in the owner's listing: when
    [executeCode], called after any operations on a fresh service with a
    language the lookup answers for, resolves with the exit code 0, then
    [getUserContexts] for the owner of the request (["anonymous"] without
    one) lists a context with the [contextId] the result names and with
    the language of the request. *)
Theorem run_context_is_listed (w : W) (ops : list Operation)
    (request : SessionFreeExecutionRequest)
    (result : SessionFreeExecutionResult) (st' : State W) :
  let st := afterOperations ops (initial w) in
  let u := Js.or_else (req_userId request) "anonymous" in
  Lang.falsy (Lang.languageTiers (req_language request)) = false ->
  executeCode request st = (Resolved result, st') ->
  res_exitCode result = 0 ->
  exists infos info,
    getUserContexts u st' = (Resolved infos, st')
    /\ In info infos
    /\ info_contextId info = res_contextId result
    /\ info_language info = req_language request.
Proof.
  intros st u Hl Hrun Hexit.
  assert (Hs : sound st) by apply afterOperations_sound, initial_sound.
  unfold executeCode in Hrun. unfold bind at 1 in Hrun.
  destruct (now st) as [[t0|e0] s0] eqn:Hnow.
  2:{ unfold now in Hnow. destruct (dateNow (world st)). discriminate. }
  assert (Hs0 : sound s0)
    by exact (keepsContexts_sound _ ctx_now st _ s0 Hs Hnow).
  cbv zeta in Hrun. fold u in Hrun. unfold tryCatch in Hrun.
  match type of Hrun with
  | match ?c s0 with _ => _ end = _ =>
      destruct (c s0) as [[r|e] s1] eqn:E
  end.
  2:{ unfold bind, now in Hrun. destruct (dateNow (world s1)).
      unfold ret in Hrun. injection Hrun as <- _. discriminate. }
  injection Hrun as -> ->.
  apply bind_resolved in E. destruct E as (context & s2 & Hget & E).
  pose proof (getOrCreate_sound u _ s0 _ s2 Hs0 Hget) as Hs2.
  pose proof (getOrCreate_registers _ _ _ _ _ Hget) as Hreg.
  destruct (sound_lookup s2 u _ context Hs2 Hl Hreg) as [Hu Hlang].
  destruct (afterContext_ctx context request t0 s2 _ st' E)
    as (Hregs & _ & Hid).
  destruct (identity_fields _ _ (Hid context)) as (_ & _ & Hl' & Hu').
  apply bind_resolved in E. destruct E as (x1 & s3 & _ & E).
  apply bind_resolved in E. destruct E as (pr & s4 & _ & E).
  apply bind_resolved in E. destruct E as (tUsed & s5 & _ & E).
  apply bind_resolved in E. destruct E as (x2 & s6 & _ & E).
  apply bind_resolved in E. destruct E as (tEnd & s7 & _ & E).
  unfold bind, read, gets, ret in E. injection E as <- <-.
  unfold getUserContexts, gets. eexists _, (infoOf (deref (store s7) context)).
  split; [reflexivity|]. split.
  - apply in_map, filter_In. split.
    + rewrite <- Hregs in Hreg. apply get_In in Hreg.
      change (deref (store s7) context)
        with ((fun e : string * ref => deref (store s7) (snd e))
                (contextKey u (req_language request), context)).
      now apply in_map.
    + rewrite Hu', Hu. apply String.eqb_refl.
  - cbn. split; [reflexivity|]. now rewrite Hl'.
Qed.

(** X11.  The key of a context is the text [userId:language], and
    nothing keeps a colon out of either part.  So a request by the owner
    [u] for the "language" [v:l] finds the context of the owner [u:v]
    for the language [l]: as long as that context's container answers the
    probe, [getOrCreatePersistentContext] hands it to [u], creating
    nothing and changing nothing. *)
Theorem key_collision_shares_context (u v l : string) (st : State W)
    (r : ref) (res : ExecResult) (w : W) :
  Js.get (persistentContexts st) (contextKey (u ++ ":" ++ v) l) = Some r ->
  executeCommand (containerId (deref (store st) r)) probe (world st)
    = (Resolved res, w) ->
  exists st',
    getOrCreatePersistentContext u (v ++ ":" ++ l) st = (Resolved r, st')
    /\ persistentContexts st' = persistentContexts st
    /\ store st' = store st
    /\ creations (calls st') = creations (calls st).
Proof.
  intros Hget Halive.
  assert (Hkey : contextKey u (v ++ ":" ++ l)
                 = contextKey (u ++ ":" ++ v) l).
  { unfold contextKey. now rewrite !append_assoc. }
  rewrite <- Hkey in Hget.
  eexists. split; [exact (getOrCreate_reuses u _ st r res w Hget Halive)|].
  cbn [persistentContexts store calls]. repeat split.
  rewrite creations_app. cbn. lia.
Qed.

Lemma destructions_app (a b : list Logged) :
  destructions (a ++ b) = (destructions a + destructions b)%nat.
Proof. unfold destructions. now rewrite filter_app, length_app. Qed.

Lemma destructions_plain (delta : list Logged) :
  Forall plainCall delta -> destructions delta = 0%nat.
Proof.
  unfold destructions. induction 1 as [|c r [_ Hc] _ IH]; [reflexivity|].
  cbn [filter]. now rewrite Hc.
Qed.

(** X12.  A registered context whose container no longer answers the
    probe is replaced, not repaired: [getOrCreatePersistentContext] drops
    its entry and creates a new context in a new container.  Its owner
    being within the cap, nothing is evicted, and the dead container is
    never handed to [destroyContainer]: the call destroys nothing. *)
Theorem dead_context_is_replaced_not_destroyed (u l : string)
    (st : State W) (r : ref) (message : string) (w : W)
    (res : Outcome ref) (st' : State W) :
  wellFormed st = true ->
  withinCap st ->
  Js.get (persistentContexts st) (contextKey u l) = Some r ->
  userId (deref (store st) r) = u ->
  executeCommand (containerId (deref (store st) r)) probe (world st)
    = (Rejected message, w) ->
  getOrCreatePersistentContext u l st = (res, st') ->
  destructions (calls st') = destructions (calls st)
  /\ Js.get (persistentContexts st') (contextKey u l)
     = match res with
       | Resolved r' => Some r'
       | Rejected _ => None
       end
  /\ match res with
     | Resolved r' =>
         r' = List.length (store st)
         /\ (creations (calls st') = creations (calls st) + 1)%nat
     | Rejected _ => True
     end.
Proof.
  intros Hwf Hcap Hget Hown Hdead.
  unfold getOrCreatePersistentContext. cbv zeta.
  unfold bind at 1. unfold contextsGet, gets. rewrite Hget.
  unfold bind at 1 2. unfold read, gets, tryCatch, bind at 1, dockerExecute.
  rewrite Hdead. unfold contextsDelete, modify, ret, record_call.
  cbn [world persistentContexts store calls isResolved].
  unfold bind at 1.
  set (s := {| world := w;
               persistentContexts :=
                 Js.delete (persistentContexts st) (contextKey u l);
               store := store st;
               calls := (calls st
                 ++ [(CallExecute (containerId (deref (store st) r)) probe,
                      false)])%list |}).
  assert (Hlt : (List.length (owned s u) < MAX_CONTEXTS_PER_USER)%nat).
  { pose proof (Hcap u) as Hle. unfold wellFormed in Hwf.
    apply andb_true_iff in Hwf. destruct Hwf as [Huniq _].
    destruct (delete_splits _ _ _ Huniq (get_In _ _ _ Hget))
      as (front & back & Hreg & Hdel).
    unfold owned in *. cbn [persistentContexts store s].
    rewrite Hdel. rewrite Hreg in Hle.
    rewrite filter_app, length_app in Hle |- *. cbn [filter] in Hle.
    unfold ownedBy at 2 in Hle. cbn [snd] in Hle.
    rewrite Hown, String.eqb_refl in Hle. cbn [List.length] in Hle. lia. }
  unfold createPersistentContext, bind at 1.
  rewrite (enforce_below_limit u s Hlt).
  assert (Hnone : Js.get (persistentContexts s) (contextKey u l) = None)
    by apply get_delete_same.
  assert (Hd : destructions (calls s) = destructions (calls st)).
  { cbn [calls s]. rewrite destructions_app. cbn. lia. }
  assert (Hc : creations (calls s) = creations (calls st)).
  { cbn [calls s]. rewrite creations_app. cbn. lia. }
  destruct (Lang.falsy (Lang.languageTiers l)) eqn:Hl.
  - unfold newPersistentContext. rewrite Hl. unfold throw.
    intros [= <- <-]. now repeat split.
  - intros Hnew.
    destruct (newPersistentContext_spec _ _ _ _ _ Hl Hnew)
      as (config & ok & delta & Hcalls & Hplain & Hres).
    assert (Hd' : destructions (calls st') = destructions (calls st)).
    { rewrite Hcalls, destructions_app, Hd.
      change ((CallCreate config, ok) :: delta)
        with ([(CallCreate config, ok)] ++ delta)%list.
      rewrite destructions_app, (destructions_plain _ Hplain). cbn. lia. }
    split; [exact Hd'|].
    destruct res as [r'|e].
    + destruct Hres as (_ & Hr & Hreg & _).
      split; [rewrite Hreg; apply get_set_same|].
      split; [exact Hr|].
      rewrite Hcalls, creations_app, Hc.
      change ((CallCreate config, ok) :: delta)
        with ([(CallCreate config, ok)] ++ delta)%list.
      rewrite creations_app, (creations_plain _ Hplain). cbn. lia.
    + destruct Hres as (_ & Hreg & _).
      split; [now rewrite Hreg | exact I].
Qed.

Lemma filter_none {A} (f : A -> bool) (l : list A) :
  (forall x, In x l -> f x = false) -> filter f l = [].
Proof.
  induction l as [|x r IH]; intros H; [reflexivity|].
  cbn [filter]. rewrite (H x (or_introl eq_refl)).
  apply IH. intros y Hy. apply H. now right.
Qed.

Lemma recorded_identity (done : list string)
    (c : PersistentExecutionContext) :
  identity (recorded done c) = identity c.
Proof.
  revert c. induction done as [|p r IH]; intros c; [reflexivity|].
  cbn [recorded fold_left]. fold (recorded r (add_installed p c)).
  now rewrite IH.
Qed.

(** X13.  Once [installPackages] has resolved for a list of packages, a
    second call with the same list finds every package recorded in the
    context: it resolves at once, runs no command and changes nothing. *)
Theorem installPackages_second_time_is_free (context : ref)
    (packages : list string) (st st1 : State W) :
  installPackages context packages st = (Resolved tt, st1) ->
  installPackages context packages st1 = (Resolved tt, st1).
Proof.
  intros Hrun.
  destruct (Lang.lk_packageInstallCommand
              (Lang.languageTiers (language (deref (store st) context))))
    as [template|] eqn:Ht.
  2:{ rewrite installPackages_unsupported in Hrun by exact Ht.
      discriminate. }
  assert (Hvalid : (context < List.length (store st))%nat).
  { destruct (Nat.ltb context (List.length (store st))) eqn:E;
      [now apply Nat.ltb_lt|].
    apply Nat.ltb_ge in E. unfold deref in Ht.
    rewrite nth_overflow in Ht by exact E. discriminate. }
  rewrite (installPackages_loop _ _ _ _ Ht) in Hrun.
  destruct (installLoop_trace _ _ _ _ _ _ _ Hrun)
    as (done & Hreg & Hstore & -> & _).
  set (c := deref (store st) context) in *.
  assert (Hc1 : deref (store st1) context
                = recorded
                    (filter (fun pkg =>
                       negb (Js.set_has (installedPackages c) pkg)) packages)
                    c).
  { rewrite Hstore. now apply deref_update. }
  destruct (identity_fields _ _ (recorded_identity
              (filter (fun pkg =>
                 negb (Js.set_has (installedPackages c) pkg)) packages) c))
    as (_ & _ & Hlang & _).
  rewrite <- Hc1 in Hlang.
  unfold installPackages. unfold bind at 1. unfold read, gets.
  rewrite Hlang. fold c. rewrite Ht.
  replace (filter _ packages) with (@nil string); [reflexivity|].
  symmetry. apply filter_none. intros p Hp. apply negb_false_iff.
  rewrite Hc1, installedPackages_recorded, set_has_fold_add.
  destruct (Js.set_has (installedPackages c) p) eqn:Hhas; [reflexivity|].
  cbn [orb]. apply existsb_exists. exists p.
  split; [|apply String.eqb_refl].
  apply filter_In. split; [exact Hp|]. now rewrite Hhas.
Qed.

End KeyFacts.

(** ** One owner's run and the other owners' contexts *)

Section IsolationFacts.
Import Docker Async SessionFree Registry.
Context {W : Type} `{RT : Runtime W}.
Local Open Scope async_scope.

Lemma In_delete_other {V} (m : Js.map V) (k : string) (e : string * V) :
  In e m -> fst e <> k -> In e (Js.delete m k).
Proof.
  induction m as [|[k' v] r IH]; cbn [Js.delete In]; [tauto|].
  intros [<-|Hin] Hne.
  - cbn [fst] in Hne. destruct (String.eqb k' k) eqn:E.
    + apply String.eqb_eq in E. congruence.
    + now left.
  - destruct (String.eqb k' k); [now apply IH|].
    right. now apply IH.
Qed.

Lemma In_set_other {V} (m : Js.map V) (k : string) (v : V)
    (e : string * V) :
  In e m -> fst e <> k -> In e (Js.set m k v).
Proof.
  induction m as [|[k' v'] r IH]; cbn [Js.set In]; [tauto|].
  intros [<-|Hin] Hne.
  - cbn [fst] in Hne. destruct (String.eqb k' k) eqn:E.
    + apply String.eqb_eq in E. congruence.
    + now left.
  - destruct (String.eqb k' k); right; [exact Hin | now apply IH].
Qed.

(** The quota loop deletes no key but those of its list. *)
Lemma evictWhileOver_spares (l : list (string * ref)) (st : State W) :
  exists st',
    evictWhileOver l st = (Resolved tt, st')
    /\ store st' = store st
    /\ forall e, In e (persistentContexts st) ->
                 ~ In (fst e) (Js.keys l) ->
                 In e (persistentContexts st').
Proof.
  revert st. induction l as [|[key r] rest IH]; intros st;
    cbn [evictWhileOver].
  - exists st. now repeat split.
  - destruct (Nat.leb _ _); [|exists st; now repeat split].
    unfold bind at 1. unfold read, gets.
    unfold bind at 1. unfold tryCatch, dockerDestroy, record_call.
    destruct (destroyContainer (containerId (deref (store st) r)) (world st))
      as [[[]|e] w];
      unfold ret; unfold bind at 1; unfold contextsDelete, modify;
      cbn [world persistentContexts store calls];
      match goal with
      | |- context [evictWhileOver rest ?s] =>
          destruct (IH s) as (st' & Hrun & Hstore & Hkeep)
      end;
      exists st'; (split; [exact Hrun|]);
      cbn [persistentContexts store] in Hstore, Hkeep;
      (split; [exact Hstore|]);
      intros e0 Hin Hnot; apply Hkeep;
      [ apply In_delete_other; [exact Hin|];
        intros Heq; apply Hnot; left; now rewrite Heq
      | intros Hr; apply Hnot; now right
      | apply In_delete_other; [exact Hin|];
        intros Heq; apply Hnot; left; now rewrite Heq
      | intros Hr; apply Hnot; now right ].
Qed.

(** [getOrCreatePersistentContext] for one owner leaves the entries of
    the other owners, under other keys, where they are. *)
Lemma getOrCreate_spares_others (u l : string) (st : State W)
    (res : Outcome ref) (st' : State W) (k : string) (r : ref) :
  wellFormed st = true ->
  getOrCreatePersistentContext u l st = (res, st') ->
  In (k, r) (persistentContexts st) ->
  userId (deref (store st) r) <> u ->
  k <> contextKey u l ->
  In (k, r) (persistentContexts st')
  /\ deref (store st') r = deref (store st) r
  /\ wellFormed st' = true.
Proof.
  intros Hwf Hrun Hin Hother Hkey.
  assert (Hcreate : forall s,
    wellFormed s = true -> store s = store st ->
    In (k, r) (persistentContexts s) ->
    createPersistentContext u l s = (res, st') ->
    In (k, r) (persistentContexts st')
    /\ deref (store st') r = deref (store st) r
    /\ wellFormed st' = true).
  { intros s Hs Hstore Hins. unfold createPersistentContext.
    unfold bind at 1. unfold enforceUserContextLimit, bind at 1, gets.
    match goal with
    | |- context [evictWhileOver ?l s] =>
        destruct (evictWhileOver_spares l s) as (s1 & Hrun1 & Hstore1 & Hkeep);
        pose proof (evictWhileOver_calls l s) as Hsame
    end.
    rewrite Hrun1.
    assert (Hwf1 : wellFormed s1 = true).
    { pose proof Hs as Hs'. unfold wellFormed in Hs' |- *.
      apply andb_true_iff in Hs'. destruct Hs' as [Hu Hv].
      clear Hsame.
      assert (Hgen : forall l0 (a : State W),
                Js.uniqueKeys (persistentContexts a) = true ->
                forallb (fun e => Nat.ltb (snd e) (List.length (store a)))
                        (persistentContexts a) = true ->
                forall b, evictWhileOver l0 a = (Resolved tt, b) ->
                Js.uniqueKeys (persistentContexts b) = true
                /\ forallb (fun e => Nat.ltb (snd e) (List.length (store b)))
                           (persistentContexts b) = true).
      { induction l0 as [|[key0 r0] rest0 IH0]; intros a Ha1 Ha2 b;
          cbn [evictWhileOver].
        - unfold ret. intros [= <-]. now split.
        - destruct (Nat.leb _ _); [|unfold ret; intros [= <-]; now split].
          unfold bind at 1. unfold read, gets.
          unfold bind at 1. unfold tryCatch, dockerDestroy, record_call.
          destruct (destroyContainer _ (world a)) as [[[]|e] w0];
            unfold ret; unfold bind at 1; unfold contextsDelete, modify;
            cbn [world persistentContexts store calls];
            apply IH0; cbn [persistentContexts store];
            (apply uniqueKeys_delete || apply forallb_delete); assumption. }
      destruct (Hgen _ s Hu Hv s1 Hrun1) as [Hu1 Hv1].
      now rewrite Hu1, Hv1. }
    assert (Hin1 : In (k, r) (persistentContexts s1)).
    { apply Hkeep; [exact Hins|]. cbn [fst]. intros Hk.
      unfold Js.keys in Hk. apply in_map_iff in Hk.
      destruct Hk as ([k' r'] & Hk' & Hin'). cbn [fst] in Hk'. subst k'.
      apply (Permutation_in _
               (Permutation_sym (sortByLastUsed_perm (store s) _))) in Hin'.
      apply filter_In in Hin'. destruct Hin' as [Hin' Hown].
      unfold wellFormed in Hs. apply andb_true_iff in Hs.
      destruct Hs as [Hu _].
      pose proof (In_unique_get _ _ _ Hu Hin') as G1.
      pose proof (In_unique_get _ _ _ Hu Hins) as G2.
      rewrite G1 in G2. injection G2 as ->.
      unfold ownedBy in Hown. cbn [snd] in Hown.
      apply String.eqb_eq in Hown. rewrite Hstore in Hown.
      contradiction. }
    destruct (Lang.falsy (Lang.languageTiers l)) eqn:Hl.
    - unfold newPersistentContext. rewrite Hl. unfold throw.
      intros [= _ <-]. repeat split; try assumption.
      now rewrite Hstore1, Hstore.
    - intros Hnew.
      destruct (newPersistentContext_spec _ _ _ _ _ Hl Hnew)
        as (config & ok & delta & _ & _ & Hres).
      pose proof Hwf1 as Hwf1'. unfold wellFormed in Hwf1'.
      apply andb_true_iff in Hwf1'. destruct Hwf1' as [Hu1 Hv1].
      destruct res as [r'|e].
      + destruct Hres as (_ & Hr & Hreg & c & Hstc & _).
        rewrite forallb_forall in Hv1.
        pose proof (Hv1 _ Hin1) as Hlt. cbn [snd] in Hlt.
        apply Nat.ltb_lt in Hlt.
        split; [|split].
        * rewrite Hreg. now apply In_set_other.
        * rewrite Hstc, deref_app by exact Hlt.
          now rewrite Hstore1, Hstore.
        * unfold wellFormed. rewrite Hreg, Hstc.
          rewrite uniqueKeys_set by exact Hu1. cbn [andb].
          apply forallb_forall. intros e He.
          apply In_set in He. rewrite length_app. cbn [List.length].
          apply Nat.ltb_lt. destruct He as [->|He].
          -- cbn [snd]. lia.
          -- specialize (Hv1 _ He). apply Nat.ltb_lt in Hv1. lia.
      + destruct Hres as (_ & Hreg & Hstc).
        split; [now rewrite Hreg|].
        split; [now rewrite Hstc, Hstore1, Hstore|].
        unfold wellFormed in *. now rewrite Hreg, Hstc. }
  revert Hrun. unfold getOrCreatePersistentContext. cbv zeta.
  unfold bind at 1. unfold contextsGet, gets.
  destruct (Js.get (persistentContexts st) (contextKey u l)) as [r0|] eqn:G.
  - unfold bind at 1 2. unfold read, gets, tryCatch, bind, dockerExecute.
    destruct (executeCommand _ probe (world st)) as [[out|e] w].
    + unfold ret. intros [= _ <-]. cbn. now repeat split.
    + unfold contextsDelete, modify, ret, record_call.
      cbn [world persistentContexts store calls].
      apply Hcreate.
      * now apply wellFormed_delete.
      * reflexivity.
      * cbn [persistentContexts]. now apply In_delete_other.
  - unfold bind at 1, ret at 1. now apply Hcreate.
Qed.

(** X25.  A run by one owner leaves the contexts of the other owners
    alone.  For any well-formed registry, after [executeCode] for the
    owner [u] every entry that belongs to another owner, and does not sit
    under the very key of the request, is still registered, refers to the
    same object, and that object has kept its identity (its [contextId],
    container, language, working directory, owner and creation time):
    the quota never evicts across owners. *)
Theorem run_spares_other_owners (request : SessionFreeExecutionRequest)
    (st : State W) (res : Outcome SessionFreeExecutionResult)
    (st' : State W) (k : string) (r : ref) :
  let u := Js.or_else (req_userId request) "anonymous" in
  wellFormed st = true ->
  executeCode request st = (res, st') ->
  In (k, r) (persistentContexts st) ->
  userId (deref (store st) r) <> u ->
  k <> contextKey u (req_language request) ->
  In (k, r) (persistentContexts st')
  /\ identity (deref (store st') r) = identity (deref (store st) r).
Proof.
  intros u Hwf Hrun Hin Hother Hkey.
  unfold executeCode in Hrun. unfold bind at 1 in Hrun.
  unfold now at 1 in Hrun.
  destruct (dateNow (world st)) as [t0 w0]. cbv zeta in Hrun.
  fold u in Hrun. unfold tryCatch, bind at 1 in Hrun.
  set (s0 := {| world := w0; persistentContexts := persistentContexts st;
                store := store st; calls := calls st |}) in *.
  destruct (getOrCreatePersistentContext u (req_language request) s0)
    as [[context|e] s1] eqn:Hget.
  - destruct (getOrCreate_spares_others u _ s0 _ s1 k r Hwf Hget Hin
                Hother Hkey) as (Hin1 & Hobj & _).
    cbn [store s0] in Hobj.
    match type of Hrun with
    | match ?c s1 with _ => _ end = _ =>
        destruct (c s1) as [[result|e] s2] eqn:E;
        pose proof (afterContext_ctx context request t0 s1 _ s2 E)
          as (Hreg & _ & Hid)
    end.
    + injection Hrun as _ <-. split; [now rewrite Hreg|].
      now rewrite Hid, Hobj.
    + unfold bind, now, ret in Hrun.
      destruct (dateNow (world s2)) as [t1 w1].
      injection Hrun as _ <-. cbn [persistentContexts store].
      split; [now rewrite Hreg|]. now rewrite Hid, Hobj.
  - destruct (getOrCreate_spares_others u _ s0 _ s1 k r Hwf Hget Hin
                Hother Hkey) as (Hin1 & Hobj & _).
    cbn [store s0] in Hobj.
    unfold bind, now, ret in Hrun.
    destruct (dateNow (world s1)) as [t1 w1].
    injection Hrun as _ <-. cbn [persistentContexts store].
    split; [exact Hin1|]. now rewrite Hobj.
Qed.

End IsolationFacts.

(** ** The enhanced execution service *)

Section EnhancedFacts.
Import Docker Async EnhancedService.
Context {W : Type} `{RT : Runtime W} `{ID : Uuid W}.
Local Open Scope async_scope.

Lemma plain_nil (log : list Logged) :
  exists delta, log = (log ++ delta)%list /\ Forall plainCall delta.
Proof. exists []. split; [now rewrite app_nil_r | constructor]. Qed.

Lemma plain_ret {A} (a : A) : plainCalls (W := W) (ret a).
Proof. intros s r s' [= _ <-]. apply plain_nil. Qed.

Lemma plain_throw {A} (e : string) : plainCalls (W := W) (A := A) (throw e).
Proof. intros s r s' [= _ <-]. apply plain_nil. Qed.

Lemma plain_gets {A} (f : State W -> A) : plainCalls (gets f).
Proof. intros s r s' [= _ <-]. apply plain_nil. Qed.

Lemma plain_bind {A B} (c : Async.M (State W) A)
    (k : A -> Async.M (State W) B) :
  plainCalls c -> (forall a, plainCalls (k a)) -> plainCalls (bind c k).
Proof.
  intros Hc Hk st res st'. unfold bind.
  destruct (c st) as [[a|e] st1] eqn:E.
  - intros Hrun.
    destruct (Hc _ _ _ E) as (d1 & H3 & H4).
    destruct (Hk a _ _ _ Hrun) as (d2 & K3 & K4).
    exists (d1 ++ d2)%list. split.
    + now rewrite K3, H3, app_assoc.
    + now apply Forall_app.
  - intros [= <- <-]. exact (Hc _ _ _ E).
Qed.

Lemma plain_tryCatch {A} (c : Async.M (State W) A)
    (h : string -> Async.M (State W) A) :
  plainCalls c -> (forall e, plainCalls (h e)) -> plainCalls (tryCatch c h).
Proof.
  intros Hc Hh st res st'. unfold tryCatch.
  destruct (c st) as [[a|e] st1] eqn:E.
  - intros [= <- <-]. exact (Hc _ _ _ E).
  - intros Hrun.
    destruct (Hc _ _ _ E) as (d1 & H3 & H4).
    destruct (Hh e _ _ _ Hrun) as (d2 & K3 & K4).
    exists (d1 ++ d2)%list. split.
    + now rewrite K3, H3, app_assoc.
    + now apply Forall_app.
Qed.

Lemma plain_forEach {A} (xs : list A)
    (body : A -> Async.M (State W) unit) :
  (forall x, plainCalls (body x)) -> plainCalls (forEach xs body).
Proof.
  intros Hb. induction xs as [|x r IH]; cbn [forEach].
  - apply plain_ret.
  - apply plain_bind; [apply Hb | intros _; exact IH].
Qed.

Lemma plain_dockerExecute (cid command : string) :
  plainCalls (dockerExecute cid command).
Proof.
  intros st res st'. unfold dockerExecute.
  destruct (executeCommand cid command (world st)) as [r w].
  intros [= _ <-]. cbn.
  eexists. split; [reflexivity|]. repeat constructor.
Qed.

Lemma plain_now : plainCalls (W := W) now.
Proof.
  intros st res st'. unfold now.
  destruct (dateNow (world st)) as [t w].
  intros [= _ <-]. apply plain_nil.
Qed.

Lemma plain_modify (f : State W -> State W) :
  (forall st, calls (f st) = calls st) -> plainCalls (modify f).
Proof.
  intros Hf st res st'. unfold modify. intros [= _ <-].
  rewrite Hf. apply plain_nil.
Qed.

Lemma plain_installPackages (context : ref) (packages : list string) :
  plainCalls (installPackages context packages).
Proof.
  unfold installPackages.
  apply plain_bind; [apply plain_gets|]. intros c. cbv zeta.
  destruct (Lang.lk_packageInstallCommand _); [|apply plain_throw].
  destruct (filter _ packages) as [|p ps]; [apply plain_ret|].
  unfold installLoop. apply plain_forEach. intros name.
  apply plain_tryCatch; [|intros; apply plain_throw].
  apply plain_bind; [apply plain_dockerExecute|]. intros _.
  now apply plain_modify.
Qed.

Lemma plain_generateFileName (l : string) : plainCalls (generateFileName l).
Proof.
  unfold generateFileName. cbv zeta.
  apply plain_bind; [apply plain_now | intros; apply plain_ret].
Qed.

Lemma plain_executeCodeInContainer (cid l fileName : string)
    (input : option string) (timeout : option Z) :
  plainCalls
    (lift (Enhanced.executeCodeInContainer cid l fileName input timeout)).
Proof.
  intros st res st'. unfold lift, Enhanced.executeCodeInContainer.
  destruct (Lang.falsy _).
  { unfold throw. intros [= _ <-]. apply plain_nil. }
  destruct (Lang.lk_executeCommand _) as [run|].
  2:{ unfold throw. intros [= _ <-]. apply plain_nil. }
  unfold bind, Enhanced.dockerExecute. cbn [Enhanced.world Enhanced.calls].
  destruct (executeCommand cid _ (world st)) as [[r|e] w];
    unfold ret; intros [= _ <-]; cbn;
    eexists; (split; [reflexivity|]); repeat constructor.
Qed.

Lemma plain_runFile (c : ExecutionContext) (l fileName code : string)
    (input : option string) (timeout : option Z) (startTime : Z) :
  plainCalls (runFile c l fileName code input timeout startTime).
Proof.
  unfold runFile. cbv zeta.
  apply plain_bind.
  { unfold writeCodeToContainer. cbv zeta.
    apply plain_bind; [apply plain_dockerExecute|]. intros _.
    apply plain_ret. }
  intros _.
  apply plain_bind; [apply plain_executeCodeInContainer|]. intros result.
  apply plain_bind.
  { unfold getCreatedFiles.
    apply plain_tryCatch; [|intros; apply plain_ret].
    apply plain_bind; [apply plain_dockerExecute|]. intros r.
    destruct (Docker.output r); apply plain_ret. }
  intros files_.
  apply plain_bind; [apply plain_now | intros; apply plain_ret].
Qed.

Lemma createsOne_bind_l {A B} (l : string) (c : Async.M (State W) A)
    (k : A -> Async.M (State W) B) :
  createsOne l c -> (forall a, plainCalls (k a)) -> createsOne l (bind c k).
Proof.
  intros Hc Hk st res st'. unfold bind.
  destruct (c st) as [[a|e] st1] eqn:E.
  - intros Hrun.
    destruct (Hc _ _ _ E) as (config & ok & d1 & H1 & H2 & H3).
    destruct (Hk a _ _ _ Hrun) as (d2 & K1 & K2).
    exists config, ok, (d1 ++ d2)%list. split.
    + rewrite K1, H1, <- app_assoc. reflexivity.
    + split; [exact H2 | now apply Forall_app].
  - intros [= <- <-]. exact (Hc _ _ _ E).
Qed.

Lemma createsOne_bind_r {A B} (l : string) (c : Async.M (State W) A)
    (k : A -> Async.M (State W) B) :
  silent c -> (forall a, createsOne l (k a)) -> createsOne l (bind c k).
Proof.
  intros Hc Hk st res st'. unfold bind.
  destruct (c st) as [r st1] eqn:E.
  destruct (Hc _ _ _ E) as (Hcalls & a & ->).
  intros Hrun. rewrite <- Hcalls. exact (Hk a _ _ _ Hrun).
Qed.

Lemma createsOne_tryCatch {A} (l : string) (c : Async.M (State W) A)
    (h : string -> Async.M (State W) A) :
  createsOne l c -> (forall e, plainCalls (h e)) ->
  createsOne l (tryCatch c h).
Proof.
  intros Hc Hh st res st'. unfold tryCatch.
  destruct (c st) as [[a|e] st1] eqn:E.
  - intros [= <- <-]. exact (Hc _ _ _ E).
  - intros Hrun.
    destruct (Hc _ _ _ E) as (config & ok & d1 & H1 & H2 & H3).
    destruct (Hh e _ _ _ Hrun) as (d2 & K1 & K2).
    exists config, ok, (d1 ++ d2)%list. split.
    + rewrite K1, H1, <- app_assoc. reflexivity.
    + split; [exact H2 | now apply Forall_app].
Qed.

Lemma silent_now : silent (W := W) now.
Proof.
  intros st res st'. unfold now. destruct (dateNow (world st)) as [t w].
  intros [= <- <-]. split; [reflexivity | now exists t].
Qed.

Lemma silent_newUuid : silent newUuid.
Proof.
  intros st res st'. unfold newUuid. destruct (uuidv4 (world st)) as [u w].
  intros [= <- <-]. split; [reflexivity | now exists u].
Qed.

Lemma createsOne_dockerCreate (config : ContainerConfig) :
  createsOne (cfg_language config) (dockerCreate config).
Proof.
  intros st res st'. unfold dockerCreate.
  destruct (createDynamicContainer config (world st)) as [r w].
  intros [= _ <-]. cbn. exists config, (isResolved r), [].
  repeat split. constructor.
Qed.

Lemma getOrCreateContext_createsOne (l : string) :
  Lang.falsy (Lang.languageTiers l) = false ->
  createsOne l (getOrCreateContext l).
Proof.
  intros Hl. unfold getOrCreateContext.
  apply createsOne_bind_r; [apply silent_newUuid|]. intros contextId.
  cbv zeta. rewrite Hl.
  apply createsOne_bind_l; [apply (createsOne_dockerCreate
    {| cfg_language := l; cfg_isPersistent := true; cfg_roomId := None;
       cfg_customPackages := lk_commonPackages (Lang.languageTiers l) |})|].
  intros cid.
  apply plain_bind; [apply plain_dockerExecute|]. intros _.
  apply plain_bind; [apply plain_dockerExecute|]. intros _.
  apply plain_bind.
  { intros st res st'. unfold alloc. intros [= _ <-]. apply plain_nil. }
  intros r.
  apply plain_bind; [now apply plain_modify | intros; apply plain_ret].
Qed.

Lemma executeCode_createsOne (request : CodeExecutionRequest) :
  Lang.falsy (Lang.languageTiers (req_language request)) = false ->
  createsOne (req_language request) (executeCode request).
Proof.
  intros Hl. unfold executeCode.
  apply createsOne_bind_r; [apply silent_now|]. intros startTime.
  apply createsOne_tryCatch.
  - apply createsOne_bind_l; [now apply getOrCreateContext_createsOne|].
    intros context. apply plain_bind.
    { destruct (req_packages request) as [[|p ps]|]; try apply plain_ret.
      apply plain_installPackages. }
    intros _. apply plain_bind.
    { destruct (req_fileName request) as [f|];
        [destruct (Js.truthy f); [apply plain_ret|]|];
        apply plain_generateFileName. }
    intros fileName.
    apply plain_bind; [apply plain_gets|]. intros c. apply plain_runFile.
  - intros message.
    apply plain_bind; [apply plain_now | intros; apply plain_ret].
Qed.

Lemma executeCode_resolves (request : CodeExecutionRequest) (st : State W) :
  exists result st', executeCode request st = (Resolved result, st').
Proof.
  unfold executeCode. unfold bind at 1. unfold now at 1.
  destruct (dateNow (world st)) as [t0 w0]. unfold tryCatch.
  match goal with
  | |- context [match ?c ?s with _ => _ end] =>
      destruct (c s) as [[r|e] s1]
  end.
  - now exists r, s1.
  - unfold bind, now. destruct (dateNow (world s1)) as [t1 w1].
    unfold ret. now eexists _, _.
Qed.

(** X14.  [executeCode] of the enhanced service checks the language
    before it touches the runtime: for a name the lookup does not answer
    for it makes no call at all, registers nothing, and resolves with the
    failure envelope: exit code 1, no files and the error text
    ["Execution failed: Unsupported language: "] followed by the name. *)
Theorem unknown_language_reaches_no_container
    (request : CodeExecutionRequest) (st : State W) :
  Lang.falsy (Lang.languageTiers (req_language request)) = true ->
  exists result st',
    executeCode request st = (Resolved result, st')
    /\ exitCode result = 1
    /\ error result
       = Some ("Execution failed: Unsupported language: "
                 ++ req_language request)
    /\ files result = None
    /\ calls st' = calls st
    /\ executionContexts st' = executionContexts st
    /\ store st' = store st.
Proof.
  intros Hl. unfold executeCode. unfold bind at 1. unfold now at 1.
  destruct (dateNow (world st)) as [t0 w0].
  unfold tryCatch, bind at 1, getOrCreateContext, bind at 1, newUuid.
  cbn [world set_world].
  destruct (uuidv4 w0) as [contextId w1]. cbv zeta. rewrite Hl.
  unfold throw, bind, now. cbn [world set_world].
  destruct (dateNow w1) as [t1 w2]. unfold ret.
  eexists _, _. split; [reflexivity|]. cbn. repeat split.
Qed.

Lemma destroyed_app (a b : list Logged) :
  Registry.destructions (a ++ b)
  = (Registry.destructions a + Registry.destructions b)%nat.
Proof.
  unfold Registry.destructions. now rewrite filter_app, length_app.
Qed.

Lemma destroyed_plain (delta : list Logged) :
  Forall plainCall delta -> Registry.destructions delta = 0%nat.
Proof.
  unfold Registry.destructions.
  induction 1 as [|c r [_ Hc] _ IH]; [reflexivity|].
  cbn [filter]. now rewrite Hc.
Qed.

(** X15.  The enhanced service never reuses and never destroys a
    container on its own: each [executeCode] for a language the lookup
    answers for asks the runtime for exactly one new container, whatever
    happens afterwards, and no run calls [destroyContainer].  After [n]
    such runs the runtime has been asked for [n] more containers and for
    no destruction. *)
Theorem every_run_creates_a_container
    (requests : list CodeExecutionRequest) (st : State W) :
  Forall (fun request =>
            Lang.falsy (Lang.languageTiers (req_language request)) = false)
         requests ->
  let st' := afterRequests requests st in
  creations (calls st')
  = (creations (calls st) + List.length requests)%nat
  /\ Registry.destructions (calls st') = Registry.destructions (calls st).
Proof.
  intros Hall. revert st.
  induction Hall as [|request rest Hl _ IH]; intros st; cbn zeta.
  - cbn. split; [lia | reflexivity].
  - cbn [afterRequests fold_left List.length].
    destruct (executeCode request st) as [res st1] eqn:E. cbn [snd].
    destruct (executeCode_createsOne request Hl _ _ _ E)
      as (config & ok & delta & Hcalls & _ & Hplain).
    specialize (IH st1). cbn zeta in IH. unfold afterRequests in IH.
    destruct IH as [IHc IHd]. rewrite IHc, IHd, Hcalls.
    change ((CallCreate config, ok) :: delta)
      with ([(CallCreate config, ok)] ++ delta)%list.
    rewrite !creations_app, !destroyed_app.
    rewrite (creations_plain _ Hplain), (destroyed_plain _ Hplain).
    cbn. lia.
Qed.

(** What a resolved [getOrCreateContext] leaves in the store. *)
Lemma getOrCreateContext_context (l : string) (st st1 : State W)
    (context : ref) :
  getOrCreateContext l st = (Resolved context, st1) ->
  language (deref (store st1) context) = l
  /\ installedPackages (deref (store st1) context)
     = setOf (match lk_commonPackages (Lang.languageTiers l) with
              | Some common => common
              | None => []
              end).
Proof.
  unfold getOrCreateContext. unfold bind at 1. unfold newUuid.
  destruct (uuidv4 (world st)) as [contextId w1]. cbv zeta.
  destruct (Lang.falsy _); [discriminate|].
  unfold bind at 1. unfold dockerCreate. cbn [world set_world].
  destruct (createDynamicContainer _ w1) as [[cid|e] w2]; [|discriminate].
  unfold bind at 1. unfold dockerExecute at 1. cbn [world record_call].
  destruct (executeCommand cid _ w2) as [[r1|e] w3]; [|discriminate].
  unfold bind at 1. unfold dockerExecute at 1. cbn [world record_call].
  destruct (executeCommand cid _ w3) as [[r2|e] w4]; [|discriminate].
  unfold bind, alloc, contextsSet, modify, ret.
  cbn [world executionContexts store calls record_call set_world].
  intros [= <- <-]. cbn [store]. unfold deref.
  rewrite nth_middle. now split.
Qed.

(** X16.  A context starts with the common packages of its language
    recorded as installed, so asking [installPackages] for any of them on
    a context [getOrCreateContext] has just returned runs no command and
    changes nothing. *)
Theorem common_packages_are_never_reinstalled (l : string)
    (common template packages : list string) (st st1 : State W)
    (context : ref) :
  lk_commonPackages (Lang.languageTiers l) = Some common ->
  Lang.lk_packageInstallCommand (Lang.languageTiers l) = Some template ->
  getOrCreateContext l st = (Resolved context, st1) ->
  (forall p, In p packages -> In p common) ->
  installPackages context packages st1 = (Resolved tt, st1).
Proof.
  intros Hcommon Htemplate Hget Hsub.
  destruct (getOrCreateContext_context _ _ _ _ Hget) as [Hl Hinst].
  rewrite Hcommon in Hinst.
  unfold installPackages. unfold bind at 1. unfold read, gets.
  rewrite Hl, Htemplate, Hinst.
  rewrite filter_none; [reflexivity|].
  intros p Hp. apply negb_false_iff. unfold setOf.
  rewrite set_has_fold_add. cbn [Js.set_has orb].
  apply existsb_exists. exists p. split; [now apply Hsub|].
  apply String.eqb_refl.
Qed.

(** X17.  [cleanupContext] never rejects, and it forgets the context
    whether or not its container could be destroyed: afterwards the
    identifier is unknown, the other contexts are registered as before,
    and [executeInteractiveCode] under that identifier rejects with
    ["Execution context not found"] before making any call. *)
Theorem cleaned_context_is_gone (contextId code l : string)
    (st : State W) :
  exists st1,
    cleanupContext contextId st = (Resolved tt, st1)
    /\ Js.get (executionContexts st1) contextId = None
    /\ (forall k, k <> contextId ->
          Js.get (executionContexts st1) k
          = Js.get (executionContexts st) k)
    /\ store st1 = store st
    /\ (creations (calls st1) = creations (calls st))
    /\ executeInteractiveCode contextId code l st1
       = (Rejected "Execution context not found", st1).
Proof.
  assert (Hgone : forall s : State W,
            Js.get (executionContexts s) contextId = None ->
            executeInteractiveCode contextId code l s
            = (Rejected "Execution context not found", s)).
  { intros s Hs. unfold executeInteractiveCode, bind, gets.
    now rewrite Hs. }
  unfold cleanupContext. unfold bind at 1. unfold gets at 1.
  destruct (Js.get (executionContexts st) contextId) as [r|] eqn:G.
  - unfold bind at 1. unfold read, gets.
    unfold bind at 1. unfold tryCatch, dockerDestroy.
    destruct (destroyContainer _ (world st)) as [[[]|e] w1];
      unfold ret, contextsDelete, modify;
      cbn [world executionContexts store calls record_call];
      (eexists; split; [reflexivity|]);
      cbn [executionContexts store calls];
      (split; [apply get_delete_same|]);
      (split; [intros k Hk; now apply get_delete_other|]);
      (split; [reflexivity|]);
      (split; [rewrite creations_app; cbn; lia|]);
      apply Hgone; apply get_delete_same.
  - unfold ret. exists st. split; [reflexivity|].
    split; [exact G|]. split; [reflexivity|]. split; [reflexivity|].
    split; [reflexivity|]. now apply Hgone.
Qed.

End EnhancedFacts.

(** ** Generated file names *)

Section FileNames.
Import Docker Async.
Context {W : Type} `{RT : Runtime W}.

(** X18.  The two services name a file for a language in two ways, one
    from its own table of extensions and one from the profile of the
    language.  For every language with a profile they agree: the name is
    [code_], the clock reading and the [fileExtension] the profile
    declares. *)
Theorem generated_names_carry_the_declared_extension (l : string)
    (t : Lang.LanguageTier) (st : SessionFree.State W)
    (est : EnhancedService.State W) :
  Lang.languageTiers l = Lang.Own t ->
  fst (SessionFree.generateFileName l st)
  = Resolved ("code_" ++ Js.show (fst (dateNow (SessionFree.world st)))
                ++ Lang.fileExtension t)
  /\ fst (EnhancedService.generateFileName l est)
     = Resolved ("code_"
                   ++ Js.show (fst (dateNow (EnhancedService.world est)))
                   ++ Lang.fileExtension t).
Proof.
  intros H. unfold Lang.languageTiers in H.
  destruct (Js.get Lang.ownTiers l) as [t'|] eqn:G.
  2:{ destruct (Js.set_has Lang.objectPrototypeMembers l); discriminate. }
  injection H as ->. apply get_In in G. unfold Lang.ownTiers in G.
  unfold SessionFree.generateFileName, EnhancedService.generateFileName.
  unfold bind, SessionFree.now, EnhancedService.now, ret.
  destruct (dateNow (SessionFree.world st)) as [t0 w0].
  destruct (dateNow (EnhancedService.world est)) as [t1 w1].
  repeat (destruct G as [G|G]; [injection G as <- <-; now split|]).
  destruct G.
Qed.

End FileNames.

(** ** The file listing *)

Section ListingFacts.
Import Terminal RoomQueries.

Lemma splitFrom_nonempty {A} (isWs : A -> bool) (b : bool) (s : list A) :
  Fields.splitFrom isWs b s <> [].
Proof.
  revert b. induction s as [|c r IH]; intros b; cbn [Fields.splitFrom].
  - discriminate.
  - destruct (isWs c).
    + destruct b; [apply IH | discriminate].
    + destruct (Fields.splitFrom isWs false r); discriminate.
Qed.

(** A word at the head of a text is the head of its first field. *)
Lemma splitFrom_word {A} (isWs : A -> bool) (b : bool) (w s : list A) :
  forallb (fun c => negb (isWs c)) w = true ->
  w <> [] ->
  Fields.splitFrom isWs b (w ++ s)
  = match Fields.splitFrom isWs false s with
    | h :: t => (w ++ h)%list :: t
    | [] => [w]
    end.
Proof.
  intros Hw Hne. revert b.
  induction w as [|c r IH]; intros b; [congruence|].
  cbn [forallb] in Hw. apply andb_true_iff in Hw. destruct Hw as [Hc Hr].
  apply negb_true_iff in Hc.
  cbn [app Fields.splitFrom]. rewrite Hc.
  destruct r as [|c' r'].
  - cbn [app].
    destruct (Fields.splitFrom isWs false s) as [|h t] eqn:E; reflexivity.
  - rewrite IH by (assumption || discriminate).
    destruct (Fields.splitFrom isWs false s) as [|h t]; reflexivity.
Qed.

Lemma isWord_spec (w : jsstring) :
  isWord w = true ->
  forallb (fun c => negb (isWhite c)) w = true /\ w <> [].
Proof.
  unfold isWord. intros H. apply andb_true_iff in H. destruct H as [Hl Hw].
  split; [exact Hw|]. intros ->. discriminate.
Qed.

Lemma splitFrom_spaces (n : nat) (s : jsstring) :
  Fields.splitFrom isWhite true (repeat 32%N n ++ s)
  = Fields.splitFrom isWhite true s.
Proof. induction n as [|n IH]; [reflexivity | exact IH]. Qed.

(** The fields of a spaced line are its words. *)
Lemma splitWs_spaced (w : jsstring) (rest : list (nat * jsstring)) :
  isWord w = true ->
  forallb (fun p => isWord (snd p)) rest = true ->
  forall b,
    Fields.splitFrom isWhite b (spaced w rest) = w :: List.map snd rest.
Proof.
  revert w. induction rest as [|[n w'] rest IH]; intros w Hw Hrest b.
  - unfold spaced. cbn [List.map List.concat].
    destruct (isWord_spec _ Hw) as [Hc Hne].
    rewrite (splitFrom_word isWhite b w [] Hc Hne).
    cbn [Fields.splitFrom]. now rewrite app_nil_r.
  - cbn [forallb snd] in Hrest. apply andb_true_iff in Hrest.
    destruct Hrest as [Hw' Hrest].
    destruct (isWord_spec _ Hw) as [Hc Hne].
    unfold spaced. cbn [List.map List.concat fst snd].
    rewrite (splitFrom_word isWhite b w _ Hc Hne).
    change (gap n) with (32%N :: repeat 32%N n).
    rewrite <- app_assoc. cbn [app Fields.splitFrom].
    change (isWhite 32) with true. cbn iota.
    rewrite splitFrom_spaces.
    fold (spaced w' rest). rewrite (IH w' Hw' Hrest true).
    now rewrite app_nil_r.
Qed.

Lemma trimStart_nil {A} (isWs : A -> bool) (s : list A) :
  Fields.trimStart isWs s = [] <-> forallb isWs s = true.
Proof.
  induction s as [|c r IH]; cbn [Fields.trimStart forallb]; [tauto|].
  destruct (isWs c); cbn [andb]; [exact IH|].
  split; discriminate.
Qed.

Lemma trimStart_keeps {A} (isWs : A -> bool) (s : list A) :
  forallb isWs (Fields.trimStart isWs s) = forallb isWs s.
Proof.
  induction s as [|c r IH]; cbn [Fields.trimStart forallb]; [reflexivity|].
  destruct (isWs c) eqn:E; cbn [forallb andb]; [exact IH|].
  now rewrite E.
Qed.

Lemma forallb_rev {A} (f : A -> bool) (s : list A) :
  forallb f (rev s) = forallb f s.
Proof.
  induction s as [|c r IH]; [reflexivity|].
  cbn [rev forallb]. rewrite forallb_app, IH. cbn [forallb].
  rewrite andb_true_r. apply andb_comm.
Qed.

(** A line counts as blank exactly when it is all white space. *)
Lemma nonBlank_spec (s : jsstring) :
  nonBlank s = negb (forallb isWhite s).
Proof.
  unfold nonBlank, Fields.trim.
  destruct (forallb isWhite s) eqn:E.
  - assert (H : Fields.trimStart isWhite s = [])
      by now apply trimStart_nil.
    now rewrite H.
  - destruct (rev (Fields.trimStart isWhite
                     (rev (Fields.trimStart isWhite s)))) as [|c r] eqn:R;
      [|reflexivity].
    exfalso.
    assert (R' : Fields.trimStart isWhite
                   (rev (Fields.trimStart isWhite s)) = []).
    { apply (f_equal (@rev N)) in R. now rewrite rev_involutive in R. }
    apply trimStart_nil in R'.
    rewrite forallb_rev, trimStart_keeps in R'. congruence.
Qed.

Lemma splitAt_clean (isSep : N -> bool) (p s : jsstring) :
  forallb (fun c => negb (isSep c)) p = true ->
  Fields.splitAt isSep (p ++ s)
  = match Fields.splitAt isSep s with
    | h :: t => (p ++ h)%list :: t
    | [] => [p]
    end.
Proof.
  intros Hp. induction p as [|c r IH]; cbn [app].
  - destruct (Fields.splitAt isSep s) eqn:E; [|reflexivity].
    destruct s as [|c r]; cbn [Fields.splitAt] in E; [discriminate|].
    destruct (isSep c); [discriminate|].
    destruct (Fields.splitAt isSep r); discriminate.
  - cbn [forallb] in Hp. apply andb_true_iff in Hp. destruct Hp as [Hc Hr].
    apply negb_true_iff in Hc. cbn [Fields.splitAt]. rewrite Hc.
    rewrite (IH Hr).
    destruct (Fields.splitAt isSep s); reflexivity.
Qed.

(** Cutting at the line breaks undoes joining with line breaks. *)
Lemma splitAt_join (lines : list jsstring) :
  lines <> [] ->
  forallb (fun l => forallb (fun c => negb (N.eqb 10 c)) l) lines = true ->
  Fields.splitAt (N.eqb 10) (Fields.join [10%N] lines) = lines.
Proof.
  induction lines as [|p [|q r] IH]; intros Hne Hclean; [congruence| |].
  - cbn [forallb] in Hclean. apply andb_true_iff in Hclean.
    destruct Hclean as [Hp _]. cbn [Fields.join].
    rewrite <- (app_nil_r p) at 1.
    rewrite (splitAt_clean _ p [] Hp). cbn [Fields.splitAt].
    now rewrite app_nil_r.
  - cbn [forallb] in Hclean. apply andb_true_iff in Hclean.
    destruct Hclean as [Hp Hrest].
    change (Fields.join [10%N] (p :: q :: r))
      with (p ++ 10%N :: Fields.join [10%N] (q :: r))%list.
    rewrite (splitAt_clean _ p _ Hp). cbn [Fields.splitAt].
    change (N.eqb 10 10) with true. cbn iota.
    rewrite IH by (discriminate || exact Hrest).
    now rewrite app_nil_r.
Qed.

(** [startsWith] does not look past a space the prefix does not hold. *)
Lemma startsWith_before_space (p w s : jsstring) :
  forallb (fun c => negb (N.eqb c 32)) p = true ->
  Fields.startsWith N.eqb p (w ++ 32%N :: s)
  = Fields.startsWith N.eqb p w.
Proof.
  revert w. induction p as [|a p IH]; intros w Hp; [now destruct w|].
  cbn [forallb] in Hp. apply andb_true_iff in Hp. destruct Hp as [Ha Hp].
  apply negb_true_iff in Ha.
  destruct w as [|c w]; cbn [app Fields.startsWith].
  - now rewrite Ha.
  - now rewrite IH.
Qed.

Lemma spaced_head (w : jsstring) (rest : list (nat * jsstring)) :
  spaced w rest = w
  \/ exists s, spaced w rest = (w ++ 32%N :: s)%list.
Proof.
  destruct rest as [|[n w'] rest].
  - left. unfold spaced. cbn. apply app_nil_r.
  - right. unfold spaced, gap. cbn [List.map List.concat fst snd repeat app].
    eexists. reflexivity.
Qed.

Lemma white_no_word (w : jsstring) :
  isWord w = true -> forallb isWhite w = false.
Proof.
  intros H. destruct (isWord_spec _ H) as [Hc Hne].
  destruct w as [|c r]; [congruence|].
  cbn [forallb] in *. apply andb_true_iff in Hc. destruct Hc as [Hc _].
  apply negb_true_iff in Hc. now rewrite Hc.
Qed.

Lemma forallb_white_app (a b : jsstring) :
  forallb isWhite a = false -> forallb isWhite (a ++ b) = false.
Proof. intros H. rewrite forallb_app, H. reflexivity. Qed.

Lemma word_no_break (w : jsstring) :
  forallb (fun c => negb (isWhite c)) w = true ->
  forallb (fun c => negb (N.eqb 10 c)) w = true.
Proof.
  intros H. rewrite forallb_forall in H |- *. intros c Hc.
  specialize (H c Hc). destruct (N.eqb_spec 10 c) as [<-|]; [|reflexivity].
  discriminate.
Qed.

Lemma rowOk_spec (r : Row) :
  rowOk r = true ->
  isWord (first r) = true
  /\ forallb (fun p => isWord (snd p)) (others r) = true
  /\ (8 <= List.length (others r))%nat
  /\ Fields.startsWith N.eqb (of_ascii "total") (first r) = false.
Proof.
  unfold rowOk. intros H.
  apply andb_true_iff in H. destruct H as [H Ht].
  apply andb_true_iff in H. destruct H as [H Hl].
  apply andb_true_iff in H. destruct H as [Hw Hr].
  apply negb_true_iff in Ht. apply Nat.leb_le in Hl. now repeat split.
Qed.

(** A rendered row holds no line break and is not blank. *)
Lemma row_text (r : Row) :
  rowOk r = true ->
  forallb (fun c => negb (N.eqb 10 c)) (rowText r) = true
  /\ nonBlank (rowText r) = true.
Proof.
  intros H. destruct (rowOk_spec _ H) as (Hw & Hr & _ & _).
  unfold rowText. split.
  - unfold spaced. rewrite forallb_app. apply andb_true_iff. split.
    + apply word_no_break. exact (proj1 (isWord_spec _ Hw)).
    + revert Hr.
      induction (others r) as [|[n w'] rest IH]; [reflexivity|].
      cbn [forallb snd List.map List.concat fst]. intros Hr.
      apply andb_true_iff in Hr. destruct Hr as [Hw' Hr].
      rewrite !forallb_app. rewrite IH by exact Hr.
      rewrite andb_true_r. apply andb_true_iff. split.
      * unfold gap. generalize (S n). intros m.
        induction m as [|m IHm]; [reflexivity | exact IHm].
      * apply word_no_break. exact (proj1 (isWord_spec _ Hw')).
  - rewrite nonBlank_spec. apply negb_true_iff.
    unfold spaced. apply forallb_white_app. now apply white_no_word.
Qed.

(** One row, read back. *)
Lemma parseLine_row (r : Row) :
  rowOk r = true -> parseLine (rowText r) = Some (entryOf r).
Proof.
  intros H. destruct (rowOk_spec _ H) as (Hw & Hr & Hl & Ht).
  unfold parseLine, rowText.
  assert (Htotal : Fields.startsWith N.eqb (of_ascii "total")
                     (spaced (first r) (others r))
                   = Fields.startsWith N.eqb (of_ascii "total") (first r)).
  { destruct (spaced_head (first r) (others r)) as [->|[s ->]];
      [reflexivity|].
    now apply startsWith_before_space. }
  rewrite Htotal, Ht.
  cbv zeta. unfold Fields.splitWs.
  rewrite splitWs_spaced by assumption.
  cbn [List.length]. rewrite length_map.
  replace (Nat.leb 9 (S (List.length (others r)))) with true
    by (symmetry; apply Nat.leb_le; lia).
  reflexivity.
Qed.

(** X19.  [parseFileList] reads back a listing as [ls -la] prints it.
    Take any text made of lines joined by line breaks, each line either a
    row (nine or more words free of white space, the first not starting
    with [total], separated by runs of spaces) or a line the parser is
    meant to skip (blank, or starting with [total]).  The result has one
    entry per row, in order, with the first word as permissions, the
    fifth as size, the sixth to eighth as date, the remaining words
    joined by single spaces as name, and [isDirectory] telling whether the
    permissions start with [d]. *)
Theorem parseFileList_reads_listing (lines : list Line) :
  forallb lineOk lines = true ->
  parseFileList (Fields.join [10%N] (List.map lineText lines))
  = entriesOf lines.
Proof.
  intros Hok. unfold parseFileList.
  destruct lines as [|l0 ls]; [reflexivity|].
  rewrite splitAt_join.
  - clear -Hok. induction (l0 :: ls) as [|l r IH]; [reflexivity|].
    cbn [forallb] in Hok. apply andb_true_iff in Hok.
    destruct Hok as [Hl Hr].
    cbn [List.map filter entriesOf flat_map]. fold (entriesOf r).
    destruct l as [row|text]; cbn [lineText lineOk] in *.
    + destruct (row_text _ Hl) as [_ Hnb]. rewrite Hnb.
      cbn [flat_map]. rewrite (parseLine_row _ Hl).
      cbn [app]. now rewrite <- IH.
    + apply andb_true_iff in Hl. destruct Hl as [_ Hskip].
      destruct (nonBlank text) eqn:Hnb; [|now apply IH].
      cbn [negb orb] in Hskip. cbn [flat_map].
      unfold parseLine at 1. rewrite Hskip. cbn [app]. now apply IH.
  - discriminate.
  - clear -Hok. induction (l0 :: ls) as [|l r IH]; [reflexivity|].
    cbn [forallb] in Hok. apply andb_true_iff in Hok.
    destruct Hok as [Hl Hr]. cbn [List.map forallb].
    rewrite (IH Hr), andb_true_r.
    destruct l as [row|text]; cbn [lineText lineOk] in *.
    + now destruct (row_text _ Hl).
    + apply andb_true_iff in Hl. tauto.
Qed.

End ListingFacts.

(** ** The sanitizer, applied twice *)

Section SanitizeAgain.
Import Terminal.

Lemma stripAnsi_no_escape (s : jsstring) :
  forallb (fun c => negb (isStrippedControl c)) s = true ->
  stripAnsi s = s.
Proof.
  induction s as [|c r IH]; [reflexivity|].
  cbn [forallb]. intros H. apply andb_true_iff in H. destruct H as [Hc Hr].
  rewrite stripAnsi_step.
  assert (Hm : matchAnsi (c :: r) = None).
  { unfold matchAnsi. destruct (N.eq_dec c 27) as [->|Hne];
      [discriminate|].
    destruct c as [|p]; [reflexivity|].
    do 5 (destruct p as [p|p|]; try reflexivity). congruence. }
  rewrite Hm. now rewrite IH.
Qed.

Lemma stripControl_clean_id (s : jsstring) :
  forallb (fun c => negb (isStrippedControl c)) s = true ->
  stripControl s = s.
Proof.
  unfold stripControl. induction s as [|c r IH]; [reflexivity|].
  cbn [forallb filter]. intros H. apply andb_true_iff in H.
  destruct H as [Hc Hr]. now rewrite Hc, IH.
Qed.

Lemma sanitizeOutput_clean (s : jsstring) :
  forallb (fun c => negb (isStrippedControl c)) (sanitizeOutput s) = true.
Proof.
  apply forallb_forall. intros c Hin. apply negb_true_iff.
  unfold sanitizeOutput in Hin. cbv zeta in Hin.
  destruct (MAX_OUTPUT_SIZE <? _) in Hin.
  - apply in_app_or in Hin. destruct Hin as [Hin|Hin].
    + apply (stripControl_clean (stripAnsi s)). eapply In_firstn; eauto.
    + now apply truncationMarker_clean.
  - now apply (stripControl_clean (stripAnsi s)).
Qed.

(** X20.  Text that holds none of the control characters the sanitizer
    strips (so no escape character either) and is not longer than
    [MAX_OUTPUT_SIZE] passes [sanitizeOutput] unchanged. *)
Theorem sanitizeOutput_keeps_clean_text (s : jsstring) :
  forallb (fun c => negb (isStrippedControl c)) s = true ->
  Z.of_nat (List.length s) <= MAX_OUTPUT_SIZE ->
  sanitizeOutput s = s.
Proof.
  intros Hclean Hlen. unfold sanitizeOutput. cbv zeta.
  rewrite (stripAnsi_no_escape _ Hclean), (stripControl_clean_id _ Hclean).
  replace (MAX_OUTPUT_SIZE <? Z.of_nat (List.length s)) with false;
    [reflexivity|].
  symmetry. apply Z.ltb_ge. exact Hlen.
Qed.

(** X21.  [sanitizeOutput] is idempotent: sanitizing a sanitized text
    changes nothing, also when the first pass truncated it and appended
    the marker. *)
Theorem sanitizeOutput_idempotent (s : jsstring) :
  sanitizeOutput (sanitizeOutput s) = sanitizeOutput s.
Proof.
  pose proof (sanitizeOutput_clean s) as Hclean.
  unfold sanitizeOutput at 1. cbv zeta.
  rewrite (stripAnsi_no_escape _ Hclean), (stripControl_clean_id _ Hclean).
  unfold sanitizeOutput. cbv zeta.
  set (cleaned := stripControl (stripAnsi s)).
  set (n := Z.to_nat MAX_OUTPUT_SIZE).
  assert (Hn : Z.of_nat n = MAX_OUTPUT_SIZE)
    by (unfold n, MAX_OUTPUT_SIZE; lia).
  destruct (MAX_OUTPUT_SIZE <? Z.of_nat (List.length cleaned)) eqn:E.
  - apply Z.ltb_lt in E.
    assert (Hfirst : List.length (firstn n cleaned) = n)
      by (apply firstn_length_le; lia).
    replace (MAX_OUTPUT_SIZE
               <? Z.of_nat (List.length (firstn n cleaned ++ truncationMarker)))
      with true.
    + rewrite firstn_app, Hfirst, Nat.sub_diag. cbn [firstn].
      rewrite app_nil_r. rewrite firstn_all2 by lia. reflexivity.
    + symmetry. apply Z.ltb_lt. rewrite length_app, Hfirst.
      unfold truncationMarker. cbn [List.length]. lia.
  - now rewrite E.
Qed.

End SanitizeAgain.

(** ** Joining, typing and leaving *)

Section MembershipFacts.
Import Docker Async Terminal RoomQueries.
Context {W : Type} `{EN : Engine W}.
Local Open Scope async_scope.

Lemma delete_set_absent {V} (m : Js.map V) (k : string) (v : V) :
  Js.get m k = None -> Js.delete (Js.set m k v) k = m.
Proof.
  induction m as [|[k' v'] r IH]; cbn [Js.get Js.set Js.delete].
  - now rewrite String.eqb_refl.
  - destruct (String.eqb k' k) eqn:E; [discriminate|].
    intros H. cbn [Js.delete]. now rewrite E, IH.
Qed.

Lemma update_same_at {A} (h : list A) (r : nat) (f : A -> A) (d : A) :
  f (nth r h d) = nth r h d -> SessionFree.update h r f = h.
Proof.
  revert r. induction h as [|x t IH]; intros [|r]; simpl;
    try reflexivity.
  - now intros ->.
  - intros H. now rewrite (IH r H).
Qed.

Lemma session_new (h : list TerminalSession) (s : TerminalSession) :
  session (h ++ [s]) (List.length h) = s.
Proof. unfold session. now rewrite nth_middle. Qed.

(** X22.  Joining and leaving undo each other.  When a socket that has
    no session joins a registered room, [getRoomTerminalInfo] counts one
    more active session in that room and the same session object sits in
    [userSessions] and in the room; when the socket then disconnects,
    [userSessions], the room records and the set of rooms are back to what
    they were before the join. *)
Theorem join_then_disconnect_restores_membership (rr : ref)
    (userId_ socketId : string) (st : State W) :
  (rr < List.length (rooms st))%nat ->
  Js.get (roomTerminals st) (rt_roomId (room (rooms st) rr)) = Some rr ->
  Js.get (userSessions st) socketId = None ->
  Js.get (activeSessions (room (rooms st) rr)) socketId = None ->
  exists s st1 st2,
    joinSession rr userId_ socketId st = (Resolved s, st1)
    /\ Js.get (userSessions st1) socketId = Some s
    /\ Js.get (activeSessions (room (rooms st1) rr)) socketId = Some s
    /\ option_map info_activeSessions
         (getRoomTerminalInfo (rt_roomId (room (rooms st) rr)) st1)
       = Some (S (Js.size (activeSessions (room (rooms st) rr))))
    /\ handleDisconnect socketId st1 = (Resolved tt, st2)
    /\ userSessions st2 = userSessions st
    /\ rooms st2 = rooms st
    /\ roomTerminals st2 = roomTerminals st
    /\ calls st2 = calls st.
Proof.
  intros Hrr Hroom Huser Hact.
  unfold joinSession, createTerminalSession.
  unfold bind, gets, newUuid, now, mutateRoom, modify, ret.
  destruct (uuidv4 (world st)) as [sid w1].
  cbn [world roomTerminals userSessions rooms sessions calls emitted
       set_world set_sessions set_rooms set_userSessions].
  destruct (newDate w1) as [t w2].
  unfold set_userSessions, set_rooms, set_sessions, set_world.
  cbn [world roomTerminals userSessions rooms sessions calls emitted].
  set (t0 := room (rooms st) rr).
  set (s := {| id := sid; containerId := rt_containerId t0;
               roomId := rt_roomId t0; userId := userId_;
               container := rt_container t0; execInstance := None;
               isActive := true; startTime := t |}).
  set (st1 := {| world := w2;
                 roomTerminals := roomTerminals st;
                 userSessions :=
                   Js.set (userSessions st) socketId
                     (List.length (sessions st));
                 rooms := SessionFree.update (rooms st) rr
                   (fun t' => with_activeSessions
                      (Js.set (activeSessions t') socketId
                         (List.length (sessions st))) t');
                 sessions := (sessions st ++ [s])%list;
                 calls := calls st;
                 emitted := emitted st |}).
  exists (List.length (sessions st)), st1.
  assert (Hroom1 : room (rooms st1) rr
                   = with_activeSessions
                       (Js.set (activeSessions t0) socketId
                          (List.length (sessions st))) t0).
  { cbn [rooms st1]. now rewrite room_update_same. }
  assert (Hdis : exists st2,
            handleDisconnect socketId st1 = (Resolved tt, st2)
            /\ userSessions st2 = userSessions st
            /\ rooms st2 = rooms st
            /\ roomTerminals st2 = roomTerminals st
            /\ calls st2 = calls st).
  { unfold handleDisconnect. unfold bind at 1. unfold gets at 1.
    cbn [userSessions st1]. rewrite get_set_same.
    unfold bind at 1. unfold gets at 1. cbn [sessions st1].
    rewrite session_new. cbn [execInstance s].
    unfold bind at 1. unfold ret at 1.
    unfold bind at 1. unfold gets at 1. cbn [roomTerminals st1 roomId s].
    fold t0 in Hroom. rewrite Hroom.
    unfold bind, mutateRoom, modify, ret.
    cbn [world roomTerminals userSessions rooms sessions calls emitted
         set_rooms set_userSessions st1].
    eexists. split; [reflexivity|].
    cbn [userSessions rooms roomTerminals calls].
    split; [now apply delete_set_absent|].
    split; [|split; reflexivity].
    rewrite update_update. apply update_same_at with (d := noRoom).
    fold (room (rooms st) rr). fold t0. fold t0 in Hact.
    clearbody t0. destruct t0 as [a b c m d e].
    unfold with_activeSessions.
    cbn [rt_roomId rt_containerId rt_container activeSessions createdAt
         lastActivity] in *.
    now rewrite delete_set_absent. }
  destruct Hdis as (st2 & Hrun & H1 & H2 & H3 & H4).
  exists st2. split; [reflexivity|].
  split; [cbn [userSessions st1]; apply get_set_same|].
  split; [rewrite Hroom1; cbn [activeSessions with_activeSessions];
          apply get_set_same|].
  split.
  { unfold getRoomTerminalInfo. cbn [roomTerminals st1].
    fold t0 in Hroom. rewrite Hroom. cbn [option_map info_activeSessions].
    rewrite Hroom1. cbn [activeSessions with_activeSessions].
    rewrite set_absent by exact Hact. unfold Js.size.
    rewrite length_app. cbn [List.length]. f_equal. lia. }
  now repeat split.
Qed.

(** Closing the stream of a session makes at most one call, [end]. *)
Lemma endStream_calls (s : TerminalSession) (st : State W) :
  exists st1 delta,
    match execInstance s with
    | Some {| exec_stream := Some stream |} =>
        tryCatch (engine (CallEnd stream) (streamEnd stream))
                 (fun _ => ret tt)
    | _ => ret tt
    end st = (Resolved tt, st1)
    /\ roomTerminals st1 = roomTerminals st
    /\ userSessions st1 = userSessions st
    /\ rooms st1 = rooms st
    /\ sessions st1 = sessions st
    /\ emitted st1 = emitted st
    /\ calls st1 = (calls st ++ delta)%list
    /\ Forall (fun c => destroys c = false) delta.
Proof.
  destruct (execInstance s) as [[e [stream|]]|];
    try (exists st, []; rewrite app_nil_r; now repeat split).
  unfold tryCatch, engine, ret.
  destruct (streamEnd stream (world st)) as [[[]|err] w];
    eexists _, [CallEnd stream]; (split; [reflexivity|]);
    cbn; repeat split; repeat constructor.
Qed.

Lemma handleDisconnect_calls (k : string) (st : State W) :
  exists st' delta,
    handleDisconnect k st = (Resolved tt, st')
    /\ roomTerminals st' = roomTerminals st
    /\ userSessions st' = Js.delete (userSessions st) k
    /\ emitted st' = emitted st
    /\ calls st' = (calls st ++ delta)%list
    /\ Forall (fun c => destroys c = false) delta.
Proof.
  unfold handleDisconnect. unfold bind at 1. unfold gets at 1.
  destruct (Js.get (userSessions st) k) as [r|] eqn:G.
  - unfold bind at 1. unfold gets at 1.
    set (s := session (sessions st) r).
    unfold bind at 1.
    destruct (endStream_calls s st)
      as (st1 & delta & -> & Hrt & Hus & Hro & Hse & Hem & Hc & Hd).
    unfold bind at 1. unfold gets at 1. rewrite Hrt.
    destruct (Js.get (roomTerminals st) (roomId s)) as [rr|];
      unfold bind, mutateRoom, modify, ret;
      cbn [world roomTerminals userSessions rooms sessions calls emitted
           set_rooms set_userSessions];
      eexists _, delta; (split; [reflexivity|]);
      cbn [roomTerminals userSessions calls emitted];
      rewrite Hus; now repeat split.
  - unfold ret. exists st, []. rewrite app_nil_r.
    repeat split; try constructor.
    symmetry. now apply delete_absent.
Qed.

(** X23.  A disconnect is final and costs the room nothing: whatever
    the state, [handleDisconnect] resolves, leaves the set of rooms as it
    is and makes no call that stops or removes a container; afterwards
    the socket has no session, a second disconnect does nothing, and a
    [terminal-input] from that socket is answered with the error
    [No active terminal session] without any call on the engine. *)
Theorem disconnect_is_final (socketId input : string) (st : State W) :
  exists st1 delta,
    handleDisconnect socketId st = (Resolved tt, st1)
    /\ roomTerminals st1 = roomTerminals st
    /\ calls st1 = (calls st ++ delta)%list
    /\ Forall (fun c => destroys c = false) delta
    /\ Js.get (userSessions st1) socketId = None
    /\ handleDisconnect socketId st1 = (Resolved tt, st1)
    /\ exists st2,
         onTerminalInput socketId input st1 = (Resolved tt, st2)
         /\ calls st2 = calls st1
         /\ emitted st2
            = (emitted st1
                 ++ [{| em_socket := socketId;
                        em_message := "No active terminal session";
                        em_details := None |}])%list.
Proof.
  destruct (handleDisconnect_calls socketId st)
    as (st1 & delta & Hrun & Hrt & Hus & _ & Hc & Hd).
  assert (Hnone : Js.get (userSessions st1) socketId = None)
    by (rewrite Hus; apply get_delete_same).
  exists st1, delta. repeat (split; [assumption|]).
  split.
  - unfold handleDisconnect, bind, gets. now rewrite Hnone.
  - unfold onTerminalInput, tryCatch, bind, gets. rewrite Hnone.
    unfold emit, modify. eexists. split; [reflexivity|]. now split.
Qed.

(** X24.  A session is given one shell and keeps it: once its
    [execInstance] is set, a [terminal-input] starts no further exec.  It
    leaves the session objects as they are and makes at most one call on
    the engine, the write of the input to the stream of that exec. *)
Theorem open_exec_is_reused (socketId input : string) (st : State W)
    (r : ref) (inst : ExecInstance) (res : Outcome unit) (st' : State W) :
  Js.get (userSessions st) socketId = Some r ->
  execInstance (session (sessions st) r) = Some inst ->
  onTerminalInput socketId input st = (res, st') ->
  res = Resolved tt
  /\ sessions st' = sessions st
  /\ (calls st' = calls st
      \/ exists stream,
           exec_stream inst = Some stream
           /\ calls st' = (calls st ++ [CallWrite stream input])%list).
Proof.
  intros Hget Hinst. unfold onTerminalInput.
  unfold tryCatch, bind at 1. unfold gets at 1. rewrite Hget.
  unfold bind at 1. unfold gets at 1.
  destruct (isActive (session (sessions st) r)); cbn [negb].
  2:{ unfold emit, modify. intros [= <- <-]. cbn. auto. }
  rewrite Hinst. unfold bind at 1. unfold ret at 1.
  unfold bind at 1. unfold gets at 1. rewrite Hinst.
  destruct inst as [e [stream|]].
  2:{ unfold ret. intros [= <- <-]. auto. }
  unfold bind at 1. unfold gets at 1.
  destruct (streamWritable stream (world st)).
  2:{ unfold ret. intros [= <- <-]. auto. }
  unfold bind at 1. unfold engine.
  destruct (streamWrite stream input (world st)) as [[[]|err] w1].
  - unfold bind at 1. unfold gets at 1.
    cbn [roomTerminals log_call set_world].
    destruct (Js.get (roomTerminals st) _) as [rr|].
    + unfold bind, now, mutateRoom, modify.
      cbn [world log_call set_world].
      destruct (newDate w1) as [t w2]. intros [= <- <-]. cbn.
      split; [reflexivity|]. split; [reflexivity|].
      right. exists stream. now split.
    + unfold ret. intros [= <- <-]. cbn.
      split; [reflexivity|]. split; [reflexivity|].
      right. exists stream. now split.
  - unfold emit, modify. intros [= <- <-]. cbn.
    split; [reflexivity|]. split; [reflexivity|].
    right. exists stream. now split.
Qed.

End MembershipFacts.

(** ** The further properties on concrete runs *)

Section CaseRuns.
Import Docker Scripted Scenario Cases.

Lemma idle_sweep_removes_the_expired_witness :
  Js.uniqueKeys (SessionFree.persistentContexts aliceTwo) = true
  /\ exists st',
       SessionFree.cleanupInactiveContexts aliceTwo = (Resolved tt, st')
       /\ SessionFree.persistentContexts st' = [("alice:javascript", 1%nat)]
       /\ List.map fst (SessionFree.calls st')
          = (List.map fst (SessionFree.calls aliceTwo)
               ++ [CallDestroy "container-1002"])%list.
Proof.
  assert (H : Js.uniqueKeys (SessionFree.persistentContexts aliceTwo) = true)
    by (vm_compute; reflexivity).
  split; [exact H|].
  destruct (idle_sweep_removes_the_expired aliceTwo H)
    as (st' & Hrun & Hreg & _ & Hcalls).
  exists st'. split; [exact Hrun|]. split.
  - rewrite Hreg. vm_compute. reflexivity.
  - rewrite Hcalls. f_equal.
Defined.

Lemma registered_context_belongs_to_owner_witness :
  let st := Registry.afterOperations (runsOf "alice" fiveLanguages)
              (SessionFree.initial (quiet 1000)) in
  Js.get (SessionFree.persistentContexts st)
         (SessionFree.contextKey "alice" "go") = Some 2%nat
  /\ SessionFree.userId (SessionFree.deref (SessionFree.store st) 2%nat)
     = "alice"
  /\ SessionFree.language (SessionFree.deref (SessionFree.store st) 2%nat)
     = "go".
Proof.
  intros st.
  assert (H : Js.get (SessionFree.persistentContexts st)
                     (SessionFree.contextKey "alice" "go") = Some 2%nat)
    by (vm_compute; reflexivity).
  split; [exact H|].
  apply (registered_context_belongs_to_owner (quiet 1000)
           (runsOf "alice" fiveLanguages) "alice" "go" 2%nat).
  - vm_compute. reflexivity.
  - exact H.
Defined.

Lemma one_context_per_owner_and_language_witness :
  let st := Registry.afterOperations (runsOf "alice" fiveLanguages)
              (SessionFree.initial (quiet 1000)) in
  In ("alice:go", 2%nat) (SessionFree.persistentContexts st)
  /\ In (SessionFree.contextKey "alice" "go", 2%nat)
        (SessionFree.persistentContexts st)
  /\ "alice:go" = SessionFree.contextKey "alice" "go"
  /\ 2%nat = 2%nat.
Proof.
  intros st.
  assert (H1 : In ("alice:go", 2%nat) (SessionFree.persistentContexts st))
    by (vm_compute; repeat first [left; reflexivity | right]).
  assert (H2 : In (SessionFree.contextKey "alice" "go", 2%nat)
                  (SessionFree.persistentContexts st))
    by (vm_compute; repeat first [left; reflexivity | right]).
  split; [exact H1|]. split; [exact H2|].
  apply (one_context_per_owner_and_language (quiet 1000)
           (runsOf "alice" fiveLanguages)
           "alice:go" (SessionFree.contextKey "alice" "go") 2%nat 2%nat).
  - exact H1.
  - exact H2.
  - reflexivity.
  - reflexivity.
Defined.

Lemma run_context_is_listed_witness :
  let st := Registry.afterOperations (runsOf "alice" ["python"])
              (SessionFree.initial (quiet 1000)) in
  let run := SessionFree.executeCode (request "alice" "python" "2" None) st in
  exists result infos info,
    fst run = Resolved result
    /\ SessionFree.res_exitCode result = 0
    /\ Registry.getUserContexts "alice" (snd run)
       = (Resolved infos, snd run)
    /\ In info infos
    /\ Registry.info_contextId info = "alice-python-1001"
    /\ Registry.info_language info = "python".
Proof.
  intros st run.
  set (result := {| SessionFree.res_output := EmptyString;
                    SessionFree.res_error := EmptyString;
                    SessionFree.res_executionTime := 8;
                    SessionFree.res_exitCode := 0;
                    SessionFree.res_files := Some [];
                    SessionFree.res_contextId := "alice-python-1001" |}).
  assert (Hrun : SessionFree.executeCode
                   (request "alice" "python" "2" None) st
                 = (Resolved result, snd run))
    by (vm_compute; reflexivity).
  destruct (run_context_is_listed (quiet 1000) (runsOf "alice" ["python"])
              (request "alice" "python" "2" None) result (snd run))
    as (infos & info & Hlist & Hin & Hid & Hlang).
  - vm_compute. reflexivity.
  - exact Hrun.
  - reflexivity.
  - exists result, infos, info.
    split; [unfold run; rewrite Hrun; reflexivity|].
    split; [reflexivity|].
    split; [exact Hlist|]. split; [exact Hin|].
    split; [exact Hid | exact Hlang].
Defined.

Lemma key_collision_shares_context_witness :
  SessionFree.userId (SessionFree.deref (SessionFree.store bobX) 0%nat)
    = "bob:x"
  /\ exists st',
       SessionFree.getOrCreatePersistentContext "bob" "x:python" bobX
         = (Resolved 0%nat, st')
       /\ SessionFree.store st' = SessionFree.store bobX
       /\ creations (SessionFree.calls st')
          = creations (SessionFree.calls bobX).
Proof.
  split; [vm_compute; reflexivity|].
  destruct (key_collision_shares_context "bob" "x" "python" bobX 0%nat
              silence (tick (SessionFree.world bobX)))
    as (st' & Hrun & _ & Hstore & Hcreate).
  - vm_compute. reflexivity.
  - vm_compute. reflexivity.
  - exists st'. split; [exact Hrun|]. split; [exact Hstore | exact Hcreate].
Defined.

Lemma dead_context_is_replaced_not_destroyed_witness :
  let st := withDead "container-1002" aliceOne in
  let run := SessionFree.getOrCreatePersistentContext "alice" "python" st in
  fst run = Resolved 1%nat
  /\ Registry.destructions (SessionFree.calls (snd run))
     = Registry.destructions (SessionFree.calls st)
  /\ Js.get (SessionFree.persistentContexts (snd run))
            (SessionFree.contextKey "alice" "python") = Some 1%nat.
Proof.
  intros st run.
  assert (Hres : fst run = Resolved 1%nat) by (vm_compute; reflexivity).
  split; [exact Hres|].
  destruct (dead_context_is_replaced_not_destroyed "alice" "python" st
              0%nat ("command failed: " ++ SessionFree.probe)
              (tick (SessionFree.world st)) (fst run) (snd run))
    as (Hd & Hget & _).
  - vm_compute. reflexivity.
  - intros u. unfold SessionFree.owned.
    etransitivity; [apply filter_length_le|]. vm_compute. lia.
  - vm_compute. reflexivity.
  - vm_compute. reflexivity.
  - vm_compute. reflexivity.
  - apply surjective_pairing.
  - split; [exact Hd|]. rewrite Hget, Hres. reflexivity.
Defined.

Lemma installPackages_second_time_is_free_witness :
  let st1 := snd (SessionFree.installPackages 0%nat ["requests"; "numpy"]
                    aliceOne) in
  SessionFree.installPackages 0%nat ["requests"; "numpy"] aliceOne
    = (Resolved tt, st1)
  /\ SessionFree.installPackages 0%nat ["requests"; "numpy"] st1
     = (Resolved tt, st1).
Proof.
  intros st1.
  assert (H : SessionFree.installPackages 0%nat ["requests"; "numpy"]
                aliceOne = (Resolved tt, st1))
    by (vm_compute; reflexivity).
  split; [exact H|].
  exact (installPackages_second_time_is_free 0%nat ["requests"; "numpy"]
           aliceOne st1 H).
Defined.

Lemma unknown_language_reaches_no_container_witness :
  exists result st',
    EnhancedService.executeCode (enhancedRequest "ruby" "puts 1")
      (EnhancedService.initial (quiet 1000)) = (Resolved result, st')
    /\ EnhancedService.exitCode result = 1
    /\ EnhancedService.error result
       = Some "Execution failed: Unsupported language: ruby"
    /\ EnhancedService.calls st' = [].
Proof.
  destruct (unknown_language_reaches_no_container
              (enhancedRequest "ruby" "puts 1")
              (EnhancedService.initial (quiet 1000)))
    as (result & st' & Hrun & Hexit & Herr & _ & Hcalls & _).
  - vm_compute. reflexivity.
  - exists result, st'. repeat split; assumption.
Defined.

Lemma every_run_creates_a_container_witness :
  let st' := EnhancedService.afterRequests
               [enhancedRequest "python" "1"; enhancedRequest "python" "2";
                enhancedRequest "toString" "3"]
               (EnhancedService.initial (quiet 1000)) in
  creations (EnhancedService.calls st') = 3%nat
  /\ Registry.destructions (EnhancedService.calls st') = 0%nat.
Proof.
  intros st'.
  destruct (every_run_creates_a_container
              [enhancedRequest "python" "1"; enhancedRequest "python" "2";
               enhancedRequest "toString" "3"]
              (EnhancedService.initial (quiet 1000))) as [Hc Hd].
  - repeat constructor.
  - split; [exact Hc | exact Hd].
Defined.

Lemma common_packages_are_never_reinstalled_witness :
  let st1 := snd (EnhancedService.getOrCreateContext "python"
                    (EnhancedService.initial (quiet 1000))) in
  EnhancedService.getOrCreateContext "python"
    (EnhancedService.initial (quiet 1000)) = (Resolved 0%nat, st1)
  /\ EnhancedService.installPackages 0%nat ["numpy"; "flask"] st1
     = (Resolved tt, st1).
Proof.
  intros st1.
  assert (H : EnhancedService.getOrCreateContext "python"
                (EnhancedService.initial (quiet 1000))
              = (Resolved 0%nat, st1)) by (vm_compute; reflexivity).
  split; [exact H|].
  apply (common_packages_are_never_reinstalled "python"
           ["requests"; "numpy"; "pandas"; "matplotlib"; "seaborn";
            "plotly"; "scikit-learn"; "flask"; "django"; "fastapi"]
           ["pip"; "install"; "--no-cache-dir"] ["numpy"; "flask"]
           (EnhancedService.initial (quiet 1000)) st1 0%nat).
  - reflexivity.
  - reflexivity.
  - exact H.
  - intros p [<-|[<-|[]]]; cbn; tauto.
Defined.

Lemma generated_names_carry_the_declared_extension_witness :
  fst (SessionFree.generateFileName "cpp" (SessionFree.initial (quiet 1000)))
  = Resolved "code_1000.cpp"
  /\ fst (EnhancedService.generateFileName "cpp"
            (EnhancedService.initial (quiet 1000)))
     = Resolved "code_1000.cpp".
Proof.
  destruct (generated_names_carry_the_declared_extension "cpp" Lang.cpp
              (SessionFree.initial (quiet 1000))
              (EnhancedService.initial (quiet 1000))) as [H1 H2].
  - reflexivity.
  - split; [rewrite H1 | rewrite H2]; vm_compute; reflexivity.
Defined.

Lemma parseFileList_reads_listing_witness :
  forallb RoomQueries.lineOk sampleListing = true
  /\ List.map (fun e => (RoomQueries.name e, RoomQueries.isDirectory e))
       (RoomQueries.parseFileList
          (Fields.join [10%N]
             (List.map RoomQueries.lineText sampleListing)))
     = [(word "src", true); (word "my file.txt", false)].
Proof.
  assert (H : forallb RoomQueries.lineOk sampleListing = true)
    by (vm_compute; reflexivity).
  split; [exact H|].
  rewrite (parseFileList_reads_listing sampleListing H).
  vm_compute. reflexivity.
Defined.

Lemma sanitizeOutput_keeps_clean_text_witness :
  Terminal.sanitizeOutput (word "make: done") = word "make: done".
Proof.
  apply (sanitizeOutput_keeps_clean_text (word "make: done")).
  - vm_compute. reflexivity.
  - vm_compute. discriminate.
Defined.

Lemma join_then_disconnect_restores_membership_witness :
  exists st1 st2,
    Terminal.joinSession 0%nat "alice" "socket-1" emptyRooms
      = (Resolved 0%nat, st1)
    /\ option_map RoomQueries.info_activeSessions
         (RoomQueries.getRoomTerminalInfo "room-a" st1) = Some 1%nat
    /\ Terminal.handleDisconnect "socket-1" st1 = (Resolved tt, st2)
    /\ Terminal.userSessions st2 = []
    /\ Terminal.rooms st2 = Terminal.rooms emptyRooms.
Proof.
  destruct (join_then_disconnect_restores_membership 0%nat "alice"
              "socket-1" emptyRooms)
    as (s & st1 & st2 & Hjoin & _ & _ & Hinfo & Hleave & Hus & Hro & _).
  - vm_compute. lia.
  - vm_compute. reflexivity.
  - vm_compute. reflexivity.
  - vm_compute. reflexivity.
  - exists st1, st2.
    assert (Hs : s = 0%nat).
    { assert (E : fst (Terminal.joinSession 0%nat "alice" "socket-1"
                         emptyRooms) = Resolved 0%nat)
        by (vm_compute; reflexivity).
      rewrite Hjoin in E. now injection E. }
    subst s. split; [exact Hjoin|]. split; [exact Hinfo|].
    split; [exact Hleave|]. split; [exact Hus | exact Hro].
Defined.

Lemma open_exec_is_reused_witness :
  let run := Terminal.onTerminalInput "socket-1" "pwd" aliceTyped in
  fst run = Resolved tt
  /\ Terminal.sessions (snd run) = Terminal.sessions aliceTyped
  /\ (Terminal.calls (snd run) = Terminal.calls aliceTyped
      \/ exists stream,
           Some "stream-1003" = Some stream
           /\ Terminal.calls (snd run)
              = (Terminal.calls aliceTyped
                   ++ [Terminal.CallWrite stream "pwd"])%list).
Proof.
  intros run.
  apply (open_exec_is_reused "socket-1" "pwd" aliceTyped 0%nat
           {| Terminal.exec_id := "exec-1002";
              Terminal.exec_stream := Some "stream-1003" |}
           (fst run) (snd run)).
  - vm_compute. reflexivity.
  - vm_compute. reflexivity.
  - apply surjective_pairing.
Defined.

Lemma run_spares_other_owners_witness :
  let st := Registry.afterOperations
              (runsOf "alice" fiveLanguages ++ runsOf "bob" fiveLanguages)
              (SessionFree.initial (quiet 1000)) in
  let run := SessionFree.executeCode (request "bob" "ruby" "1" None) st in
  Js.get (SessionFree.persistentContexts st) "bob:python" <> None
  /\ Js.get (SessionFree.persistentContexts (snd run)) "bob:python" = None
  /\ In ("alice:go", 2%nat) (SessionFree.persistentContexts (snd run))
  /\ Registry.identity
       (SessionFree.deref (SessionFree.store (snd run)) 2%nat)
     = Registry.identity (SessionFree.deref (SessionFree.store st) 2%nat).
Proof.
  intros st run.
  split; [vm_compute; discriminate|].
  split; [vm_compute; reflexivity|].
  apply (run_spares_other_owners (request "bob" "ruby" "1" None) st
           (fst run) (snd run) "alice:go" 2%nat).
  - vm_compute. reflexivity.
  - apply surjective_pairing.
  - vm_compute. tauto.
  - vm_compute. discriminate.
  - vm_compute. discriminate.
Defined.

End CaseRuns.
